(** * HC908JB8 USB ICP manager (tools/manage.c): a shallow embedding

    The development follows the C source function by function: the S19
    reader ([HRM_ICP_ReadS19]), the ICP flag computation and its repair in
    [main], and the erase / program phases that talk to the resident
    bootloader through [usb_control_msg].

    Conventions.
    - C integers are [Z]; every narrowing the source performs is written
      out ([to_uchar], [to_uint], [to_int]).
    - [hrm->mem] and the text buffer [line] are lists of fixed length,
      read with [!!] and written with [<[ := ]>]; an access outside the
      array is undefined in C and is a [Fault] here.
    - libusb, [fopen]/[fgets] and [exit] are the environment: their
      answers come from an [env] record, and what the program asks of them
      is logged in a trace of events.
    - [printf] output is not modelled. *)

From Stdlib Require Import ZArith Ascii Lia.
From stdpp Require Import base tactics option list.

Local Open Scope Z_scope.

(** ** Constants of the source *)

Definition MAX_LINE_LEN : nat := 512.
Definition BUF_SIZE : Z := 0x40.

Definition MEM_SIZE : Z := 0x1C00.
Definition MEM_OFFSET : Z := 0xDC00.
Definition MEM_BLOCK_SIZE : Z := 0x200.
Definition MEM_PROG_BLOCK_SIZE : Z := 0x40.

Definition WAIT_PROGRAMMING : Z := 70.
Definition WAIT_STATUS : Z := 5.

Definition ICP_CHECKSUM_START : Z := 0xF600.
Definition ICP_CHECKSUM_STOP : Z := 0xF7FD.
Definition ICP_FLAG_ADDRESS : Z := 0xF7FE.

Definition HRM_OK : Z := 1.
Definition HRM_ERROR : Z := -1.

Definition HRM_NO_ERRORS : Z := 0.
Definition HRM_USB_OPEN_ERROR : Z := 1.
Definition HRM_USB_CONFIG_ERROR : Z := 2.
Definition HRM_FILE_OPEN_ERROR : Z := 3.
Definition HRM_FLASH_ERASE_ERROR : Z := 4.
Definition HRM_FLASH_PROGRAM_ERROR : Z := 5.

Definition HID_VID : Z := 0x0c74.
Definition HID_PID : Z := 0x4008.
Definition ICP_VID : Z := 0x0425.
Definition ICP_PID : Z := 0xff01.

(** ** Integer conversions *)

(** Assignment to [unsigned char]. *)
Definition to_uchar (v : Z) : Z := v mod 256.
(** Arithmetic in, and assignment to, [unsigned int] (32 bits). *)
Definition to_uint (v : Z) : Z := v mod 2 ^ 32.
(** Assignment of an out-of-range value to [int] (32 bits, wrapping as gcc does). *)
Definition to_int (v : Z) : Z := (v + 2 ^ 31) mod 2 ^ 32 - 2 ^ 31.

(** ** Results with undefined behaviour made explicit *)

Inductive fault : Type :=
  | ReadOOB (index : nat)      (* read of line[index] with index >= MAX_LINE_LEN *)
  | WriteOOB (index : Z)       (* write of hrm->mem[index] with index >= MEM_SIZE *)
  | OutOfFuel.                 (* a loop of the model ran out of fuel: never produced,
                                  see [read_loop_fuel] and the evaluation lemmas *)

Inductive result (A : Type) : Type :=
  | OK (a : A)
  | Fault (f : fault).
Arguments OK {A} a.
Arguments Fault {A} f.

#[global] Instance result_ret : MRet result := fun A a => OK a.
#[global] Instance result_bind : MBind result := fun A B k m =>
  match m with
  | OK a => k a
  | Fault f => Fault f
  end.

(** ** The C library pieces the reader relies on *)

Definition NUL : ascii := "000"%char.
Definition LF : ascii := "010"%char.

Definition isspace (c : ascii) : bool :=
  let n := N_of_ascii c in
  ((9 <=? n) && (n <=? 13) || (n =? 32))%N.

Definition xdigit (c : ascii) : option Z :=
  let n := Z.of_N (N_of_ascii c) in
  if (48 <=? n) && (n <=? 57) then Some (n - 48)
  else if (65 <=? n) && (n <=? 70) then Some (n - 55)
  else if (97 <=? n) && (n <=? 102) then Some (n - 87)
  else None.

Fixpoint skip_space (s : list ascii) : list ascii :=
  match s with
  | c :: s' => if isspace c then skip_space s' else s
  | [] => []
  end.

Fixpoint digits16 (acc : Z) (s : list ascii) : Z :=
  match s with
  | c :: s' =>
      match xdigit c with
      | Some d => digits16 (16 * acc + d) s'
      | None => acc
      end
  | [] => acc
  end.

(** [strtoul(s, NULL, 16)] on the C string [s] (the characters before its
    terminator): optional white space, an optional sign, an optional
    [0x]/[0X] that is followed by a hexadecimal digit, then the longest run
    of hexadecimal digits; no digits give 0 and a minus sign negates in
    [unsigned long] (64 bits); a value that does not fit is ULONG_MAX. *)
Definition strtoul16 (s : list ascii) : Z :=
  let s1 := skip_space s in
  let '(neg, s2) :=
    match s1 with
    | c :: t =>
        if Ascii.eqb c "-" then (true, t)
        else if Ascii.eqb c "+" then (false, t)
        else (false, s1)
    | [] => (false, s1)
    end in
  let s3 :=
    match s2 with
    | z :: x :: d :: t =>
        if Ascii.eqb z "0" && (Ascii.eqb x "x" || Ascii.eqb x "X") && bool_decide (is_Some (xdigit d))
        then d :: t else s2
    | _ => s2
    end in
  let v := digits16 0 s3 in
  if 2 ^ 64 <=? v then 2 ^ 64 - 1 else (if neg then - v else v) mod 2 ^ 64.

(** [strncpy(dst, line + off, n)] with [dst[n] = 0] set beforehand: the C
    string left in [dst].  Copying stops at the first NUL of the source;
    the characters after it are not read. *)
Fixpoint strncpy_from (line : list ascii) (off n : nat) : result (list ascii) :=
  match n with
  | O => OK []
  | S n' =>
      match line !! off with
      | None => Fault (ReadOOB off)
      | Some c =>
          if Ascii.eqb c NUL then OK []
          else r ← strncpy_from line (S off) n'; OK (c :: r)
      end
  end.

(** The characters [fgets] takes from the stream: at most [n], ending after
    the first line feed. *)
Fixpoint fgets_take (n : nat) (inp : list ascii) : list ascii * list ascii :=
  match n, inp with
  | S n', c :: rest =>
      if Ascii.eqb c LF then ([c], rest)
      else let '(l, r) := fgets_take n' rest in (c :: l, r)
  | _, _ => ([], inp)
  end.

(** [fgets(line, size, fp)]: [None] at end of file (the buffer is left as
    it was); otherwise the characters read are stored at the start of
    [line], followed by a NUL, and the rest of the buffer keeps its old
    contents. *)
Definition fgets (line : list ascii) (size : nat) (inp : list ascii)
  : option (list ascii * list ascii) :=
  match inp with
  | [] => None
  | _ =>
      let '(l, r) := fgets_take (size - 1) inp in
      Some (l ++ NUL :: drop (S (length l)) line, r)
  end.

(** ** HRM_Data *)

Record HRM_Data : Type := mkHRM {
  icp_flag_calculated : Z;      (* unsigned int *)
  icp_flag : Z;                 (* unsigned int *)
  usb_dev : option nat;         (* usb_dev_handle *, None for NULL *)
  mem : list Z;                 (* unsigned char mem[MEM_SIZE] *)
  verbose_mode : Z;             (* unsigned char *)
  last_errorcode : Z            (* unsigned char *)
}.

Definition set_last_errorcode (e : Z) (h : HRM_Data) : HRM_Data :=
  mkHRM (icp_flag_calculated h) (icp_flag h) (usb_dev h) (mem h) (verbose_mode h) e.
Definition set_mem (m : list Z) (h : HRM_Data) : HRM_Data :=
  mkHRM (icp_flag_calculated h) (icp_flag h) (usb_dev h) m (verbose_mode h) (last_errorcode h).
Definition set_usb_dev (d : option nat) (h : HRM_Data) : HRM_Data :=
  mkHRM (icp_flag_calculated h) (icp_flag h) d (mem h) (verbose_mode h) (last_errorcode h).
Definition set_verbose_mode (v : Z) (h : HRM_Data) : HRM_Data :=
  mkHRM (icp_flag_calculated h) (icp_flag h) (usb_dev h) (mem h) v (last_errorcode h).
Definition set_icp_flag_calculated (v : Z) (h : HRM_Data) : HRM_Data :=
  mkHRM v (icp_flag h) (usb_dev h) (mem h) (verbose_mode h) (last_errorcode h).
Definition set_icp_flag (v : Z) (h : HRM_Data) : HRM_Data :=
  mkHRM (icp_flag_calculated h) v (usb_dev h) (mem h) (verbose_mode h) (last_errorcode h).

(** [hrm->mem[i]] read at an index inside the array. *)
Definition mem_get (m : list Z) (i : Z) : Z := default 0 (m !! Z.to_nat i).

(** [hrm->mem[i] = v], for [i >= 0]: undefined when [i] is past the array. *)
Definition mem_put (m : list Z) (i : Z) (v : Z) : result (list Z) :=
  if i <? MEM_SIZE then OK (<[Z.to_nat i := v]> m) else Fault (WriteOOB i).

(** ** HRM_ICP_ReadS19 *)

Module S19.

(** Locals of the reader that outlive the data loop. *)
Record locals : Type := mkLocals {
  l_mem : list Z;
  l_calc_crc : Z;      (* unsigned char *)
  l_i : Z              (* int *)
}.

(** The loop [for(i=0;i<datalen-3;i++)], started at [i] with [n]
    iterations left. *)
Fixpoint data_loop (n : nat) (line : list ascii) (address : Z) (st : locals)
  : result locals :=
  match n with
  | O => OK st
  | S n' =>
      let i := l_i st in
      sdata_str ← strncpy_from line (Z.to_nat (8 + 2 * i)) 2;
      let sdata := to_uchar (strtoul16 sdata_str) in
      m ← mem_put (l_mem st) (address - MEM_OFFSET + i) sdata;
      data_loop n' line address
        (mkLocals m (to_uchar (l_calc_crc st + sdata)) (i + 1))
  end.

(** What one S1 line leaves behind: the image, and the two checksums,
    [crc] as read from the line and [calc_crc] as computed.  Neither
    checksum is used afterwards.  ([readlen] and [calc_datalen] are
    assigned and never read; they are left out.) *)
Record s1_outcome : Type := mkS1 {
  o_mem : list Z;
  o_crc : Z;
  o_calc_crc : Z
}.

Definition s1_record (line : list ascii) (m : list Z) : result (option s1_outcome) :=
  datalen_str ← strncpy_from line 2 2;
  let datalen := to_int (strtoul16 datalen_str) in
  address_str ← strncpy_from line 4 4;
  let address := to_int (strtoul16 address_str) in
  if (address <? MEM_OFFSET) || (address >=? MEM_OFFSET + MEM_SIZE) then
    OK None                                     (* continue *)
  else
    st ← data_loop (Z.to_nat (datalen - 3)) line address (mkLocals m 0 0);
    crc_str ← strncpy_from line (Z.to_nat (8 + 2 * l_i st)) 2;
    let crc := to_uchar (strtoul16 crc_str) in
    let calc_crc :=
      to_uchar (0xff - (l_calc_crc st + datalen + Z.shiftr address 8 + Z.land address 0xff)) in
    OK (Some (mkS1 (l_mem st) crc calc_crc)).

Definition starts_with (line : list ascii) (c0 c1 : ascii) : bool :=
  match line with
  | a :: b :: _ => Ascii.eqb a c0 && Ascii.eqb b c1
  | _ => false
  end.

(** One turn of the [while] loop after a successful [fgets]: the new image
    and whether the loop is left ([break] at an S9 line). *)
Definition line_step (line : list ascii) (m : list Z) : result (list Z * bool) :=
  if starts_with line "S" "1" then
    o ← s1_record line m;
    match o with
    | Some r => OK (o_mem r, false)
    | None => OK (m, false)
    end
  else if starts_with line "S" "9" then OK (m, true)
  else OK (m, false).

(** The [while(!feof(fp))] loop.  [inp] is what is left of the stream;
    the loop ends when nothing is left ([feof] after a last line without a
    line feed, or [fgets] returning NULL).  Every turn consumes at least
    one character, so [length inp] turns are enough ([read_loop_fuel]). *)
Fixpoint read_loop (fuel : nat) (inp line : list ascii) (m : list Z) : result (list Z) :=
  match fuel with
  | O => match inp with [] => OK m | _ => Fault OutOfFuel end
  | S fuel' =>
      match fgets line MAX_LINE_LEN inp with
      | None => OK m
      | Some (line', inp') =>
          '(m', brk) ← line_step line' m;
          if (brk : bool) then OK m' else read_loop fuel' inp' line' m'
      end
  end.

(** The ICP flag loop [for(i=ICP_CHECKSUM_START;i<=ICP_CHECKSUM_STOP;i++)]. *)
Definition checksum_sum (m : list Z) : Z :=
  foldl (fun acc i => to_uint (acc + mem_get m (i - MEM_OFFSET))) 0
        (seqZ ICP_CHECKSUM_START (ICP_CHECKSUM_STOP - ICP_CHECKSUM_START + 1)).

Definition flag_calculated (m : list Z) : Z :=
  to_uint (0xffff - Z.land 0xffff (checksum_sum m) + 1).

Definition flag_from_file (m : list Z) : Z :=
  to_uint (Z.shiftl (mem_get m (ICP_FLAG_ADDRESS - MEM_OFFSET)) 8
           + mem_get m (ICP_FLAG_ADDRESS - MEM_OFFSET + 1)).

(** The statements after the loop: both flags are stored in [hrm]. *)
Definition icp_flags (hrm : HRM_Data) : HRM_Data :=
  let hrm := set_icp_flag_calculated (flag_calculated (mem hrm)) hrm in
  set_icp_flag (flag_from_file (mem hrm)) hrm.

End S19.

(** [file] is what [fopen(hrm->filename,"r")] gives: [None] when the file
    cannot be opened, its characters otherwise.  [line0] is the content of
    the automatic array [line] on entry. *)
Definition HRM_ICP_ReadS19 (file : option (list ascii)) (line0 : list ascii)
    (hrm : HRM_Data) : result (Z * HRM_Data) :=
  let hrm := set_last_errorcode 0 hrm in
  let hrm := set_mem (replicate (Z.to_nat MEM_SIZE) 0xff) hrm in
  match file with
  | None => OK (HRM_ERROR, set_last_errorcode HRM_FILE_OPEN_ERROR hrm)
  | Some inp =>
      m ← S19.read_loop (length inp) inp line0 (mem hrm);
      let hrm := set_mem m hrm in
      OK (HRM_OK, S19.icp_flags hrm)
  end.

(** ** The environment: libusb, the file system, process exit *)

(** What [usb_control_msg] answers: its return value, and what the
    one-byte buffer [status] holds afterwards when the call is the status
    poll (the byte the device sent, or whatever the uninitialised variable
    held when nothing arrived). *)
Record ctl_reply : Type := mkReply {
  c_ret : Z;
  c_status : Z
}.

Record env : Type := mkEnv {
  e_open : nat -> Z -> Z -> option nat;   (* k-th HRM_OpenUSB(vid,pid): handle or NULL *)
  e_set_configuration : nat -> Z;         (* k-th usb_set_configuration *)
  e_control : nat -> ctl_reply;           (* k-th usb_control_msg *)
  e_file : option (list ascii);           (* fopen(argv[1],"r") and the file's characters *)
  e_line0 : list ascii;                   (* initial content of the array line[] *)
  e_tmp : list Z                          (* initial content of tmp[8] in HRM_ClearICPFlag *)
}.

Inductive event : Type :=
  | EvOpen (vid pid : Z) (h : option nat)
  | EvSetConfiguration (h : nat) (configuration : Z)
  | EvClearHalt (h : nat)
  | EvResetEp (h : nat)
  | EvClose (h : option nat)
  | EvControl (h : option nat) (requesttype request value index : Z)
              (bytes : list Z) (size : Z)
  | EvSleep (ms : Z).

Record world : Type := mkWorld {
  w_opens : nat;
  w_configs : nat;
  w_controls : nat;
  w_trace : list event
}.

Definition world0 : world := mkWorld 0 0 0 [].

(** A run either returns, or leaves through [exit], or has undefined
    behaviour. *)
Inductive run (A : Type) : Type :=
  | Ret (a : A) (w : world)
  | Exit (code : Z) (w : world)
  | Undef (f : fault) (w : world).
Arguments Ret {A} a w.
Arguments Exit {A} code w.
Arguments Undef {A} f w.

Definition prog (A : Type) : Type := world -> run A.

#[global] Instance prog_ret : MRet prog := fun A a w => Ret a w.
#[global] Instance prog_bind : MBind prog := fun A B k m w =>
  match m w with
  | Ret a w' => k a w'
  | Exit c w' => Exit c w'
  | Undef f w' => Undef f w'
  end.

Definition emit (e : event) : prog unit := fun w =>
  Ret () (mkWorld (w_opens w) (w_configs w) (w_controls w) (w_trace w ++ [e])).

Definition exit {A} (code : Z) : prog A := fun w => Exit code w.

Definition lift_result {A} (r : result A) : prog A := fun w =>
  match r with
  | OK a => Ret a w
  | Fault f => Undef f w
  end.

Definition Sleep (ms : Z) : prog unit := emit (EvSleep ms).

Section Program.

Variable E : env.

Definition HRM_OpenUSB (vid pid : Z) : prog (option nat) := fun w =>
  let h := e_open E (w_opens w) vid pid in
  Ret h (mkWorld (S (w_opens w)) (w_configs w) (w_controls w)
                 (w_trace w ++ [EvOpen vid pid h])).

Definition usb_set_configuration (h : nat) (configuration : Z) : prog Z := fun w =>
  Ret (e_set_configuration E (w_configs w))
      (mkWorld (w_opens w) (S (w_configs w)) (w_controls w)
               (w_trace w ++ [EvSetConfiguration h configuration])).

Definition usb_close (h : option nat) : prog unit := emit (EvClose h).

Definition usb_control_msg (h : option nat) (requesttype request value index : Z)
    (bytes : list Z) (size : Z) : prog ctl_reply := fun w =>
  Ret (e_control E (w_controls w))
      (mkWorld (w_opens w) (w_configs w) (S (w_controls w))
               (w_trace w ++ [EvControl h requesttype request value index bytes size])).

Definition HRM_CheckError (hrm : HRM_Data) : prog unit :=
  if 0 <? last_errorcode hrm then exit (last_errorcode hrm) else mret ().

Definition HRM_ICP_InitUSB (hrm : HRM_Data) : prog (Z * HRM_Data) :=
  let hrm := set_last_errorcode 0 hrm in
  h ← HRM_OpenUSB ICP_VID ICP_PID;
  let hrm := set_usb_dev h hrm in
  match h with
  | None => mret (HRM_ERROR, set_last_errorcode HRM_USB_OPEN_ERROR hrm)
  | Some d =>
      r ← usb_set_configuration d 1;
      if r <? 0 then
        let hrm := set_last_errorcode HRM_USB_CONFIG_ERROR hrm in
        usb_close (usb_dev hrm);;
        mret (HRM_ERROR, hrm)
      else mret (HRM_OK, hrm)
  end.

Definition HRM_ICP_CloseUSB (hrm : HRM_Data) : prog unit := usb_close (usb_dev hrm).

(** *** HRM_ICP_EraseFlashBlock *)

Definition HRM_ICP_EraseFlashBlock (hrm : HRM_Data) (block_start_addr : Z)
  : prog (Z * HRM_Data) :=
  let hrm := set_last_errorcode 0 hrm in
  match usb_dev hrm with
  | None => mret (HRM_ERROR, set_last_errorcode HRM_FLASH_ERASE_ERROR hrm)
  | Some _ =>
      r ← usb_control_msg (usb_dev hrm) 0x40 0x82 block_start_addr
            (to_uint (block_start_addr + MEM_BLOCK_SIZE - 1)) [] 0;
      let result := to_uchar (c_ret r) in
      Sleep 5;;
      r ← usb_control_msg (usb_dev hrm) 0xC0 0x8F 0 0 [] 1;
      let result := to_uchar (c_ret r) in
      let status := c_status r in
      Sleep 5;;
      if negb (status =? 1) || negb (result =? 1) then
        mret (HRM_ERROR, set_last_errorcode HRM_FLASH_ERASE_ERROR hrm)
      else mret (HRM_OK, hrm)
  end.

(** *** HRM_ICP_EraseFlash *)

(** [for(i=MEM_OFFSET; i<MEM_OFFSET+MEM_SIZE; i=i+MEM_BLOCK_SIZE)], entered
    at [i]. *)
Fixpoint erase_loop (fuel : nat) (i : Z) (hrm : HRM_Data) : prog (Z * HRM_Data) :=
  if i <? MEM_OFFSET + MEM_SIZE then
    match fuel with
    | O => lift_result (Fault OutOfFuel)
    | S fuel' =>
        '(r, hrm) ← HRM_ICP_EraseFlashBlock hrm i;
        if r =? HRM_ERROR then
          mret (HRM_ERROR, set_last_errorcode HRM_FLASH_ERASE_ERROR hrm)
        else erase_loop fuel' (i + MEM_BLOCK_SIZE) hrm
    end
  else mret (HRM_OK, hrm).

Definition HRM_ICP_EraseFlash (hrm : HRM_Data) : prog (Z * HRM_Data) :=
  let hrm := set_last_errorcode 0 hrm in
  erase_loop (Z.to_nat MEM_SIZE) MEM_OFFSET hrm.

(** *** HRM_ICP_ProgramFlash *)

(** The scan [for(j=0;j<MEM_PROG_BLOCK_SIZE;j++)] that sets [valid]. *)
Definition block_valid (m : list Z) (i : Z) : bool :=
  existsb (fun j => negb (mem_get m (i - MEM_OFFSET + j) =? 0xff))
          (seqZ 0 MEM_PROG_BLOCK_SIZE).

(** [hrm->mem + i - MEM_OFFSET], [MEM_PROG_BLOCK_SIZE] bytes of it. *)
Definition block_bytes (m : list Z) (i : Z) : list Z :=
  take (Z.to_nat MEM_PROG_BLOCK_SIZE) (drop (Z.to_nat (i - MEM_OFFSET)) m).

(** The body of the program loop for the block at [i]: [None] when the
    loop goes on, [Some r] when the function returns [r]. *)
Definition program_block (hrm : HRM_Data) (i : Z) : prog (option Z * HRM_Data) :=
  if block_valid (mem hrm) i then
    r ← usb_control_msg (usb_dev hrm) 0x40 0x81 i (i + MEM_PROG_BLOCK_SIZE - 1)
          (block_bytes (mem hrm) i) MEM_PROG_BLOCK_SIZE;
    let result := to_uchar (c_ret r) in
    if negb (result =? MEM_PROG_BLOCK_SIZE) then
      mret (Some HRM_ERROR, set_last_errorcode HRM_FLASH_PROGRAM_ERROR hrm)
    else
      Sleep WAIT_PROGRAMMING;;
      r ← usb_control_msg (usb_dev hrm) 0xC0 0x8F 0 0 [] 1;
      let result := to_uchar (c_ret r) in
      let status := c_status r in
      if negb (result =? 1) || negb (result =? 1) then
        mret (Some HRM_ERROR, set_last_errorcode HRM_FLASH_PROGRAM_ERROR hrm)
      else
        Sleep WAIT_STATUS;;
        mret (None, hrm)
  else mret (None, hrm).

(** [for(i=MEM_OFFSET;i<MEM_OFFSET+MEM_SIZE;i=i+MEM_PROG_BLOCK_SIZE)],
    entered at [i]. *)
Fixpoint program_loop (fuel : nat) (i : Z) (hrm : HRM_Data) : prog (Z * HRM_Data) :=
  if i <? MEM_OFFSET + MEM_SIZE then
    match fuel with
    | O => lift_result (Fault OutOfFuel)
    | S fuel' =>
        '(r, hrm) ← program_block hrm i;
        match r with
        | Some code => mret (code, hrm)
        | None => program_loop fuel' (i + MEM_PROG_BLOCK_SIZE) hrm
        end
    end
  else mret (HRM_OK, hrm).

Definition HRM_ICP_ProgramFlash (hrm : HRM_Data) : prog (Z * HRM_Data) :=
  let hrm := set_last_errorcode 0 hrm in
  program_loop (Z.to_nat MEM_SIZE) MEM_OFFSET hrm.

(** *** HRM_ClearICPFlag *)

(** The keys are [unsigned int]; [usb_control_msg] takes [value] and
    [index] as [int], so the call converts them. *)

Definition HRM_ClearICPFlag (vid pid key1 key2 : Z) : prog Z :=
  dev ← HRM_OpenUSB vid pid;
  match dev with
  | None => mret HRM_ERROR
  | Some d =>
      r ← usb_set_configuration d 1;
      if r <? 0 then usb_close dev;; mret HRM_ERROR
      else
        emit (EvClearHalt d);;
        emit (EvResetEp d);;
        _ ← usb_control_msg dev 0x21 0x09 (to_int key1) (to_int key2) (e_tmp E) 8;
        usb_close dev;;
        mret 0
  end.

(** *** main *)

(** The loop [for(i=30; i>0; i--)] that waits for the device. *)
Fixpoint init_loop (i : nat) (hrm : HRM_Data) : prog HRM_Data :=
  match i with
  | O => mret hrm
  | S i' =>
      '(r, hrm) ← HRM_ICP_InitUSB hrm;
      if r =? HRM_OK then mret hrm
      else Sleep 1000;; init_loop i' hrm
  end.

(** The flag check and repair of [main]. *)
Definition fix_icp_flag (hrm : HRM_Data) : result HRM_Data :=
  if negb (icp_flag hrm =? icp_flag_calculated hrm) then
    m ← mem_put (mem hrm) (ICP_FLAG_ADDRESS - MEM_OFFSET)
          (to_uchar (Z.shiftr (icp_flag_calculated hrm) 8));
    m ← mem_put m (ICP_FLAG_ADDRESS - MEM_OFFSET + 1)
          (to_uchar (Z.land (icp_flag_calculated hrm) 0xff));
    OK (set_mem m hrm)
  else OK hrm.

(** From [// ERASE ALL BLOCKS] to the end of [main]. *)
Definition main_flash (hrm : HRM_Data) : prog unit :=
  '(_, hrm) ← HRM_ICP_EraseFlash hrm;
  HRM_CheckError hrm;;
  '(_, hrm) ← HRM_ICP_ProgramFlash hrm;
  HRM_CheckError hrm;;
  HRM_ICP_CloseUSB hrm;;
  exit 0.

(** From the loop that waits for the device to the end of [main]; [hrm0]
    is the content of the automatic variable [hrm] on entry. *)
Definition main_session (hrm0 : HRM_Data) : prog unit :=
  hrm ← init_loop 30 hrm0;
  HRM_CheckError hrm;;
  let hrm := set_verbose_mode 1 hrm in
  '(_, hrm) ← lift_result (HRM_ICP_ReadS19 (e_file E) (e_line0 E) hrm);
  HRM_CheckError hrm;;
  hrm ← lift_result (fix_icp_flag hrm);
  main_flash hrm.

(** [keys] holds [argv[2]] and [argv[3]] when [argc >= 4]. *)
Definition main (keys : option (list ascii * list ascii)) (hrm0 : HRM_Data) : prog unit :=
  match keys with
  | Some (a2, a3) =>
      let key1 := to_uint (strtoul16 a2) in
      let key2 := to_uint (strtoul16 a3) in
      r ← HRM_ClearICPFlag HID_VID HID_PID key1 key2;
      if r =? HRM_ERROR then exit HRM_ERROR else mret ()
  | None => mret ()
  end;;
  main_session hrm0.

End Program.

(** ** S1 records as text

    The field layout of a data record: the marker [S1], two hexadecimal
    digits of byte count, four of address, two per payload byte, two of
    checksum, and a line feed. *)

Definition hex_digit (n : Z) : ascii :=
  ascii_of_N (Z.to_N (if n <? 10 then 48 + n else 55 + n)).
Definition hex2 (b : Z) : list ascii := [hex_digit (b / 16); hex_digit (b mod 16)].
Definition hex4 (a : Z) : list ascii := hex2 (a / 256) ++ hex2 (a mod 256).

Record s1rec : Type := mkRec {
  r_count : Z;
  r_addr : Z;
  r_data : list Z;
  r_crc : Z
}.

Definition render (r : s1rec) : list ascii :=
  "S"%char :: "1"%char ::
    hex2 (r_count r) ++ hex4 (r_addr r) ++ (r_data r ≫= hex2) ++ hex2 (r_crc r) ++ [LF].

Definition render_file (rs : list s1rec) : list ascii := rs ≫= render.

(** A file with other lines between the data records: headers, the S9
    line, anything that does not start with [S1]. *)
Inductive s19_line : Type :=
  | DataRec (r : s1rec)
  | OtherLine (l : list ascii).

Definition render_line (x : s19_line) : list ascii :=
  match x with
  | DataRec r => render r
  | OtherLine l => l ++ [LF]
  end.

Definition render_lines (xs : list s19_line) : list ascii := xs ≫= render_line.

Definition is_byte (b : Z) : Prop := 0 <= b < 256.

(** A character that is a hexadecimal digit. *)
Definition hexchar (c : ascii) : Prop := is_Some (xdigit c).

(** The text of a record without its line feed. *)
Definition render_body (r : s1rec) : list ascii :=
  "S"%char :: "1"%char ::
    hex2 (r_count r) ++ hex4 (r_addr r) ++ (r_data r ≫= hex2) ++ hex2 (r_crc r).

(** The bytes of the checksum window, 0xF600..0xF7FD. *)
Definition window_bytes (m : list Z) : list Z :=
  (fun i => mem_get m (i - MEM_OFFSET)) <$>
    seqZ ICP_CHECKSUM_START (ICP_CHECKSUM_STOP - ICP_CHECKSUM_START + 1).

Definition sum_list (l : list Z) : Z := foldr Z.add 0 l.

(** The running sum of the data loop, from [c]. *)
Definition crc_sum (c : Z) (data : list Z) : Z :=
  foldl (fun c b => to_uchar (c + b)) c data.

(** A data record that says what it holds and fits in one [fgets]. *)
Record wf_rec (r : s1rec) : Prop := mkWf {
  wf_count : r_count r = Z.of_nat (length (r_data r)) + 3;
  wf_fits : (length (render r) < MAX_LINE_LEN)%nat;
  wf_addr : 0 <= r_addr r < 65536;
  wf_data : Forall is_byte (r_data r);
  wf_crc : is_byte (r_crc r)
}.

Definition wf_line (x : s19_line) : Prop :=
  match x with
  | DataRec r => wf_rec r
  | OtherLine l =>
      (LF ∉ l) /\ (length l + 1 < MAX_LINE_LEN)%nat /\
      S19.starts_with (l ++ [LF]) "S" "1" = false
  end.

(** The whole payload of [r] lies in the window. *)
Definition in_window (r : s1rec) : Prop :=
  MEM_OFFSET <= r_addr r /\
  r_addr r + Z.of_nat (length (r_data r)) <= MEM_OFFSET + MEM_SIZE.

(** Image index [k] is one that the payload of [r] is meant for. *)
Definition covers (r : s1rec) (k : nat) : Prop :=
  r_addr r - MEM_OFFSET <= Z.of_nat k < r_addr r - MEM_OFFSET + Z.of_nat (length (r_data r)).

(** *** What the records mean for the image

    The reference the reader is compared with: a record whose address is
    outside the window is dropped, the payload of any other record is
    copied to [address - MEM_OFFSET] onwards, and copying past the end of
    the image is the fault of the first byte that does not fit. *)
Module S19Spec.

Fixpoint write_bytes (m : list Z) (idx : nat) (data : list Z) : list Z :=
  match data with
  | [] => m
  | b :: data' => write_bytes (<[idx := b]> m) (S idx) data'
  end.

Definition apply_rec (m : list Z) (r : s1rec) : result (list Z) :=
  if (r_addr r <? MEM_OFFSET) || (r_addr r >=? MEM_OFFSET + MEM_SIZE) then OK m
  else if r_addr r - MEM_OFFSET + Z.of_nat (length (r_data r)) <=? MEM_SIZE then
    OK (write_bytes m (Z.to_nat (r_addr r - MEM_OFFSET)) (r_data r))
  else Fault (WriteOOB MEM_SIZE).

Fixpoint apply_lines (m : list Z) (xs : list s19_line) : result (list Z) :=
  match xs with
  | [] => OK m
  | DataRec r :: xs' => m' ← apply_rec m r; apply_lines m' xs'
  | OtherLine l :: xs' =>
      if S19.starts_with (l ++ [LF]) "S" "9" then OK m else apply_lines m xs'
  end.

(** The image a list of records gives, from [m]. *)
Definition image (m : list Z) (rs : list s1rec) : list Z :=
  foldl (fun m r => write_bytes m (Z.to_nat (r_addr r - MEM_OFFSET)) (r_data r)) m rs.

(** The same file with other checksum fields. *)
Definition same_but_crc (x y : s19_line) : Prop :=
  match x, y with
  | DataRec r, DataRec r' =>
      r_count r = r_count r' /\ r_addr r = r_addr r' /\ r_data r = r_data r'
  | OtherLine l, OtherLine l' => l = l'
  | _, _ => False
  end.

End S19Spec.

(** ** Reading traces *)

Definition advance (w : world) (controls : nat) (ev : list event) : world :=
  mkWorld (w_opens w) (w_configs w) (controls + w_controls w) (w_trace w ++ ev).

(** What one erase-block operation asks of the device. *)
Definition erase_block_events (h : option nat) (a : Z) : list event :=
  [ EvControl h 0x40 0x82 a (to_uint (a + MEM_BLOCK_SIZE - 1)) [] 0; EvSleep 5;
    EvControl h 0xC0 0x8F 0 0 [] 1; EvSleep 5 ].

(** The test the erase path applies to the reply of its status poll. *)
Definition erase_poll_ok (r : ctl_reply) : bool :=
  (c_status r =? 1) && (to_uchar (c_ret r) =? 1).

(** Start addresses of [n] consecutive blocks of [size] bytes from [i]. *)
Definition block_addrs (size i : Z) (n : nat) : list Z :=
  (fun t => i + size * Z.of_nat t) <$> seq 0 n.

Definition is_erase_transfer (e : event) : bool :=
  match e with
  | EvControl _ 0x40 0x82 _ _ _ _ => true
  | _ => false
  end.

Definition is_program_transfer (e : event) : bool :=
  match e with
  | EvControl _ 0x40 0x81 _ _ _ _ => true
  | _ => false
  end.

Definition is_close (e : event) : bool :=
  match e with
  | EvClose _ => true
  | _ => false
  end.

(** The program transfer for the block at [a]. *)
Definition program_transfer (h : option nat) (m : list Z) (a : Z) : event :=
  EvControl h 0x40 0x81 a (a + MEM_PROG_BLOCK_SIZE - 1) (block_bytes m a) MEM_PROG_BLOCK_SIZE.

(** The program transfers of an image with no failure on the way: one per
    block that [block_valid] accepts, in address order. *)
Definition expected_program_transfers (h : option nat) (m : list Z) : list event :=
  program_transfer h m <$>
    List.filter (block_valid m)
      (block_addrs MEM_PROG_BLOCK_SIZE MEM_OFFSET (Z.to_nat (MEM_SIZE / MEM_PROG_BLOCK_SIZE))).

(** The reply to the status poll of the [t]-th erase-block operation of an
    erase phase entered in world [w]. *)
Definition erase_poll (E : env) (w : world) (t : nat) : ctl_reply :=
  e_control E (S (w_controls w + 2 * t)).

(** The requests of the first [n] erase-block operations. *)
Definition erase_events (h : option nat) (n : nat) : list event :=
  block_addrs MEM_BLOCK_SIZE MEM_OFFSET n ≫= erase_block_events h.

(** The image holds the erased-flash value everywhere. *)
Definition all_ff (m : list Z) : Prop :=
  forall idx, 0 <= idx < MEM_SIZE -> mem_get m idx = 0xff.

(** The image differs from the erased-flash value at [p] and nowhere else. *)
Definition single_non_ff (m : list Z) (p : Z) : Prop :=
  0 <= p < MEM_SIZE /\ mem_get m p <> 0xff /\
  forall idx, 0 <= idx < MEM_SIZE -> idx <> p -> mem_get m idx = 0xff.

(** Start address of the program block that holds image index [p]. *)
Definition block_of (p : Z) : Z := MEM_OFFSET + MEM_PROG_BLOCK_SIZE * (p / MEM_PROG_BLOCK_SIZE).

Definition prog_block_addrs : list Z :=
  block_addrs MEM_PROG_BLOCK_SIZE MEM_OFFSET (Z.to_nat (MEM_SIZE / MEM_PROG_BLOCK_SIZE)).

(** The tests the program path applies to the replies of its two transfers. *)
Definition program_issue_ok (r : ctl_reply) : bool := to_uchar (c_ret r) =? MEM_PROG_BLOCK_SIZE.
Definition program_poll_ok (r : ctl_reply) : bool := to_uchar (c_ret r) =? 1.

(** A device that takes every block and answers every poll, from world [w] on. *)
Definition program_replies_ok (E : env) (w : world) : Prop :=
  forall t : nat,
    program_issue_ok (e_control E (w_controls w + 2 * t)) = true /\
    program_poll_ok (e_control E (S (w_controls w + 2 * t))) = true.

(** The replies to the two transfers of the program operation number [j],
    counted from the world [w] on, pass the tests of the program path:
    operation [j] is reached after [j] complete ones, of two transfers
    each. *)
Definition program_op_ok (E : env) (w : world) (j : nat) : bool :=
  program_issue_ok (e_control E (w_controls w + 2 * j)) &&
  program_poll_ok (e_control E (S (w_controls w + 2 * j))).

Definition status_poll (h : option nat) : event := EvControl h 0xC0 0x8F 0 0 [] 1.

(** The program transfers expected for [n] blocks from [i]. *)
Definition expected_from (hrm : HRM_Data) (i : Z) (n : nat) : list event :=
  program_transfer (usb_dev hrm) (mem hrm) <$>
    List.filter (block_valid (mem hrm)) (block_addrs MEM_PROG_BLOCK_SIZE i n).

(** ** Vocabulary of the further properties *)

(** A line of a file that the reader passes over: a data record for an
    address outside the window, or a line that starts with neither [S1]
    nor [S9]. *)
Definition passed_over (x : s19_line) : Prop :=
  match x with
  | DataRec r => r_addr r < MEM_OFFSET \/ MEM_OFFSET + MEM_SIZE <= r_addr r
  | OtherLine l => S19.starts_with (l ++ [LF]) "S" "9" = false
  end.

(** A line that does not end the reading and writes inside the image. *)
Definition harmless (x : s19_line) : Prop :=
  match x with
  | DataRec r =>
      MEM_OFFSET <= r_addr r < MEM_OFFSET + MEM_SIZE ->
      r_addr r + Z.of_nat (length (r_data r)) <= MEM_OFFSET + MEM_SIZE
  | OtherLine l => True
  end.

Definition not_S9 (x : s19_line) : Prop :=
  match x with
  | DataRec r => True
  | OtherLine l => S19.starts_with (l ++ [LF]) "S" "9" = false
  end.

(** The content of [line] after [fgets] has read the text [l] into it. *)
Definition line_after (l line : list ascii) : list ascii :=
  l ++ NUL :: drop (S (length l)) line.

(** The reference for a list of lines, with the information whether an S9
    line ended the reading. *)
Fixpoint run_lines (m : list Z) (xs : list s19_line) : result (list Z * bool) :=
  match xs with
  | [] => OK (m, false)
  | DataRec r :: xs' => m' ← S19Spec.apply_rec m r; run_lines m' xs'
  | OtherLine l :: xs' =>
      if S19.starts_with (l ++ [LF]) "S" "9" then OK (m, true) else run_lines m xs'
  end.

(** The content of [line] after the lines [xs] have been read one by one. *)
Definition buffer_after (xs : list s19_line) (line : list ascii) : list ascii :=
  foldl (fun ln x => line_after (render_line x) ln) line xs.

(** What a complete program-block operation asks of the device. *)
Definition program_block_events (h : option nat) (m : list Z) (a : Z) : list event :=
  [ program_transfer h m a; EvSleep WAIT_PROGRAMMING; status_poll h; EvSleep WAIT_STATUS ].

(** Events counted in a trace: attempts to open a device, handles
    obtained, waits of one second. *)
Definition is_attempt (e : event) : bool :=
  match e with
  | EvOpen _ _ _ => true
  | _ => false
  end.

Definition is_opened (e : event) : bool :=
  match e with
  | EvOpen _ _ (Some _) => true
  | _ => false
  end.

Definition is_wait (e : event) : bool :=
  match e with
  | EvSleep 1000 => true
  | _ => false
  end.

Definition count (f : event -> bool) (ev : list event) : nat := length (List.filter f ev).

(** The erase transfer for the block at [a]. *)
Definition erase_transfer (h : option nat) (a : Z) : event :=
  EvControl h 0x40 0x82 a (to_uint (a + MEM_BLOCK_SIZE - 1)) [] 0.

(** In the events [ev], every program transfer comes after the erase
    transfers of the 14 blocks of the flash, sent in address order on one
    handle, and after no other erase transfer. *)
Definition erased_before_programmed (ev : list event) : Prop :=
  forall pre e post,
    ev = pre ++ e :: post -> is_program_transfer e = true ->
    exists d,
      List.filter is_erase_transfer pre =
        erase_transfer (Some d) <$> block_addrs MEM_BLOCK_SIZE MEM_OFFSET 14.

(** What a program transfer stores: its bytes, from the offset of its
    address on, in the flash content [f]; other events store nothing. *)
Definition flash_store (f : list Z) (e : event) : list Z :=
  match e with
  | EvControl _ 0x40 0x81 a _ bytes _ =>
      take (Z.to_nat (a - MEM_OFFSET)) f ++ bytes ++
      drop (Z.to_nat (a - MEM_OFFSET) + length bytes) f
  | _ => f
  end.

(** The flash content [f] after the program transfers of [ev]. *)
Definition flash_after (f : list Z) (ev : list event) : list Z := foldl flash_store f ev.

(** The world a run ends in. *)
Definition run_world {A} (r : run A) : world :=
  match r with
  | Ret _ w => w
  | Exit _ w => w
  | Undef _ w => w
  end.

(** How a run of [main] ends and what it has asked of the system by then:
    the exit codes, the handles opened and closed, and the order of the
    flash transfers. *)
Definition run_account (r : run unit) (ev : list event) : Prop :=
  match r with
  | Ret _ _ => False
  | Exit c _ =>
      (c = HRM_ERROR \/ c = 0 \/ c = HRM_USB_OPEN_ERROR \/ c = HRM_USB_CONFIG_ERROR) /\
      count is_opened ev = count is_close ev
      \/ (c = HRM_FILE_OPEN_ERROR \/ c = HRM_FLASH_ERASE_ERROR \/
          c = HRM_FLASH_PROGRAM_ERROR) /\
         count is_opened ev = (count is_close ev + 1)%nat
  | Undef _ _ => count is_opened ev = (count is_close ev + 1)%nat
  end.

(** ** Sample inputs *)

Module Sample.

(** An erased image. *)
Definition blank : list Z := replicate (Z.to_nat MEM_SIZE) 0xff.

(** A session with an open handle and image [m]. *)
Definition session (m : list Z) : HRM_Data := mkHRM 0 0 (Some 1%nat) m 1 0.

(** The automatic variable [hrm] of [main] before anything is stored in it. *)
Definition hrm0 : HRM_Data := mkHRM 0 0 None [] 0 0.

(** Some content for the array [line] before the first [fgets]. *)
Definition line0 : list ascii := replicate MAX_LINE_LEN "?"%char.

(** A bus on which the device is found and configured at once, with the
    given replies to control transfers and the given file. *)
Definition env_with (ctl : nat -> ctl_reply) (file : option (list ascii)) : env :=
  mkEnv (fun _ _ _ => Some 1%nat) (fun _ => 0) ctl file line0 (replicate 8 0).

(** Replies of a device on which nothing fails while erasing. *)
Definition erase_good : nat -> ctl_reply := fun k =>
  if Nat.even k then mkReply 0 0 else mkReply 1 1.

(** The status poll of the second erase-block operation answers 0. *)
Definition erase_second_fails : nat -> ctl_reply := fun k =>
  if Nat.even k then mkReply 0 0 else if (k =? 3)%nat then mkReply 1 0 else mkReply 1 1.

(** Every transfer is refused. *)
Definition refuse_all : nat -> ctl_reply := fun _ => mkReply (-1) 0.

(** The block is taken (64 bytes), the poll arrives (1 byte), and the
    status byte says the device failed. *)
Definition program_status_bad : nat -> ctl_reply := fun k =>
  if Nat.even k then mkReply 64 0 else mkReply 1 0.

(** The erase transfer itself is refused, the poll that follows answers 1. *)
Definition erase_issue_refused : nat -> ctl_reply := fun k =>
  if Nat.even k then mkReply (-1) 0 else mkReply 1 1.

(** Erasing works; the first program transfer is refused. *)
Definition program_refused : nat -> ctl_reply := fun k =>
  if (k <? 28)%nat then erase_good k else mkReply (-1) 0.

(** The first program operation succeeds, the poll of the second answers
    with no byte. *)
Definition second_poll_fails : nat -> ctl_reply := fun k =>
  if Nat.even k then mkReply 64 0 else if (k =? 3)%nat then mkReply 0 0 else mkReply 1 1.

(** Bytes other than 0xFF in the first two program blocks. *)
Definition two_blocks : list Z := <[0%nat := 0x12]> (<[64%nat := 0x34]> blank).

(** The replies of [ctl] with every status byte replaced by [st]. *)
Definition with_status (st : Z) (ctl : nat -> ctl_reply) : nat -> ctl_reply :=
  fun k => mkReply (c_ret (ctl k)) st.

(** One byte other than 0xFF, in the first program block. *)
Definition one_byte : list Z := <[0%nat := 0x12]> blank.

(** Nothing fails: erase transfers return 0, program transfers 64, polls 1
    with status byte 1. *)
Definition all_good : nat -> ctl_reply := fun k =>
  if Nat.even k then (if (k <? 28)%nat then mkReply 0 0 else mkReply 64 0) else mkReply 1 1.

(** The wValue of the program transfers of a trace. *)
Definition programmed_blocks (tr : list event) : list Z :=
  tr ≫= fun e =>
    match e with
    | EvControl _ 0x40 0x81 value _ _ _ => [value]
    | _ => []
    end.

(** A data line cut short after its address: it announces three payload
    bytes and holds none. *)
Definition truncated_line : list ascii :=
  ["S"; "1"; "0"; "6"; "D"; "C"; "0"; "0"]%char ++ [LF].

(** Two records for the same address. *)
Definition overlapping : list s1rec :=
  [mkRec 4 0xDC00 [0x11] 0; mkRec 4 0xDC00 [0x22] 0].

(** Four payload bytes at the start of the window, two at its end. *)
Definition two_records : list s1rec :=
  [mkRec 7 0xDC00 [1; 2; 3; 4] 0x15; mkRec 5 0xF7FE [0x03; 0xFE] 0x0A].

(** A record that starts on the last byte of the window and holds two. *)
Definition past_the_end : s1rec := mkRec 5 0xF7FF [1; 2] 0xF9.

(** Sixteen records of 32 zero bytes over 0xF600..0xF7FF. *)
Definition zero_window_records : list s1rec :=
  (fun k => mkRec 35 (0xF600 + 32 * k) (replicate 32 0) 0) <$> seqZ 0 16.

(** The image these records give. *)
Definition zero_window : list Z :=
  replicate (Z.to_nat (ICP_CHECKSUM_START - MEM_OFFSET)) 0xff ++ replicate 512 0.

(** A bus on which the device shows up at the third attempt to open it. *)
Definition late_device : env :=
  mkEnv (fun k _ _ => if (k <? 2)%nat then None else Some 1%nat) (fun _ => 0)
        all_good None line0 (replicate 8 0).

(** A device on which nothing fails, and a file of one record. *)
Definition good_run : env :=
  env_with all_good (Some (render (mkRec 7 0xDC00 [0x11; 0x22; 0x33; 0x44] 0))).

(** What [main] asks of the system in that run. *)
Definition good_trace : list event :=
  w_trace (run_world (main good_run None hrm0 world0)).

End Sample.

(** * Properties *)

(** Unfolds the sequencing of [prog] and the environment calls. *)
Ltac step_prog :=
  repeat (unfold mbind, prog_bind, mret, prog_ret, usb_control_msg, usb_close,
            usb_set_configuration, HRM_OpenUSB, Sleep, emit, exit, lift_result; cbn).

(** ** Erase phase *)

Section Erase.

Variable E : env.

Lemma advance_advance w c1 ev1 c2 ev2 :
  advance (advance w c1 ev1) c2 ev2 = advance w (c2 + c1) (ev1 ++ ev2).
Proof. unfold advance; cbn. f_equal; [lia | by rewrite app_assoc]. Qed.

Lemma advance_nil w : advance w 0 [] = w.
Proof. destruct w; unfold advance; cbn. by rewrite app_nil_r. Qed.

Lemma EraseFlashBlock_run hrm a w d :
  usb_dev hrm = Some d ->
  HRM_ICP_EraseFlashBlock E hrm a w =
    Ret (if erase_poll_ok (e_control E (S (w_controls w)))
         then (HRM_OK, set_last_errorcode 0 hrm)
         else (HRM_ERROR, set_last_errorcode HRM_FLASH_ERASE_ERROR hrm))
        (advance w 2 (erase_block_events (usb_dev hrm) a)).
Proof.
  intros Hd. unfold HRM_ICP_EraseFlashBlock, erase_poll_ok.
  cbn. rewrite Hd. step_prog.
  unfold advance, erase_block_events; cbn.
  rewrite <- !app_assoc; cbn.
  destruct (c_status _ =? 1), (to_uchar _ =? 1); cbn; reflexivity.
Qed.

Lemma set_last_errorcode_same hrm e : last_errorcode hrm = e -> set_last_errorcode e hrm = hrm.
Proof. destruct hrm; cbn; intros ->; reflexivity. Qed.

Lemma block_addrs_S size i n :
  block_addrs size i (S n) = i :: block_addrs size (i + size) n.
Proof.
  unfold block_addrs. cbn [seq fmap list_fmap]. f_equal; [lia |].
  rewrite <- seq_shift, <- list_fmap_compose.
  apply list_fmap_ext; intros ? t ?; cbn; lia.
Qed.

Lemma erase_loop_unfold fuel i hrm :
  (i <? MEM_OFFSET + MEM_SIZE) = true ->
  erase_loop E (S fuel) i hrm =
    ('(r, hrm) ← HRM_ICP_EraseFlashBlock E hrm i;
     if r =? HRM_ERROR then
       mret (HRM_ERROR, set_last_errorcode HRM_FLASH_ERASE_ERROR hrm)
     else erase_loop E fuel (i + MEM_BLOCK_SIZE) hrm).
Proof. intros H. cbn [erase_loop]. rewrite H. reflexivity. Qed.

Lemma erase_loop_ok n : forall fuel i hrm w d,
  usb_dev hrm = Some d -> last_errorcode hrm = 0 ->
  i + MEM_BLOCK_SIZE * Z.of_nat n = MEM_OFFSET + MEM_SIZE -> (n <= fuel)%nat ->
  (forall t, (t < n)%nat -> erase_poll_ok (erase_poll E w t) = true) ->
  erase_loop E fuel i hrm w =
    Ret (HRM_OK, hrm)
        (advance w (2 * n) (block_addrs MEM_BLOCK_SIZE i n ≫= erase_block_events (usb_dev hrm))).
Proof.
  induction n as [|n IH]; intros fuel i hrm w d Hd He Hi Hf Hok.
  - assert ((i <? MEM_OFFSET + MEM_SIZE) = false) as Hc by (apply Z.ltb_ge; lia).
    destruct fuel; cbn [erase_loop]; rewrite Hc; step_prog; by rewrite advance_nil.
  - destruct fuel as [|fuel]; [lia |].
    rewrite erase_loop_unfold by (apply Z.ltb_lt; unfold MEM_BLOCK_SIZE in *; lia).
    unfold mbind, prog_bind. rewrite (EraseFlashBlock_run _ _ _ d Hd).
    pose proof (Hok 0%nat ltac:(lia)) as H0. unfold erase_poll in H0.
    rewrite Nat.add_0_r in H0. rewrite H0. cbn [Z.eqb HRM_OK HRM_ERROR].
    rewrite (set_last_errorcode_same hrm 0 He).
    rewrite (IH fuel _ hrm _ d Hd He); [| lia | lia |].
    + rewrite advance_advance, block_addrs_S. cbn [mbind list_bind].
      f_equal. f_equal. lia.
    + intros t Ht. specialize (Hok (S t) ltac:(lia)). unfold erase_poll in *.
      cbn [advance w_controls]. rewrite <- Hok. do 2 f_equal. lia.
Qed.

Lemma erase_loop_fail k : forall n fuel i hrm w d,
  usb_dev hrm = Some d -> last_errorcode hrm = 0 ->
  i + MEM_BLOCK_SIZE * Z.of_nat n = MEM_OFFSET + MEM_SIZE -> (n <= fuel)%nat ->
  (k < n)%nat ->
  (forall t, (t < k)%nat -> erase_poll_ok (erase_poll E w t) = true) ->
  erase_poll_ok (erase_poll E w k) = false ->
  erase_loop E fuel i hrm w =
    Ret (HRM_ERROR, set_last_errorcode HRM_FLASH_ERASE_ERROR hrm)
        (advance w (2 * S k)
           (block_addrs MEM_BLOCK_SIZE i (S k) ≫= erase_block_events (usb_dev hrm))).
Proof.
  induction k as [|k IH]; intros n fuel i hrm w d Hd He Hi Hf Hk Hok Hbad;
    (destruct n as [|n]; [lia |]); (destruct fuel as [|fuel]; [lia |]);
    rewrite erase_loop_unfold by (apply Z.ltb_lt; unfold MEM_BLOCK_SIZE in *; lia);
    unfold mbind, prog_bind; rewrite (EraseFlashBlock_run _ _ _ d Hd).
  - unfold erase_poll in Hbad. rewrite Nat.add_0_r in Hbad. rewrite Hbad.
    rewrite block_addrs_S. cbn [block_addrs seq fmap list_fmap mbind list_bind].
    rewrite app_nil_r. reflexivity.
  - pose proof (Hok 0%nat ltac:(lia)) as H0. unfold erase_poll in H0.
    rewrite Nat.add_0_r in H0. rewrite H0. cbn [Z.eqb HRM_OK HRM_ERROR].
    rewrite (set_last_errorcode_same hrm 0 He).
    rewrite (IH n fuel _ hrm _ d Hd He); [| lia | lia | lia | |].
    + rewrite advance_advance, (block_addrs_S _ i (S k)). cbn [mbind list_bind].
      f_equal. f_equal. lia.
    + intros t Ht. specialize (Hok (S t) ltac:(lia)). unfold erase_poll in *.
      cbn [advance w_controls]. rewrite <- Hok. do 2 f_equal. lia.
    + unfold erase_poll in *. cbn [advance w_controls]. rewrite <- Hbad.
      do 2 f_equal. lia.
Qed.

Lemma erase_events_no_program h n :
  List.filter is_program_transfer (erase_events h n) = [].
Proof.
  unfold erase_events. induction (block_addrs MEM_BLOCK_SIZE MEM_OFFSET n) as [|a l IH];
    [reflexivity | exact IH].
Qed.

Lemma erase_events_no_close h n :
  List.filter is_close (erase_events h n) = [].
Proof.
  unfold erase_events. induction (block_addrs MEM_BLOCK_SIZE MEM_OFFSET n) as [|a l IH];
    [reflexivity | exact IH].
Qed.

Lemma EraseFlash_fail hrm w d k :
  usb_dev hrm = Some d -> (k < 14)%nat ->
  (forall t, (t < k)%nat -> erase_poll_ok (erase_poll E w t) = true) ->
  erase_poll_ok (erase_poll E w k) = false ->
  HRM_ICP_EraseFlash E hrm w =
    Ret (HRM_ERROR, set_last_errorcode HRM_FLASH_ERASE_ERROR hrm)
        (advance w (2 * S k) (erase_events (Some d) (S k))).
Proof.
  intros Hd Hk Hok Hbad. unfold HRM_ICP_EraseFlash, erase_events.
  rewrite (erase_loop_fail k 14 _ _ (set_last_errorcode 0 hrm) w d); auto.
  - cbn [set_last_errorcode usb_dev]. by rewrite Hd.
  - unfold MEM_SIZE; lia.
Qed.

Lemma EraseFlash_ok hrm w d :
  usb_dev hrm = Some d ->
  (forall t, (t < 14)%nat -> erase_poll_ok (erase_poll E w t) = true) ->
  HRM_ICP_EraseFlash E hrm w =
    Ret (HRM_OK, set_last_errorcode 0 hrm) (advance w 28 (erase_events (Some d) 14)).
Proof.
  intros Hd Hok. unfold HRM_ICP_EraseFlash, erase_events.
  rewrite (erase_loop_ok 14 _ _ (set_last_errorcode 0 hrm) w d); auto.
  - cbn [set_last_errorcode usb_dev]. by rewrite Hd.
  - unfold MEM_SIZE; lia.
Qed.

(** C6. An erase phase in which the erase-block operation number [k] is the
    first to fail stops there: [HRM_ICP_EraseFlash] returns [HRM_ERROR]
    after the requests of blocks 0..k only, and the rest of [main] leaves
    through [exit(HRM_FLASH_ERASE_ERROR)] with nothing more asked of the
    device, so no program transfer is ever issued.  A polled status byte
    other than 1 is such a failure.  When no operation fails the phase
    issues exactly 14 erase transfers, for the blocks at 0xDC00, 0xDE00,
    ..., 0xF600, the last one ending at 0xF7FF. *)
Theorem C6_erase_phase_aborts_on_first_failure hrm w d :
  usb_dev hrm = Some d ->
  (forall k, (k < 14)%nat ->
     (forall t, (t < k)%nat -> erase_poll_ok (erase_poll E w t) = true) ->
     c_status (erase_poll E w k) <> 1 \/ to_uchar (c_ret (erase_poll E w k)) <> 1 ->
     HRM_ICP_EraseFlash E hrm w =
       Ret (HRM_ERROR, set_last_errorcode HRM_FLASH_ERASE_ERROR hrm)
           (advance w (2 * S k) (erase_events (Some d) (S k)))
     /\ main_flash E hrm w =
          Exit HRM_FLASH_ERASE_ERROR (advance w (2 * S k) (erase_events (Some d) (S k)))
     /\ length (List.filter is_erase_transfer (erase_events (Some d) (S k))) = S k
     /\ List.filter is_program_transfer (erase_events (Some d) (S k)) = [])
  /\ ((forall t, (t < 14)%nat -> erase_poll_ok (erase_poll E w t) = true) ->
      HRM_ICP_EraseFlash E hrm w =
        Ret (HRM_OK, set_last_errorcode 0 hrm) (advance w 28 (erase_events (Some d) 14))
      /\ List.filter is_erase_transfer (erase_events (Some d) 14) =
           (fun a => EvControl (Some d) 0x40 0x82 a (a + 511) [] 0) <$>
             [0xDC00; 0xDE00; 0xE000; 0xE200; 0xE400; 0xE600; 0xE800;
              0xEA00; 0xEC00; 0xEE00; 0xF000; 0xF200; 0xF400; 0xF600]).
Proof.
  intros Hd. split.
  - intros k Hk Hok Hbad.
    assert (erase_poll_ok (erase_poll E w k) = false) as Hbad'.
    { unfold erase_poll_ok. apply andb_false_iff.
      destruct Hbad as [H | H]; [left | right]; by apply Z.eqb_neq. }
    pose proof (EraseFlash_fail hrm w d k Hd Hk Hok Hbad') as Hrun.
    split; [exact Hrun |]. split; [| split].
    + unfold main_flash, mbind, prog_bind. rewrite Hrun. reflexivity.
    + clear. unfold erase_events.
      assert (forall l, length (List.filter is_erase_transfer
                (l ≫= erase_block_events (Some d))) = length l) as Hl.
      { induction l as [|a l IH]; [reflexivity |]. cbn. by rewrite <- IH. }
      rewrite Hl. unfold block_addrs. by rewrite length_fmap, length_seq.
    + apply erase_events_no_program.
  - intros Hok. split; [by apply EraseFlash_ok | reflexivity].
Qed.

End Erase.

(** ** Program phase *)

Section ProgramPhase.

Variable E : env.

Lemma program_block_run hrm i w :
  program_block E hrm i w =
    if block_valid (mem hrm) i then
      if program_issue_ok (e_control E (w_controls w)) then
        if program_poll_ok (e_control E (S (w_controls w))) then
          Ret (None, hrm)
              (advance w 2 [program_transfer (usb_dev hrm) (mem hrm) i; EvSleep WAIT_PROGRAMMING;
                            status_poll (usb_dev hrm); EvSleep WAIT_STATUS])
        else
          Ret (Some HRM_ERROR, set_last_errorcode HRM_FLASH_PROGRAM_ERROR hrm)
              (advance w 2 [program_transfer (usb_dev hrm) (mem hrm) i; EvSleep WAIT_PROGRAMMING;
                            status_poll (usb_dev hrm)])
      else
        Ret (Some HRM_ERROR, set_last_errorcode HRM_FLASH_PROGRAM_ERROR hrm)
            (advance w 1 [program_transfer (usb_dev hrm) (mem hrm) i])
    else Ret (None, hrm) w.
Proof.
  unfold program_block, program_issue_ok, program_poll_ok.
  destruct (block_valid (mem hrm) i); [| reflexivity].
  step_prog.
  destruct (to_uchar (c_ret (e_control E (w_controls w))) =? MEM_PROG_BLOCK_SIZE); cbn;
    [| reflexivity].
  step_prog. unfold advance; cbn. rewrite <- !app_assoc; cbn.
  destruct (to_uchar (c_ret (e_control E (S (w_controls w)))) =? 1); cbn;
    rewrite <- ?app_assoc; reflexivity.
Qed.

Lemma program_loop_unfold fuel i hrm :
  (i <? MEM_OFFSET + MEM_SIZE) = true ->
  program_loop E (S fuel) i hrm =
    ('(r, hrm) ← program_block E hrm i;
     match r with
     | Some code => mret (code, hrm)
     | None => program_loop E fuel (i + MEM_PROG_BLOCK_SIZE) hrm
     end).
Proof. intros H. cbn [program_loop]. rewrite H. reflexivity. Qed.

Lemma program_loop_spec n : forall fuel i hrm w,
  i + MEM_PROG_BLOCK_SIZE * Z.of_nat n = MEM_OFFSET + MEM_SIZE -> (n <= fuel)%nat ->
  exists r e w' ev,
    program_loop E fuel i hrm w = Ret (r, set_last_errorcode e hrm) w' /\
    w_trace w' = w_trace w ++ ev /\
    (r = HRM_OK /\ e = last_errorcode hrm /\
       List.filter is_program_transfer ev = expected_from hrm i n
     \/ r = HRM_ERROR /\ e = HRM_FLASH_PROGRAM_ERROR /\
        exists k, (1 <= k <= length (expected_from hrm i n))%nat /\
                  List.filter is_program_transfer ev = take k (expected_from hrm i n)) /\
    (program_replies_ok E w -> r = HRM_OK) /\
    List.filter is_close ev = [].
Proof.
  induction n as [|n IH]; intros fuel i hrm w Hi Hf.
  - assert ((i <? MEM_OFFSET + MEM_SIZE) = false) as Hc by (apply Z.ltb_ge; lia).
    exists HRM_OK, (last_errorcode hrm), w, [].
    rewrite set_last_errorcode_same by reflexivity.
    split; [destruct fuel; cbn [program_loop]; rewrite Hc; reflexivity |].
    split; [by rewrite app_nil_r |]. split; [left; repeat split; reflexivity |].
    split; reflexivity.
  - destruct fuel as [|fuel]; [lia |].
    assert (i + MEM_PROG_BLOCK_SIZE + MEM_PROG_BLOCK_SIZE * Z.of_nat n = MEM_OFFSET + MEM_SIZE)
      as Hi' by (unfold MEM_PROG_BLOCK_SIZE in *; lia).
    rewrite program_loop_unfold by (apply Z.ltb_lt; unfold MEM_PROG_BLOCK_SIZE in *; lia).
    unfold mbind, prog_bind. rewrite program_block_run.
    unfold expected_from. rewrite block_addrs_S. cbn [List.filter].
    fold (expected_from hrm (i + MEM_PROG_BLOCK_SIZE) n).
    destruct (block_valid (mem hrm) i) eqn:Hv.
    + destruct (program_issue_ok (e_control E (w_controls w))) eqn:H1.
      * destruct (program_poll_ok (e_control E (S (w_controls w)))) eqn:H2.
        -- match goal with |- context [advance w 2 ?l] => set (ev0 := l) end.
           destruct (IH fuel (i + MEM_PROG_BLOCK_SIZE) hrm (advance w 2 ev0) Hi' ltac:(lia))
             as (r & e & w' & ev & Hrun & Htr & Hsp & Hgood & Hcl).
           exists r, e, w', (ev0 ++ ev). split; [exact Hrun |].
           split; [rewrite Htr; cbn [advance w_trace]; by rewrite app_assoc |].
           split; [| split; [| exact Hcl]].
           ++ cbn [fmap list_fmap].
              change (List.filter is_program_transfer (ev0 ++ ev))
                with (program_transfer (usb_dev hrm) (mem hrm) i
                        :: List.filter is_program_transfer ev).
              destruct Hsp as [(-> & -> & ->) | (-> & -> & k & Hk & ->)].
              ** left; repeat split; reflexivity.
              ** right. split; [reflexivity |]. split; [reflexivity |].
                 exists (S k). split; [cbn [length]; unfold expected_from in *; lia | reflexivity].
           ++ intros Hg. apply Hgood. intros t. destruct (Hg (S t)) as [Ha Hb].
              cbn [advance w_controls].
              replace (2 + w_controls w + 2 * t)%nat with (w_controls w + 2 * S t)%nat by lia.
              split; assumption.
        -- eexists HRM_ERROR, HRM_FLASH_PROGRAM_ERROR, _, _.
           split; [reflexivity |]. split; [reflexivity |]. split; [| split; [| reflexivity]].
           ++ right. split; [reflexivity |]. split; [reflexivity |].
              exists 1%nat. cbn [fmap list_fmap length]. split; [lia |].
              cbn. by rewrite take_0.
           ++ intros Hg. destruct (Hg 0%nat) as [_ Hb]. rewrite Nat.add_0_r in Hb. congruence.
      * eexists HRM_ERROR, HRM_FLASH_PROGRAM_ERROR, _, _.
        split; [reflexivity |]. split; [reflexivity |]. split; [| split; [| reflexivity]].
        ++ right. split; [reflexivity |]. split; [reflexivity |].
           exists 1%nat. cbn [fmap list_fmap length]. split; [lia |].
           cbn. by rewrite take_0.
        ++ intros Hg. destruct (Hg 0%nat) as [Ha _]. rewrite Nat.add_0_r in Ha. congruence.
    + destruct (IH fuel (i + MEM_PROG_BLOCK_SIZE) hrm w Hi' ltac:(lia))
        as (r & e & w' & ev & Hrun & Htr & Hsp & Hgood & Hcl).
      exists r, e, w', ev. auto.
Qed.

Lemma block_valid_spec m a :
  block_valid m a = true <->
  exists j, 0 <= j < MEM_PROG_BLOCK_SIZE /\ mem_get m (a - MEM_OFFSET + j) <> 0xff.
Proof.
  unfold block_valid. rewrite existsb_exists. split.
  - intros (j & Hin & Hj). exists j. apply list_elem_of_In, elem_of_seqZ in Hin.
    split; [lia |]. by apply Z.eqb_neq, negb_true_iff.
  - intros (j & Hr & Hj). exists j. split.
    + apply list_elem_of_In, elem_of_seqZ. lia.
    + by apply negb_true_iff, Z.eqb_neq.
Qed.

Lemma in_block_addrs size i n a :
  In a (block_addrs size i n) <-> exists t, (t < n)%nat /\ a = i + size * Z.of_nat t.
Proof.
  unfold block_addrs. rewrite <- list_elem_of_In, list_elem_of_fmap. split.
  - intros (t & -> & Ht). apply elem_of_seq in Ht. exists t. split; [lia | reflexivity].
  - intros (t & Ht & ->). exists t. split; [reflexivity |]. apply elem_of_seq. lia.
Qed.

Lemma filter_none {A} (f : A -> bool) l :
  (forall x, In x l -> f x = false) -> List.filter f l = [].
Proof.
  induction l as [|x l IH]; intros H; [reflexivity |].
  cbn. rewrite (H x) by (left; reflexivity). apply IH. intros; apply H; by right.
Qed.

Lemma filter_unique {A} (f : A -> bool) l x :
  List.NoDup l -> In x l -> (forall y, In y l -> f y = true <-> y = x) ->
  List.filter f l = [x].
Proof.
  induction 1 as [|y l Hy Hnd IH]; intros Hin Hf; [destruct Hin |].
  cbn. destruct Hin as [-> | Hin].
  - rewrite (proj2 (Hf x (or_introl eq_refl)) eq_refl). f_equal.
    apply filter_none. intros z Hz. destruct (f z) eqn:Hfz; [| reflexivity].
    apply Hf in Hfz; [| by right]. subst. contradiction.
  - destruct (f y) eqn:Hfy.
    + apply Hf in Hfy; [| by left]. subst. contradiction.
    + apply IH; [assumption |]. intros z Hz. apply Hf. by right.
Qed.

Lemma NoDup_block_addrs size i n : size <> 0 -> List.NoDup (block_addrs size i n).
Proof.
  intros Hs. apply NoDup_ListNoDup. unfold block_addrs. apply NoDup_fmap_2.
  - intros a b Hab. nia.
  - apply NoDup_seq.
Qed.

Lemma all_ff_no_valid_block m :
  all_ff m -> List.filter (block_valid m) prog_block_addrs = [].
Proof.
  intros Hff. apply filter_none. intros a Ha.
  apply in_block_addrs in Ha as (t & Ht & ->).
  change (Z.to_nat (MEM_SIZE / MEM_PROG_BLOCK_SIZE)) with 112%nat in Ht.
  destruct (block_valid m _) eqn:Hv; [| reflexivity].
  apply block_valid_spec in Hv as (j & Hj & Hne). exfalso. apply Hne, Hff.
  unfold MEM_PROG_BLOCK_SIZE, MEM_SIZE in *. lia.
Qed.

Lemma single_non_ff_one_valid_block m p :
  single_non_ff m p -> List.filter (block_valid m) prog_block_addrs = [block_of p].
Proof.
  intros (Hp & Hne & Hother).
  assert (0 <= p / 64 < 112) as Hq.
  { unfold MEM_SIZE in Hp. split; [apply Z.div_pos; lia | apply Z.div_lt_upper_bound; lia]. }
  apply filter_unique.
  - apply NoDup_block_addrs. discriminate.
  - apply in_block_addrs. exists (Z.to_nat (p / 64)).
    change (Z.to_nat (MEM_SIZE / MEM_PROG_BLOCK_SIZE)) with 112%nat.
    unfold block_of, MEM_PROG_BLOCK_SIZE.
    split; [lia | f_equal; lia].
  - intros a Ha. apply in_block_addrs in Ha as (t & Ht & ->).
    change (Z.to_nat (MEM_SIZE / MEM_PROG_BLOCK_SIZE)) with 112%nat in Ht.
    rewrite block_valid_spec. unfold block_of, MEM_PROG_BLOCK_SIZE, MEM_SIZE in *.
    split.
    + intros (j & Hj & Hj').
      destruct (decide (64 * Z.of_nat t + j = p)) as [<- | Hd].
      * f_equal. f_equal. apply (Z.div_unique _ _ _ j); lia.
      * exfalso. apply Hj'. replace (MEM_OFFSET + 64 * Z.of_nat t - MEM_OFFSET + j)
          with (64 * Z.of_nat t + j) by lia. apply Hother; lia.
    + intros Heq. assert (Z.of_nat t = p / 64) as Ht' by lia.
      exists (p mod 64). split; [apply Z.mod_pos_bound; lia |].
      replace (MEM_OFFSET + 64 * Z.of_nat t - MEM_OFFSET + p mod 64) with p; [assumption |].
      rewrite Ht'. pose proof (Z.div_mod p 64 ltac:(lia)). lia.
Qed.

Lemma expected_from_all hrm :
  expected_from (set_last_errorcode 0 hrm) MEM_OFFSET 112 =
  expected_program_transfers (usb_dev hrm) (mem hrm).
Proof.
  unfold expected_from, expected_program_transfers.
  change (Z.to_nat (MEM_SIZE / MEM_PROG_BLOCK_SIZE)) with 112%nat. reflexivity.
Qed.

Lemma expected_all_ff h m : all_ff m -> expected_program_transfers h m = [].
Proof.
  intros Hff. unfold expected_program_transfers. fold prog_block_addrs.
  by rewrite (all_ff_no_valid_block _ Hff).
Qed.

Lemma expected_single_non_ff h m p :
  single_non_ff m p ->
  expected_program_transfers h m = [program_transfer h m (block_of p)].
Proof.
  intros Hp. unfold expected_program_transfers. fold prog_block_addrs.
  by rewrite (single_non_ff_one_valid_block _ _ Hp).
Qed.

Lemma fuel_program : (112 <= Z.to_nat MEM_SIZE)%nat.
Proof. unfold MEM_SIZE. lia. Qed.

Lemma ProgramFlash_spec hrm w :
  exists r e w' ev,
    HRM_ICP_ProgramFlash E hrm w = Ret (r, set_last_errorcode e hrm) w' /\
    w_trace w' = w_trace w ++ ev /\
    (r = HRM_OK /\ e = 0 /\
       List.filter is_program_transfer ev = expected_program_transfers (usb_dev hrm) (mem hrm)
     \/ r = HRM_ERROR /\ e = HRM_FLASH_PROGRAM_ERROR /\
        exists k, (1 <= k <= length (expected_program_transfers (usb_dev hrm) (mem hrm)))%nat /\
          List.filter is_program_transfer ev =
            take k (expected_program_transfers (usb_dev hrm) (mem hrm))) /\
    (program_replies_ok E w -> r = HRM_OK) /\
    List.filter is_close ev = [].
Proof.
  assert (MEM_OFFSET + MEM_PROG_BLOCK_SIZE * Z.of_nat 112 = MEM_OFFSET + MEM_SIZE) as Hi
    by reflexivity.
  destruct (program_loop_spec 112 (Z.to_nat MEM_SIZE) MEM_OFFSET
              (set_last_errorcode 0 hrm) w Hi fuel_program)
    as (r & e & w' & ev & Hrun & Htr & Hsp & Hgood & Hcl).
  rewrite expected_from_all in Hsp.
  exists r, e, w', ev. auto.
Qed.

Lemma expected_program_transfers_in h m a :
  In a prog_block_addrs ->
  In (program_transfer h m a) (expected_program_transfers h m) <->
  exists j, 0 <= j < MEM_PROG_BLOCK_SIZE /\ mem_get m (a - MEM_OFFSET + j) <> 0xff.
Proof.
  intros Ha. unfold expected_program_transfers. fold prog_block_addrs.
  rewrite <- block_valid_spec, <- list_elem_of_In, list_elem_of_fmap. split.
  - intros (b & Hb & Hin). apply list_elem_of_In, filter_In in Hin as [_ Hv].
    injection Hb as -> _ _. exact Hv.
  - intros Hv. exists a. split; [reflexivity |]. apply list_elem_of_In, filter_In. by split.
Qed.

Lemma program_op_ok_0 w :
  program_op_ok E w 0 =
    program_issue_ok (e_control E (w_controls w)) &&
    program_poll_ok (e_control E (S (w_controls w))).
Proof. unfold program_op_ok. by rewrite Nat.mul_0_r, Nat.add_0_r. Qed.

Lemma program_op_ok_advance w ev j :
  program_op_ok E (advance w 2 ev) j = program_op_ok E w (S j).
Proof.
  unfold program_op_ok. cbn [advance w_controls].
  replace (2 + w_controls w + 2 * j)%nat with (w_controls w + 2 * S j)%nat by lia.
  reflexivity.
Qed.

(** The outcome of the program loop read off the replies of the device:
    the first operation whose replies do not pass the tests ends it. *)
Lemma program_loop_replies n : forall fuel i hrm w,
  i + MEM_PROG_BLOCK_SIZE * Z.of_nat n = MEM_OFFSET + MEM_SIZE -> (n <= fuel)%nat ->
  exists r e w' ev,
    program_loop E fuel i hrm w = Ret (r, set_last_errorcode e hrm) w' /\
    w_trace w' = w_trace w ++ ev /\
    ((forall j, (j < length (expected_from hrm i n))%nat -> program_op_ok E w j = true) ->
       r = HRM_OK /\ e = last_errorcode hrm /\
       List.filter is_program_transfer ev = expected_from hrm i n) /\
    (forall k, (k < length (expected_from hrm i n))%nat ->
       (forall j, (j < k)%nat -> program_op_ok E w j = true) ->
       program_op_ok E w k = false ->
       r = HRM_ERROR /\ e = HRM_FLASH_PROGRAM_ERROR /\
       List.filter is_program_transfer ev = take (S k) (expected_from hrm i n)).
Proof.
  induction n as [|n IH]; intros fuel i hrm w Hi Hf.
  - assert ((i <? MEM_OFFSET + MEM_SIZE) = false) as Hc by (apply Z.ltb_ge; lia).
    exists HRM_OK, (last_errorcode hrm), w, [].
    rewrite set_last_errorcode_same by reflexivity.
    split; [destruct fuel; cbn [program_loop]; rewrite Hc; reflexivity |].
    split; [by rewrite app_nil_r |]. split; [auto |].
    intros k Hk. cbn in Hk. lia.
  - destruct fuel as [|fuel]; [lia |].
    assert (i + MEM_PROG_BLOCK_SIZE + MEM_PROG_BLOCK_SIZE * Z.of_nat n = MEM_OFFSET + MEM_SIZE)
      as Hi' by (unfold MEM_PROG_BLOCK_SIZE in *; lia).
    rewrite program_loop_unfold by (apply Z.ltb_lt; unfold MEM_PROG_BLOCK_SIZE in *; lia).
    unfold mbind at 1, prog_bind at 1. rewrite program_block_run.
    unfold expected_from. rewrite block_addrs_S. cbn [List.filter].
    destruct (block_valid (mem hrm) i) eqn:Hv.
    + cbn [fmap list_fmap length].
      fold (expected_from hrm (i + MEM_PROG_BLOCK_SIZE) n).
      assert (forall ev x, is_program_transfer x = false ->
                List.filter is_program_transfer (x :: ev) =
                  List.filter is_program_transfer ev) as Hskip
        by (intros ev x Hx; cbn; by rewrite Hx).
      destruct (program_issue_ok (e_control E (w_controls w))) eqn:H1.
      * destruct (program_poll_ok (e_control E (S (w_controls w)))) eqn:H2.
        -- set (ev1 := [program_transfer (usb_dev hrm) (mem hrm) i; EvSleep WAIT_PROGRAMMING;
                        status_poll (usb_dev hrm); EvSleep WAIT_STATUS]).
           destruct (IH fuel (i + MEM_PROG_BLOCK_SIZE) hrm (advance w 2 ev1) Hi' ltac:(lia))
             as (r & e & w' & ev & Hrun & Htr & Hall & Hfirst).
           exists r, e, w', (ev1 ++ ev). split; [exact Hrun |].
           split; [rewrite Htr; cbn [advance w_trace]; by rewrite <- app_assoc |].
           assert (List.filter is_program_transfer (ev1 ++ ev) =
                     program_transfer (usb_dev hrm) (mem hrm) i ::
                       List.filter is_program_transfer ev) as Hf1 by reflexivity.
           split.
           ++ intros Hok.
              destruct Hall as (-> & -> & Hev).
              { intros j Hj. rewrite program_op_ok_advance. apply Hok. lia. }
              split; [reflexivity |]. split; [reflexivity |]. by rewrite Hf1, Hev.
           ++ intros k Hk Hok Hbad. destruct k as [|k].
              { rewrite program_op_ok_0, H1, H2 in Hbad. discriminate Hbad. }
              destruct (Hfirst k) as (-> & -> & Hev).
              { lia. }
              { intros j Hj. rewrite program_op_ok_advance. apply Hok. lia. }
              { by rewrite program_op_ok_advance. }
              split; [reflexivity |]. split; [reflexivity |]. by rewrite Hf1, Hev.
        -- eexists HRM_ERROR, HRM_FLASH_PROGRAM_ERROR, _, _.
           split; [reflexivity |]. split; [reflexivity |]. split.
           ++ intros Hok. specialize (Hok 0%nat ltac:(lia)).
              rewrite program_op_ok_0, H1, H2 in Hok. discriminate Hok.
           ++ intros k Hk Hok Hbad. destruct k as [|k].
              ** split; [reflexivity |]. split; [reflexivity |]. cbn. by rewrite take_0.
              ** specialize (Hok 0%nat ltac:(lia)).
                 rewrite program_op_ok_0, H1, H2 in Hok. discriminate Hok.
      * eexists HRM_ERROR, HRM_FLASH_PROGRAM_ERROR, _, _.
        split; [reflexivity |]. split; [reflexivity |]. split.
        -- intros Hok. specialize (Hok 0%nat ltac:(lia)).
           rewrite program_op_ok_0, H1 in Hok. discriminate Hok.
        -- intros k Hk Hok Hbad. destruct k as [|k].
           ++ split; [reflexivity |]. split; [reflexivity |]. cbn. by rewrite take_0.
           ++ specialize (Hok 0%nat ltac:(lia)).
              rewrite program_op_ok_0, H1 in Hok. discriminate Hok.
    + fold (expected_from hrm (i + MEM_PROG_BLOCK_SIZE) n). apply IH; [exact Hi' | lia].
Qed.

Lemma ProgramFlash_replies hrm w :
  exists r e w' ev,
    HRM_ICP_ProgramFlash E hrm w = Ret (r, set_last_errorcode e hrm) w' /\
    w_trace w' = w_trace w ++ ev /\
    ((forall j, (j < length (expected_program_transfers (usb_dev hrm) (mem hrm)))%nat ->
                program_op_ok E w j = true) ->
       r = HRM_OK /\ e = 0 /\
       List.filter is_program_transfer ev =
         expected_program_transfers (usb_dev hrm) (mem hrm)) /\
    (forall k, (k < length (expected_program_transfers (usb_dev hrm) (mem hrm)))%nat ->
       (forall j, (j < k)%nat -> program_op_ok E w j = true) ->
       program_op_ok E w k = false ->
       r = HRM_ERROR /\ e = HRM_FLASH_PROGRAM_ERROR /\
       List.filter is_program_transfer ev =
         take (S k) (expected_program_transfers (usb_dev hrm) (mem hrm))).
Proof.
  assert (MEM_OFFSET + MEM_PROG_BLOCK_SIZE * Z.of_nat 112 = MEM_OFFSET + MEM_SIZE) as Hi
    by reflexivity.
  destruct (program_loop_replies 112 (Z.to_nat MEM_SIZE) MEM_OFFSET
              (set_last_errorcode 0 hrm) w Hi fuel_program)
    as (r & e & w' & ev & Hrun & Htr & Hall & Hfirst).
  rewrite expected_from_all in Hall, Hfirst.
  exists r, e, w', ev. auto.
Qed.

(** C5 (as amended). The program phase always returns, leaving the image
    and the handle as they were.  The program transfers it issues are, in
    address order, those of the blocks that hold a byte other than 0xFF:
    all of them when it returns [HRM_OK], and when it returns [HRM_ERROR]
    the first [k >= 1] of them, the last one being the operation that
    failed.  The replies of the device decide which: the phase returns
    [HRM_OK] after all the transfers when the replies to every operation
    pass the tests of the program path (64 for the block, 1 for the poll);
    and when operation number [k] is the first whose replies do not, it
    returns [HRM_ERROR] with the flash-program error code after the
    transfers of the first [k+1] such blocks, and the blocks after that one
    get none.  Whatever the device answers, an image that is entirely 0xFF
    gives no program transfer, and an image with exactly one byte other
    than 0xFF gives exactly one, for the 64-byte block that holds this byte
    and carrying that block. *)
Theorem C5_program_transfers_follow_non_blank_blocks hrm w :
  exists r e w' ev,
    HRM_ICP_ProgramFlash E hrm w = Ret (r, set_last_errorcode e hrm) w' /\
    w_trace w' = w_trace w ++ ev /\
    (r = HRM_OK /\ e = 0 /\
       List.filter is_program_transfer ev = expected_program_transfers (usb_dev hrm) (mem hrm)
     \/ r = HRM_ERROR /\ e = HRM_FLASH_PROGRAM_ERROR /\
        exists k, (1 <= k <= length (expected_program_transfers (usb_dev hrm) (mem hrm)))%nat /\
          List.filter is_program_transfer ev =
            take k (expected_program_transfers (usb_dev hrm) (mem hrm))) /\
    (program_replies_ok E w -> r = HRM_OK) /\
    (forall a, In a prog_block_addrs ->
       (In (program_transfer (usb_dev hrm) (mem hrm) a)
           (expected_program_transfers (usb_dev hrm) (mem hrm)) <->
        exists j, 0 <= j < MEM_PROG_BLOCK_SIZE /\ mem_get (mem hrm) (a - MEM_OFFSET + j) <> 0xff)) /\
    (all_ff (mem hrm) -> List.filter is_program_transfer ev = []) /\
    (forall p, single_non_ff (mem hrm) p ->
       List.filter is_program_transfer ev =
         [program_transfer (usb_dev hrm) (mem hrm) (block_of p)]) /\
    ((forall j, (j < length (expected_program_transfers (usb_dev hrm) (mem hrm)))%nat ->
                program_op_ok E w j = true) ->
       r = HRM_OK /\ e = 0 /\
       List.filter is_program_transfer ev =
         expected_program_transfers (usb_dev hrm) (mem hrm)) /\
    (forall k, (k < length (expected_program_transfers (usb_dev hrm) (mem hrm)))%nat ->
       (forall j, (j < k)%nat -> program_op_ok E w j = true) ->
       program_op_ok E w k = false ->
       r = HRM_ERROR /\ e = HRM_FLASH_PROGRAM_ERROR /\
       List.filter is_program_transfer ev =
         take (S k) (expected_program_transfers (usb_dev hrm) (mem hrm))).
Proof.
  destruct (ProgramFlash_spec hrm w) as (r & e & w' & ev & Hrun & Htr & Hsp & Hgood & _).
  destruct (ProgramFlash_replies hrm w) as (r2 & e2 & w2 & ev2 & Hrun2 & Htr2 & Hall & Hfirst).
  rewrite Hrun in Hrun2. injection Hrun2 as <- He <-.
  subst e2.
  assert (ev2 = ev) as -> by (rewrite Htr in Htr2; by apply app_inv_head in Htr2).
  exists r, e, w', ev. split; [exact Hrun |]. split; [exact Htr |].
  split; [exact Hsp |]. split; [exact Hgood |]. split; [| split; [| split; [| split]]].
  - intros a Ha. by apply expected_program_transfers_in.
  - intros Hff. rewrite (expected_all_ff _ _ Hff) in Hsp.
    destruct Hsp as [(_ & _ & ->) | (_ & _ & k & Hk & ->)]; [reflexivity | by rewrite take_nil].
  - intros p Hp. rewrite (expected_single_non_ff _ _ _ Hp) in Hsp.
    destruct Hsp as [(_ & _ & ->) | (_ & _ & k & Hk & ->)]; [reflexivity |].
    cbn [length] in Hk. replace k with 1%nat by lia. reflexivity.
  - exact Hall.
  - exact Hfirst.
Qed.

End ProgramPhase.

(** ** What makes one operation succeed *)

Section Operations.

Variable E : env.

(** The erase path looks at the status poll only: the byte count returned
    by the erase transfer itself is overwritten before any test. *)
Lemma erase_block_success hrm a w d :
  usb_dev hrm = Some d ->
  exists r hrm' w',
    HRM_ICP_EraseFlashBlock E hrm a w = Ret (r, hrm') w' /\
    (r = HRM_OK <->
       c_status (e_control E (S (w_controls w))) = 1 /\
       to_uchar (c_ret (e_control E (S (w_controls w)))) = 1).
Proof.
  intros Hd. rewrite (EraseFlashBlock_run E hrm a w d Hd). unfold erase_poll_ok.
  destruct (c_status _ =? 1) eqn:Hs, (to_uchar _ =? 1) eqn:Hr; cbn [andb];
    eexists _, _, _; (split; [reflexivity |]);
    rewrite ?Z.eqb_eq, ?Z.eqb_neq in *; split; try done; intros [? ?]; done.
Qed.

(** The program path looks at the two byte counts only: the polled status
    byte is never compared with anything. *)
Lemma program_block_success hrm i w :
  block_valid (mem hrm) i = true ->
  exists r hrm' w',
    program_block E hrm i w = Ret (r, hrm') w' /\
    (r = None <->
       to_uchar (c_ret (e_control E (w_controls w))) = MEM_PROG_BLOCK_SIZE /\
       to_uchar (c_ret (e_control E (S (w_controls w)))) = 1).
Proof.
  intros Hv. rewrite program_block_run, Hv. unfold program_issue_ok, program_poll_ok.
  destruct (to_uchar (c_ret (e_control E (w_controls w))) =? _) eqn:H1,
           (to_uchar (c_ret (e_control E (S (w_controls w)))) =? 1) eqn:H2;
    eexists _, _, _; (split; [reflexivity |]);
    rewrite ?Z.eqb_eq, ?Z.eqb_neq in *; split; try done; intros [? ?]; done.
Qed.

Lemma first_erase_failure w n :
  (forall t, (t < n)%nat -> erase_poll_ok (erase_poll E w t) = true) \/
  exists k, (k < n)%nat /\
    (forall t, (t < k)%nat -> erase_poll_ok (erase_poll E w t) = true) /\
    erase_poll_ok (erase_poll E w k) = false.
Proof.
  induction n as [|n [IH | (k & Hk & Hok & Hbad)]].
  - left. intros t Ht. lia.
  - destruct (erase_poll_ok (erase_poll E w n)) eqn:Hn.
    + left. intros t Ht. destruct (decide (t = n)) as [-> | ?]; [exact Hn | apply IH; lia].
    + right. exists n. split; [lia |]. split; [exact IH | exact Hn].
  - right. exists k. split; [lia |]. split; assumption.
Qed.

(** The end of [main], from the erase phase on: the handle is closed when
    the run ends with [exit(0)], and on the two fatal exits it is not. *)
Lemma main_flash_outcome hrm w d :
  usb_dev hrm = Some d ->
  exists c w' ev,
    main_flash E hrm w = Exit c w' /\ w_trace w' = w_trace w ++ ev /\
    (c = 0 /\ List.filter is_close ev = [EvClose (Some d)]
     \/ (c = HRM_FLASH_ERASE_ERROR \/ c = HRM_FLASH_PROGRAM_ERROR) /\
        List.filter is_close ev = []).
Proof.
  intros Hd. unfold main_flash, mbind, prog_bind.
  destruct (first_erase_failure w 14) as [Hok | (k & Hk & Hok & Hbad)].
  - rewrite (EraseFlash_ok E hrm w d Hd Hok). cbn [HRM_CheckError set_last_errorcode
      last_errorcode Z.ltb Z.compare mret prog_ret].
    destruct (ProgramFlash_spec E (set_last_errorcode 0 hrm)
                (advance w 28 (erase_events (Some d) 14)))
      as (r & e & w' & ev & Hrun & Htr & Hsp & _ & Hcl).
    rewrite Hrun.
    destruct Hsp as [(-> & -> & _) | (-> & -> & _)].
    + eexists 0, _, (erase_events (Some d) 14 ++ ev ++ [EvClose (Some d)]).
      split; [step_prog; rewrite Hd; reflexivity |]. split.
      * cbn [w_trace]. rewrite Htr. cbn [advance w_trace]. by rewrite <- !app_assoc.
      * left. split; [reflexivity |].
        by rewrite !List.filter_app, erase_events_no_close, Hcl.
    + eexists HRM_FLASH_PROGRAM_ERROR, _, (erase_events (Some d) 14 ++ ev).
      split; [reflexivity |]. split.
      * rewrite Htr. cbn [advance w_trace]. by rewrite <- !app_assoc.
      * right. split; [by right |].
        by rewrite !List.filter_app, erase_events_no_close, Hcl.
  - rewrite (EraseFlash_fail E hrm w d k Hd Hk Hok Hbad).
    eexists HRM_FLASH_ERASE_ERROR, _, _. split; [reflexivity |].
    split; [reflexivity |]. right. split; [by left | apply erase_events_no_close].
Qed.

End Operations.

(** C1. The two paths do not apply the stated test.  An erase-block
    operation whose erase transfer is refused (return value -1 instead of
    0) is reported as a success as soon as the poll answers 1; a
    program-block operation whose polled status byte is 0 is reported as a
    success as soon as the two byte counts are 64 and 1, and so is the
    whole program phase. *)
Theorem C1_failed_operations_reported_as_success :
  c_ret (Sample.erase_issue_refused 0) = -1 /\
  HRM_ICP_EraseFlashBlock (Sample.env_with Sample.erase_issue_refused None)
      (Sample.session Sample.blank) MEM_OFFSET world0 =
    Ret (HRM_OK, Sample.session Sample.blank)
        (advance world0 2 (erase_block_events (Some 1%nat) MEM_OFFSET)) /\
  c_status (Sample.program_status_bad 1) = 0 /\
  program_block (Sample.env_with Sample.program_status_bad None)
      (Sample.session Sample.one_byte) MEM_OFFSET world0 =
    Ret (None, Sample.session Sample.one_byte)
        (advance world0 2
           [program_transfer (Some 1%nat) Sample.one_byte MEM_OFFSET;
            EvSleep WAIT_PROGRAMMING; status_poll (Some 1%nat); EvSleep WAIT_STATUS]) /\
  HRM_ICP_ProgramFlash (Sample.env_with Sample.program_status_bad None)
      (Sample.session Sample.one_byte) world0 =
    Ret (HRM_OK, Sample.session Sample.one_byte)
        (advance world0 2
           [program_transfer (Some 1%nat) Sample.one_byte MEM_OFFSET;
            EvSleep WAIT_PROGRAMMING; status_poll (Some 1%nat); EvSleep WAIT_STATUS]).
Proof.
  split; [reflexivity |]. split; [vm_compute; reflexivity |].
  split; [reflexivity |]. split; vm_compute; reflexivity.
Qed.

(** C5, as stated, fails: with bytes other than 0xFF in the blocks at
    0xDC00 and 0xDC40 and a device that refuses the first program
    transfer, the phase stops after that transfer and none is issued for
    the block at 0xDC40. *)
Lemma C5_counterexample :
  mem_get Sample.two_blocks 64 <> 0xff /\
  exists w',
    HRM_ICP_ProgramFlash (Sample.env_with Sample.refuse_all None)
        (Sample.session Sample.two_blocks) world0 =
      Ret (HRM_ERROR,
           set_last_errorcode HRM_FLASH_PROGRAM_ERROR (Sample.session Sample.two_blocks)) w' /\
    List.filter is_program_transfer (w_trace w') =
      [program_transfer (Some 1%nat) Sample.two_blocks 0xDC00] /\
    ~ In (program_transfer (Some 1%nat) Sample.two_blocks 0xDC40) (w_trace w').
Proof.
  split; [vm_compute; discriminate |].
  eexists. split; [vm_compute; reflexivity |]. split; [vm_compute; reflexivity |].
  cbn [w_trace]. intros [H | []]. vm_compute in H. discriminate H.
Qed.

Lemma all_ff_blank : all_ff Sample.blank.
Proof.
  intros idx Hidx. unfold mem_get, Sample.blank.
  rewrite lookup_replicate_2 by lia. reflexivity.
Qed.

Lemma single_non_ff_one_byte : single_non_ff Sample.one_byte 0.
Proof.
  split; [unfold MEM_SIZE; lia |]. split; [vm_compute; discriminate |].
  intros idx Hidx Hne. unfold mem_get, Sample.one_byte, Sample.blank.
  rewrite list_lookup_insert_ne by lia. rewrite lookup_replicate_2 by lia. reflexivity.
Qed.

Lemma C5_witness :
  (exists r e w' ev,
     HRM_ICP_ProgramFlash (Sample.env_with Sample.refuse_all None)
         (Sample.session Sample.blank) world0 =
       Ret (r, set_last_errorcode e (Sample.session Sample.blank)) w' /\
     w_trace w' = w_trace world0 ++ ev /\ List.filter is_program_transfer ev = []) /\
  (exists r e w' ev,
     HRM_ICP_ProgramFlash (Sample.env_with Sample.refuse_all None)
         (Sample.session Sample.one_byte) world0 =
       Ret (r, set_last_errorcode e (Sample.session Sample.one_byte)) w' /\
     w_trace w' = w_trace world0 ++ ev /\
     List.filter is_program_transfer ev =
       [program_transfer (Some 1%nat) Sample.one_byte (block_of 0)]) /\
  (exists r e w' ev,
     HRM_ICP_ProgramFlash (Sample.env_with Sample.second_poll_fails None)
         (Sample.session Sample.two_blocks) world0 =
       Ret (r, set_last_errorcode e (Sample.session Sample.two_blocks)) w' /\
     w_trace w' = w_trace world0 ++ ev /\
     r = HRM_ERROR /\ e = HRM_FLASH_PROGRAM_ERROR /\
     List.filter is_program_transfer ev =
       take 2 (expected_program_transfers (Some 1%nat) Sample.two_blocks)).
Proof.
  split; [| split].
  - destruct (C5_program_transfers_follow_non_blank_blocks
                (Sample.env_with Sample.refuse_all None) (Sample.session Sample.blank) world0)
      as (r & e & w' & ev & Hrun & Htr & _ & _ & _ & Hff & _).
    exists r, e, w', ev. split; [exact Hrun |]. split; [exact Htr |].
    apply Hff, all_ff_blank.
  - destruct (C5_program_transfers_follow_non_blank_blocks
                (Sample.env_with Sample.refuse_all None) (Sample.session Sample.one_byte) world0)
      as (r & e & w' & ev & Hrun & Htr & _ & _ & _ & _ & Hone & _).
    exists r, e, w', ev. split; [exact Hrun |]. split; [exact Htr |].
    apply (Hone 0), single_non_ff_one_byte.
  - destruct (C5_program_transfers_follow_non_blank_blocks
                (Sample.env_with Sample.second_poll_fails None)
                (Sample.session Sample.two_blocks) world0)
      as (r & e & w' & ev & Hrun & Htr & _ & _ & _ & _ & _ & _ & Hfirst).
    exists r, e, w', ev. split; [exact Hrun |]. split; [exact Htr |].
    apply (Hfirst 1%nat).
    + vm_compute. lia.
    + intros j Hj. assert (j = 0%nat) as -> by lia. vm_compute. reflexivity.
    + vm_compute. reflexivity.
Defined.

(** C8. The fatal exits leave the handle open.  With the device found and
    configured: a file that cannot be opened ends the run with exit code 3,
    a failed erase with 4, a failed program transfer with 5, and in none of
    these runs is the handle closed.  (The complete run closes it.) *)
Theorem C8_fatal_exit_does_not_close_the_handle :
  main (Sample.env_with Sample.erase_good None) None Sample.hrm0 world0 =
    Exit HRM_FILE_OPEN_ERROR
      (mkWorld 1 1 0 [EvOpen ICP_VID ICP_PID (Some 1%nat); EvSetConfiguration 1 1]) /\
  main (Sample.env_with Sample.refuse_all (Some [])) None Sample.hrm0 world0 =
    Exit HRM_FLASH_ERASE_ERROR
      (mkWorld 1 1 2 ([EvOpen ICP_VID ICP_PID (Some 1%nat); EvSetConfiguration 1 1]
                      ++ erase_block_events (Some 1%nat) MEM_OFFSET)) /\
  (exists w, main (Sample.env_with Sample.program_refused (Some [])) None Sample.hrm0 world0 =
               Exit HRM_FLASH_PROGRAM_ERROR w /\
             List.filter is_close (w_trace w) = []).
Proof.
  split; [vm_compute; reflexivity |]. split; [vm_compute; reflexivity |].
  eexists; (split; [vm_compute; reflexivity | vm_compute; reflexivity]).
Qed.

Lemma C6_witness :
  HRM_ICP_EraseFlash (Sample.env_with Sample.erase_good None) (Sample.session Sample.blank) world0 =
    Ret (HRM_OK, Sample.session Sample.blank) (advance world0 28 (erase_events (Some 1%nat) 14)) /\
  main_flash (Sample.env_with Sample.erase_second_fails None) (Sample.session Sample.blank) world0 =
    Exit HRM_FLASH_ERASE_ERROR (advance world0 4 (erase_events (Some 1%nat) 2)).
Proof.
  split.
  - apply (proj2 (C6_erase_phase_aborts_on_first_failure
             (Sample.env_with Sample.erase_good None) (Sample.session Sample.blank) world0 1
             eq_refl)).
    intros t Ht. unfold erase_poll, erase_poll_ok, Sample.env_with, Sample.erase_good.
    cbn [e_control w_controls world0 Nat.add]. rewrite Nat.even_succ.
    replace (Nat.odd (2 * t)) with false; [reflexivity |].
    symmetry. rewrite <- Nat.negb_even, Nat.even_mul. reflexivity.
  - apply (proj1 (C6_erase_phase_aborts_on_first_failure
             (Sample.env_with Sample.erase_second_fails None) (Sample.session Sample.blank)
             world0 1 eq_refl) 1%nat).
    + lia.
    + intros t Ht. assert (t = 0%nat) as -> by lia. reflexivity.
    + left. vm_compute. discriminate.
Defined.

(** ** The reader on well-formed text *)

Section Characters.

Lemma xdigit_char c v :
  xdigit c = Some v ->
  0 <= v < 16 /\ isspace c = false /\ Ascii.eqb c "-" = false /\ Ascii.eqb c "+" = false /\
  Ascii.eqb c "x" = false /\ Ascii.eqb c "X" = false /\
  Ascii.eqb c NUL = false /\ Ascii.eqb c LF = false /\
  Ascii.eqb c "S" = false.
Proof.
  destruct c as [[] [] [] [] [] [] [] []]; vm_compute; intros H;
    try discriminate H; injection H as <-; repeat split; congruence.
Qed.

Lemma xdigit_hex_digit n : 0 <= n < 16 -> xdigit (hex_digit n) = Some n.
Proof.
  intros Hn.
  assert (Forall (fun k => xdigit (hex_digit k) = Some k) (seqZ 0 16)) as H
    by (vm_compute; repeat constructor).
  rewrite Forall_forall in H. apply H, elem_of_seqZ. lia.
Qed.

Lemma to_int_small a : - 2 ^ 31 <= a < 2 ^ 31 -> to_int a = a.
Proof. intros H. unfold to_int. rewrite Z.mod_small; lia. Qed.

Lemma to_uchar_small b : 0 <= b < 256 -> to_uchar b = b.
Proof. intros H. unfold to_uchar. apply Z.mod_small; lia. Qed.

Lemma strtoul16_2 d1 d2 v1 v2 :
  xdigit d1 = Some v1 -> xdigit d2 = Some v2 ->
  strtoul16 [d1; d2] = 16 * v1 + v2.
Proof.
  intros H1 H2.
  destruct (xdigit_char _ _ H1) as (R1 & Hs & Hm & Hp & _).
  destruct (xdigit_char _ _ H2) as (R2 & _).
  unfold strtoul16. cbn [skip_space]. rewrite Hs, Hm, Hp.
  cbn [digits16]. rewrite H1, H2.
  replace (2 ^ 64 <=? 16 * (16 * 0 + v1) + v2) with false by (symmetry; apply Z.leb_gt; lia).
  rewrite Z.mod_small; lia.
Qed.

Lemma strtoul16_4 d1 d2 d3 d4 v1 v2 v3 v4 :
  xdigit d1 = Some v1 -> xdigit d2 = Some v2 ->
  xdigit d3 = Some v3 -> xdigit d4 = Some v4 ->
  strtoul16 [d1; d2; d3; d4] = 4096 * v1 + 256 * v2 + 16 * v3 + v4.
Proof.
  intros H1 H2 H3 H4.
  destruct (xdigit_char _ _ H1) as (R1 & Hs & Hm & Hp & _).
  destruct (xdigit_char _ _ H2) as (R2 & _ & _ & _ & Hx & HX & _).
  destruct (xdigit_char _ _ H3) as (R3 & _).
  destruct (xdigit_char _ _ H4) as (R4 & _).
  unfold strtoul16. cbn [skip_space]. rewrite Hs, Hm, Hp, Hx, HX.
  cbn [orb andb]. rewrite andb_false_r. cbn [andb digits16]. rewrite H1, H2, H3, H4.
  match goal with |- context [2 ^ 64 <=? ?x] =>
    replace (2 ^ 64 <=? x) with false by (symmetry; apply Z.leb_gt; lia) end.
  rewrite Z.mod_small; lia.
Qed.

Lemma strtoul16_hex2 b : is_byte b -> strtoul16 (hex2 b) = b.
Proof.
  intros Hb. unfold is_byte in Hb. unfold hex2.
  assert (0 <= b / 16 < 16) as Hq
    by (split; [apply Z.div_pos; lia | apply Z.div_lt_upper_bound; lia]).
  pose proof (Z.mod_pos_bound b 16 ltac:(lia)) as Hr.
  rewrite (strtoul16_2 _ _ _ _ (xdigit_hex_digit _ Hq) (xdigit_hex_digit _ Hr)).
  pose proof (Z.div_mod b 16 ltac:(lia)). lia.
Qed.

Lemma strtoul16_hex4 a : 0 <= a < 65536 -> strtoul16 (hex4 a) = a.
Proof.
  intros Ha. unfold hex4, hex2. cbn [app].
  assert (0 <= a / 256 < 256) as Hq
    by (split; [apply Z.div_pos; lia | apply Z.div_lt_upper_bound; lia]).
  pose proof (Z.mod_pos_bound a 256 ltac:(lia)) as Hr.
  assert (forall b, 0 <= b < 256 -> 0 <= b / 16 < 16) as Hd.
  { intros b Hb. split; [apply Z.div_pos; lia | apply Z.div_lt_upper_bound; lia]. }
  rewrite (strtoul16_4 _ _ _ _ _ _ _ _
             (xdigit_hex_digit _ (Hd _ Hq))
             (xdigit_hex_digit _ (Z.mod_pos_bound (a / 256) 16 ltac:(lia)))
             (xdigit_hex_digit _ (Hd _ Hr))
             (xdigit_hex_digit _ (Z.mod_pos_bound (a mod 256) 16 ltac:(lia)))).
  pose proof (Z.div_mod a 256 ltac:(lia)).
  pose proof (Z.div_mod (a / 256) 16 ltac:(lia)).
  pose proof (Z.div_mod (a mod 256) 16 ltac:(lia)). lia.
Qed.

Lemma hexchar_hex2 b : is_byte b -> Forall hexchar (hex2 b).
Proof.
  intros Hb. unfold is_byte in Hb. unfold hex2.
  repeat constructor; unfold hexchar; rewrite xdigit_hex_digit; try done.
  - split; [apply Z.div_pos; lia | apply Z.div_lt_upper_bound; lia].
  - apply Z.mod_pos_bound; lia.
Qed.

Lemma hexchar_hex4 a : 0 <= a < 65536 -> Forall hexchar (hex4 a).
Proof.
  intros Ha. unfold hex4. apply Forall_app. split; apply hexchar_hex2; unfold is_byte.
  - split; [apply Z.div_pos; lia | apply Z.div_lt_upper_bound; lia].
  - apply Z.mod_pos_bound; lia.
Qed.

Lemma hexchar_payload data : Forall is_byte data -> Forall hexchar (data ≫= hex2).
Proof.
  induction 1 as [|b data Hb _ IH]; [constructor |].
  cbn [mbind list_bind]. apply Forall_app. split; [by apply hexchar_hex2 | exact IH].
Qed.

Lemma hexchar_not_NUL c : hexchar c -> Ascii.eqb c NUL = false.
Proof. intros [v Hv]. by destruct (xdigit_char _ _ Hv) as (_ & _ & _ & _ & _ & _ & ? & _). Qed.

Lemma hexchar_not_LF c : hexchar c -> Ascii.eqb c LF = false.
Proof. intros [v Hv]. by destruct (xdigit_char _ _ Hv) as (_ & _ & _ & _ & _ & _ & _ & ? & _). Qed.

End Characters.

Section Buffer.

Lemma bind_OK {A B} (f : A -> result B) a : (OK a ≫= f) = f a.
Proof. reflexivity. Qed.

Lemma bind_Fault {A B} (f : A -> result B) e : (Fault e ≫= f) = Fault e.
Proof. reflexivity. Qed.

Lemma strncpy_from_app cs : forall pre post,
  Forall (fun c => Ascii.eqb c NUL = false) cs ->
  strncpy_from (pre ++ cs ++ post) (length pre) (length cs) = OK cs.
Proof.
  induction cs as [|c cs IH]; intros pre post Hcs; [reflexivity |].
  apply Forall_cons in Hcs as [Hc Hcs].
  cbn [length strncpy_from app].
  rewrite list_lookup_middle by reflexivity. rewrite Hc.
  change (pre ++ c :: cs ++ post) with (pre ++ [c] ++ (cs ++ post)).
  rewrite app_assoc.
  replace (S (length pre)) with (length (pre ++ [c])) by (rewrite length_app; cbn; lia).
  rewrite IH by assumption. reflexivity.
Qed.

Lemma strncpy_from_at line pre cs post off n :
  line = pre ++ cs ++ post -> off = length pre -> n = length cs ->
  Forall hexchar cs ->
  strncpy_from line off n = OK cs.
Proof.
  intros -> -> -> Hcs. apply strncpy_from_app.
  eapply Forall_impl; [exact Hcs | apply hexchar_not_NUL].
Qed.

Lemma fgets_take_line body : forall rest n,
  Forall (fun c => Ascii.eqb c LF = false) body -> (length body < n)%nat ->
  fgets_take n (body ++ LF :: rest) = (body ++ [LF], rest).
Proof.
  induction body as [|c body IH]; intros rest n Hb Hn.
  - destruct n; [cbn in Hn; lia | reflexivity].
  - apply Forall_cons in Hb as [Hc Hb]. destruct n; [cbn in Hn; lia |].
    cbn [fgets_take app]. rewrite Hc. rewrite IH; [reflexivity | assumption | cbn in Hn; lia].
Qed.

Lemma fgets_line line body rest :
  Forall (fun c => Ascii.eqb c LF = false) body -> (length body + 1 < MAX_LINE_LEN)%nat ->
  fgets line MAX_LINE_LEN (body ++ LF :: rest) =
    Some ((body ++ [LF]) ++ NUL :: drop (S (length (body ++ [LF]))) line, rest).
Proof.
  intros Hb Hn. unfold fgets.
  rewrite fgets_take_line by (assumption || lia).
  destruct body; reflexivity.
Qed.

Lemma render_split r : render r = render_body r ++ [LF].
Proof. unfold render, render_body. cbn [app]. by rewrite <- !app_assoc. Qed.

Lemma length_hex2 b : length (hex2 b) = 2%nat.
Proof. reflexivity. Qed.

Lemma length_hex4 a : length (hex4 a) = 4%nat.
Proof. reflexivity. Qed.

Lemma length_payload data : length (data ≫= hex2) = (2 * length data)%nat.
Proof.
  induction data as [|b data IH]; [reflexivity |].
  cbn [mbind list_bind]. rewrite length_app, IH, length_hex2. cbn [length]. lia.
Qed.

Lemma length_render r : length (render r) = (11 + 2 * length (r_data r))%nat.
Proof.
  unfold render. cbn [length]. rewrite !length_app, length_payload. cbn [length hex2 hex4 app]. lia.
Qed.

Lemma render_body_no_LF r :
  wf_rec r -> Forall (fun c => Ascii.eqb c LF = false) (render_body r).
Proof.
  intros [Hc Hf Ha Hd Hcrc]. unfold render_body.
  assert (is_byte (r_count r)) as Hcb.
  { rewrite length_render in Hf. unfold MAX_LINE_LEN in Hf. unfold is_byte. lia. }
  apply Forall_cons_2; [reflexivity |]. apply Forall_cons_2; [reflexivity |].
  eapply Forall_impl; [| apply hexchar_not_LF].
  apply Forall_app; split; [by apply hexchar_hex2 |].
  apply Forall_app; split; [by apply hexchar_hex4 |].
  apply Forall_app; split; [by apply hexchar_payload | by apply hexchar_hex2].
Qed.

Lemma data_loop_payload data : forall pre post address m c i,
  Forall is_byte data -> Z.to_nat (8 + 2 * i) = length pre -> 0 <= i ->
  0 <= address - MEM_OFFSET + i <= MEM_SIZE ->
  S19.data_loop (length data) (pre ++ (data ≫= hex2) ++ post) address (S19.mkLocals m c i) =
    if address - MEM_OFFSET + i + Z.of_nat (length data) <=? MEM_SIZE
    then OK (S19.mkLocals
               (S19Spec.write_bytes m (Z.to_nat (address - MEM_OFFSET + i)) data)
               (crc_sum c data) (i + Z.of_nat (length data)))
    else Fault (WriteOOB MEM_SIZE).
Proof.
  induction data as [|b data IH]; intros pre post address m c i Hd Hpre Hi Hidx.
  - cbn [length S19.data_loop S19Spec.write_bytes crc_sum foldl Z.of_nat].
    rewrite !Z.add_0_r. by rewrite (proj2 (Z.leb_le _ _)) by lia.
  - apply Forall_cons in Hd as [Hb Hd].
    cbn [length S19.data_loop mbind list_bind S19.l_i S19.l_mem S19.l_calc_crc].
    rewrite <- app_assoc.
    rewrite (strncpy_from_at _ pre (hex2 b) ((data ≫= hex2) ++ post));
      [| reflexivity | exact Hpre | reflexivity | by apply hexchar_hex2].
    rewrite bind_OK.
    rewrite strtoul16_hex2 by assumption. rewrite !(to_uchar_small b) by exact Hb.
    unfold mem_put.
    destruct (address - MEM_OFFSET + i <? MEM_SIZE) eqn:Hlt.
    + apply Z.ltb_lt in Hlt. rewrite bind_OK.
      rewrite app_assoc.
      rewrite IH; [| assumption | rewrite length_app, <- Hpre; cbn [length hex2]; lia | lia | lia].
      replace (address - MEM_OFFSET + (i + 1) + Z.of_nat (length data))
        with (address - MEM_OFFSET + i + Z.of_nat (S (length data))) by lia.
      destruct (_ <=? MEM_SIZE); [| reflexivity].
      cbn [S19Spec.write_bytes crc_sum foldl]. do 2 f_equal; [f_equal; lia | lia].
    + apply Z.ltb_ge in Hlt. rewrite bind_Fault.
      rewrite (proj2 (Z.leb_gt _ _)) by lia. do 2 f_equal. lia.
Qed.

Lemma line_step_render r tl m :
  wf_rec r ->
  S19.line_step (render r ++ tl) m = (m' ← S19Spec.apply_rec m r; OK (m', false)).
Proof.
  intros [Hc Hf Ha Hd Hcrc].
  assert (is_byte (r_count r)) as Hcb.
  { rewrite length_render in Hf. unfold MAX_LINE_LEN in Hf. unfold is_byte. lia. }
  unfold S19.line_step. change (S19.starts_with (render r ++ tl) "S" "1") with true.
  cbn match. unfold S19.s1_record.
  remember (render r ++ tl) as line eqn:Hl.
  rewrite (strncpy_from_at line ["S"; "1"]%char (hex2 (r_count r))
             (hex4 (r_addr r) ++ (r_data r ≫= hex2) ++ hex2 (r_crc r) ++ [LF] ++ tl) 2 2);
    [| rewrite Hl; unfold render; cbn [app]; by rewrite <- !app_assoc
     | reflexivity | reflexivity | by apply hexchar_hex2].
  rewrite bind_OK.
  rewrite (strncpy_from_at line (["S"; "1"]%char ++ hex2 (r_count r)) (hex4 (r_addr r))
             ((r_data r ≫= hex2) ++ hex2 (r_crc r) ++ [LF] ++ tl) 4 4);
    [| rewrite Hl; unfold render; cbn [app]; by rewrite <- !app_assoc
     | reflexivity | reflexivity | by apply hexchar_hex4].
  rewrite bind_OK.
  rewrite strtoul16_hex2 by assumption. rewrite strtoul16_hex4 by assumption.
  unfold is_byte in Hcb.
  rewrite !to_int_small by lia.
  unfold S19Spec.apply_rec.
  destruct ((r_addr r <? MEM_OFFSET) || (r_addr r >=? MEM_OFFSET + MEM_SIZE)) eqn:Hw;
    [by rewrite !bind_OK |].
  apply orb_false_elim in Hw as [Hw1 Hw2].
  apply Z.ltb_ge in Hw1. rewrite Z.geb_leb in Hw2. apply Z.leb_gt in Hw2.
  replace (Z.to_nat (r_count r - 3)) with (length (r_data r)) by lia.
  assert (line = (["S"; "1"]%char ++ hex2 (r_count r) ++ hex4 (r_addr r)) ++
                   (r_data r ≫= hex2) ++ (hex2 (r_crc r) ++ [LF] ++ tl)) as Hline.
  { rewrite Hl. unfold render. cbn [app]. by rewrite <- !app_assoc. }
  rewrite Hline at 1.
  rewrite data_loop_payload; [| assumption | reflexivity | lia | lia].
  rewrite Z.add_0_r, Z.add_0_l.
  destruct (_ <=? MEM_SIZE); [| by rewrite !bind_Fault].
  rewrite bind_OK. cbn [S19.l_i S19.l_mem S19.l_calc_crc].
  rewrite (strncpy_from_at line
             (["S"; "1"]%char ++ hex2 (r_count r) ++ hex4 (r_addr r) ++ (r_data r ≫= hex2))
             (hex2 (r_crc r)) ([LF] ++ tl)
             (Z.to_nat (8 + 2 * Z.of_nat (length (r_data r)))) 2);
    [| rewrite Hl; unfold render; cbn [app]; by rewrite <- !app_assoc
     | rewrite !length_app, length_payload; cbn [length hex2 hex4 app]; lia
     | reflexivity | by apply hexchar_hex2].
  rewrite !bind_OK. reflexivity.
Qed.

Lemma starts_with_line l tl c1 :
  S19.starts_with ((l ++ [LF]) ++ tl) "S" c1 = S19.starts_with (l ++ [LF]) "S" c1.
Proof. destruct l as [|a [|b l]]; [destruct tl |..]; reflexivity. Qed.

Lemma line_step_other l tl m :
  S19.starts_with (l ++ [LF]) "S" "1" = false ->
  S19.line_step ((l ++ [LF]) ++ tl) m =
    OK (m, S19.starts_with (l ++ [LF]) "S" "9").
Proof.
  intros H1. unfold S19.line_step. rewrite !starts_with_line, H1.
  by destruct (S19.starts_with (l ++ [LF]) "S" "9").
Qed.

Lemma read_loop_lines xs : forall fuel line m,
  Forall wf_line xs -> (length (render_lines xs) <= fuel)%nat ->
  S19.read_loop fuel (render_lines xs) line m = S19Spec.apply_lines m xs.
Proof.
  induction xs as [|x xs IH]; intros fuel line m Hwf Hfuel.
  - destruct fuel; reflexivity.
  - apply Forall_cons in Hwf as [Hx Hwf].
    change (render_lines (x :: xs)) with (render_line x ++ render_lines xs) in *.
    rewrite length_app in Hfuel.
    destruct x as [r | l]; cbn [render_line wf_line S19Spec.apply_lines] in *.
    + rewrite length_render in Hfuel. destruct fuel as [|fuel]; [lia |].
      cbn [S19.read_loop]. rewrite render_split, <- app_assoc. cbn [app].
      rewrite fgets_line;
        [| by apply render_body_no_LF
         | pose proof (wf_fits _ Hx) as Hf; rewrite render_split, length_app in Hf;
           cbn [length] in Hf; lia].
      rewrite <- render_split. rewrite line_step_render by assumption.
      destruct (S19Spec.apply_rec m r) as [m' | f]; [| reflexivity].
      unfold mbind, result_bind. apply IH; [assumption | lia].
    + destruct Hx as (Hlf & Hlen & Hs1). destruct fuel as [|fuel]; [rewrite length_app in Hfuel; cbn in Hfuel; lia |].
      cbn [S19.read_loop]. rewrite <- app_assoc. cbn [app].
      rewrite fgets_line; [| | lia].
      * rewrite line_step_other by assumption. unfold mbind, result_bind.
        destruct (S19.starts_with (l ++ [LF]) "S" "9"); [reflexivity |].
        apply IH; [assumption | rewrite length_app in Hfuel; cbn in Hfuel; lia].
      * apply Forall_forall. intros c Hin. apply Ascii.eqb_neq. intros ->. by apply Hlf.
Qed.

End Buffer.

(** ** The image *)

Section Image.

Import S19Spec.

Lemma length_write_bytes data : forall m idx, length (write_bytes m idx data) = length m.
Proof.
  induction data as [|b data IH]; intros m idx; [reflexivity |].
  cbn [write_bytes]. by rewrite IH, length_insert.
Qed.

Lemma lookup_write_bytes_out data : forall (m : list Z) idx k,
  (k < idx \/ idx + length data <= k)%nat ->
  write_bytes m idx data !! k = m !! k.
Proof.
  induction data as [|b data IH]; intros m idx k Hk; [reflexivity |].
  cbn [write_bytes length] in *. rewrite IH by lia.
  apply list_lookup_insert_ne. lia.
Qed.

Lemma lookup_write_bytes_in data : forall (m : list Z) idx i b,
  (idx + length data <= length m)%nat -> data !! i = Some b ->
  write_bytes m idx data !! (idx + i)%nat = Some b.
Proof.
  induction data as [|b0 data IH]; intros m idx i b Hlen Hi; [discriminate |].
  cbn [write_bytes length] in *. destruct i as [|i].
  - injection Hi as ->. rewrite Nat.add_0_r.
    rewrite lookup_write_bytes_out by lia.
    apply list_lookup_insert_eq. lia.
  - replace (idx + S i)%nat with (S idx + i)%nat by lia.
    apply IH; [rewrite length_insert; lia | exact Hi].
Qed.

Lemma apply_rec_in_window m r :
  in_window r ->
  apply_rec m r = OK (write_bytes m (Z.to_nat (r_addr r - MEM_OFFSET)) (r_data r)).
Proof.
  intros [Hlo Hhi]. unfold apply_rec.
  rewrite (proj2 (Z.ltb_ge _ _) Hlo). cbn [orb]. rewrite Z.geb_leb.
  destruct (MEM_OFFSET + MEM_SIZE <=? r_addr r) eqn:He.
  - apply Z.leb_le in He. destruct (r_data r); [reflexivity | cbn [length] in Hhi; lia].
  - by rewrite (proj2 (Z.leb_le _ _)) by lia.
Qed.

Lemma apply_lines_records rs : forall m,
  Forall in_window rs -> apply_lines m (DataRec <$> rs) = OK (image m rs).
Proof.
  induction rs as [|r rs IH]; intros m Hw; [reflexivity |].
  apply Forall_cons in Hw as [Hr Hw].
  cbn [fmap list_fmap apply_lines]. rewrite apply_rec_in_window by assumption.
  rewrite bind_OK. by apply IH.
Qed.

Lemma render_file_lines rs : render_file rs = render_lines (DataRec <$> rs).
Proof.
  unfold render_file, render_lines. induction rs as [|r rs IH]; [reflexivity |].
  cbn [fmap list_fmap mbind list_bind render_line]. f_equal. exact IH.
Qed.

Lemma length_image rs : forall m, length (image m rs) = length m.
Proof.
  induction rs as [|r rs IH]; intros m; [reflexivity |].
  unfold image in *. cbn [foldl]. by rewrite IH, length_write_bytes.
Qed.

Lemma image_app m pre post : image m (pre ++ post) = image (image m pre) post.
Proof. unfold image. apply foldl_app. Qed.

Lemma covers_range r k :
  in_window r ->
  covers r k <->
  (Z.to_nat (r_addr r - MEM_OFFSET) <= k < Z.to_nat (r_addr r - MEM_OFFSET) + length (r_data r))%nat.
Proof. intros [Hlo Hhi]. unfold covers. lia. Qed.

Lemma image_not_covered rs : forall (m : list Z) k,
  Forall in_window rs -> (forall r, r ∈ rs -> ~ covers r k) ->
  image m rs !! k = m !! k.
Proof.
  induction rs as [|r rs IH]; intros m k Hw Hnc; [reflexivity |].
  apply Forall_cons in Hw as [Hr Hw].
  change (image m (r :: rs))
    with (image (write_bytes m (Z.to_nat (r_addr r - MEM_OFFSET)) (r_data r)) rs).
  rewrite IH; [| assumption | intros r' Hr'; apply Hnc; by right].
  apply lookup_write_bytes_out.
  pose proof (Hnc r ltac:(by left)) as Hn. rewrite covers_range in Hn by assumption. lia.
Qed.

Lemma image_last_writer (m : list Z) pre r post i b :
  length m = Z.to_nat MEM_SIZE ->
  Forall in_window (pre ++ r :: post) ->
  r_data r !! i = Some b ->
  (forall r', r' ∈ post -> ~ covers r' (Z.to_nat (r_addr r - MEM_OFFSET) + i)) ->
  image m (pre ++ r :: post) !! (Z.to_nat (r_addr r - MEM_OFFSET) + i)%nat = Some b.
Proof.
  intros Hlen Hw Hi Hpost.
  apply Forall_app in Hw as [_ Hw]. apply Forall_cons in Hw as [Hr Hw].
  rewrite image_app.
  change (image (image m pre) (r :: post))
    with (image (write_bytes (image m pre) (Z.to_nat (r_addr r - MEM_OFFSET)) (r_data r)) post).
  rewrite image_not_covered by assumption.
  apply lookup_write_bytes_in; [| exact Hi].
  rewrite length_image, Hlen. destruct Hr as [Hlo Hhi]. lia.
Qed.

Lemma ReadS19_lines xs line0 hrm :
  Forall wf_line xs ->
  HRM_ICP_ReadS19 (Some (render_lines xs)) line0 hrm =
    (m ← apply_lines Sample.blank xs;
     OK (HRM_OK, S19.icp_flags (set_mem m (set_last_errorcode 0 hrm)))).
Proof.
  intros Hwf. unfold HRM_ICP_ReadS19. cbn [set_mem mem].
  rewrite read_loop_lines by (assumption || lia). reflexivity.
Qed.

Lemma apply_lines_same_but_crc xs : forall ys m,
  Forall2 same_but_crc xs ys -> apply_lines m xs = apply_lines m ys.
Proof.
  induction xs as [|x xs IH]; intros ys m H; inversion H as [|? y ? ys' Hxy Hrest]; subst;
    [reflexivity |].
  destruct x as [r | l], y as [r' | l']; cbn [same_but_crc] in Hxy; try contradiction.
  - destruct Hxy as (Hc & Ha & Hd). cbn [apply_lines].
    replace (apply_rec m r') with (apply_rec m r) by (unfold apply_rec; by rewrite Ha, Hd).
    destruct (apply_rec m r); [rewrite !bind_OK; by apply IH | reflexivity].
  - subst l'. cbn [apply_lines]. destruct (S19.starts_with _ _ _); [reflexivity | by apply IH].
Qed.

Lemma apply_rec_outside m r :
  r_addr r < MEM_OFFSET \/ MEM_OFFSET + MEM_SIZE <= r_addr r -> apply_rec m r = OK m.
Proof.
  intros H. unfold apply_rec.
  replace ((r_addr r <? MEM_OFFSET) || (r_addr r >=? MEM_OFFSET + MEM_SIZE)) with true;
    [reflexivity |].
  symmetry. apply orb_true_iff. rewrite Z.geb_leb, Z.ltb_lt, Z.leb_le. exact H.
Qed.

(** In a well-formed file a record for an address outside the window can
    be taken out without any change to what the reader returns. *)
Lemma ReadS19_skips_record_outside pre r post line0 hrm :
  Forall wf_line (pre ++ DataRec r :: post) ->
  r_addr r < MEM_OFFSET \/ MEM_OFFSET + MEM_SIZE <= r_addr r ->
  HRM_ICP_ReadS19 (Some (render_lines (pre ++ DataRec r :: post))) line0 hrm =
  HRM_ICP_ReadS19 (Some (render_lines (pre ++ post))) line0 hrm.
Proof.
  intros Hwf Hout.
  assert (Forall wf_line (pre ++ post)) as Hwf'.
  { apply Forall_app in Hwf as [Hpre Hpost]. apply Forall_cons in Hpost as [_ Hpost].
    by apply Forall_app. }
  rewrite !ReadS19_lines by assumption. f_equal.
  generalize Sample.blank. clear Hwf Hwf'.
  induction pre as [|x pre IH]; intros m.
  - cbn [app apply_lines]. by rewrite apply_rec_outside, bind_OK.
  - cbn [app apply_lines]. destruct x as [r' | l].
    + destruct (apply_rec m r'); [rewrite !bind_OK; apply IH | reflexivity].
    + destruct (S19.starts_with _ _ _); [reflexivity | apply IH].
Qed.

End Image.

(** ** The ICP flag *)

Section Flags.

Lemma foldl_to_uint l : forall acc,
  0 <= acc < 2 ^ 32 ->
  foldl (fun acc b => to_uint (acc + b)) acc l = to_uint (acc + sum_list l).
Proof.
  induction l as [|b l IH]; intros acc Hacc.
  - cbn. rewrite Z.add_0_r. unfold to_uint. by rewrite Z.mod_small.
  - cbn [foldl sum_list foldr]. rewrite IH by (apply Z.mod_pos_bound; lia).
    unfold to_uint. fold (sum_list l). rewrite Zplus_mod_idemp_l. f_equal. lia.
Qed.

Lemma checksum_sum_window m : S19.checksum_sum m = to_uint (sum_list (window_bytes m)).
Proof.
  unfold S19.checksum_sum, window_bytes.
  rewrite <- (foldl_fmap (fun acc b => to_uint (acc + b)) 0
               (seqZ ICP_CHECKSUM_START (ICP_CHECKSUM_STOP - ICP_CHECKSUM_START + 1))
               (fun i => mem_get m (i - MEM_OFFSET))).
  by rewrite foldl_to_uint by lia.
Qed.

Lemma mem_get_byte m i : Forall is_byte m -> is_byte (mem_get m i).
Proof.
  intros Hm. unfold mem_get. destruct (m !! Z.to_nat i) as [b|] eqn:Hb; cbn.
  - by eapply Forall_lookup_1.
  - unfold is_byte. lia.
Qed.

Lemma sum_list_bytes l : Forall is_byte l -> 0 <= sum_list l <= 255 * Z.of_nat (length l).
Proof.
  induction 1 as [|b l Hb _ IH]; [cbn; lia |].
  unfold is_byte in Hb. cbn [sum_list foldr length]. fold (sum_list l). lia.
Qed.

(** On an image of bytes the 32-bit accumulator never wraps. *)
Lemma checksum_sum_bytes m :
  Forall is_byte m -> S19.checksum_sum m = sum_list (window_bytes m).
Proof.
  intros Hm. rewrite checksum_sum_window. unfold to_uint. apply Z.mod_small.
  assert (Forall is_byte (window_bytes m)) as Hw.
  { unfold window_bytes. apply Forall_fmap, Forall_forall. intros i _. by apply mem_get_byte. }
  pose proof (sum_list_bytes _ Hw) as Hs.
  assert (length (window_bytes m) = 510%nat) as Hl
    by (unfold window_bytes; rewrite length_fmap, length_seqZ; reflexivity).
  rewrite Hl in Hs. lia.
Qed.

Lemma land_ffff x : Z.land 0xffff x = x mod 65536.
Proof. rewrite Z.land_comm. change 0xffff with (Z.ones 16). by rewrite Z.land_ones by lia. Qed.

Lemma flag_calculated_eq m :
  S19.flag_calculated m = 65536 - S19.checksum_sum m mod 65536.
Proof.
  unfold S19.flag_calculated. rewrite land_ffff.
  pose proof (Z.mod_pos_bound (S19.checksum_sum m) 65536 ltac:(lia)).
  unfold to_uint. rewrite Z.mod_small; lia.
Qed.

Lemma flag_calculated_range m : 1 <= S19.flag_calculated m <= 65536.
Proof.
  rewrite flag_calculated_eq.
  pose proof (Z.mod_pos_bound (S19.checksum_sum m) 65536 ltac:(lia)). lia.
Qed.

(** The computed flag is a 16-bit value except when the low 16 bits of
    the sum are all zero; it is then 0x10000. *)
Lemma flag_calculated_16_bits m :
  S19.flag_calculated m < 65536 <-> S19.checksum_sum m mod 65536 <> 0.
Proof.
  rewrite flag_calculated_eq.
  pose proof (Z.mod_pos_bound (S19.checksum_sum m) 65536 ltac:(lia)). lia.
Qed.

Lemma flag_from_file_big_endian m :
  Forall is_byte m ->
  S19.flag_from_file m =
    256 * mem_get m (ICP_FLAG_ADDRESS - MEM_OFFSET) + mem_get m (ICP_FLAG_ADDRESS - MEM_OFFSET + 1).
Proof.
  intros Hm. unfold S19.flag_from_file.
  pose proof (mem_get_byte m (ICP_FLAG_ADDRESS - MEM_OFFSET) Hm) as H1.
  pose proof (mem_get_byte m (ICP_FLAG_ADDRESS - MEM_OFFSET + 1) Hm) as H2.
  unfold is_byte in *. rewrite Z.shiftl_mul_pow2 by lia.
  unfold to_uint. rewrite Z.mod_small; lia.
Qed.

Lemma window_bytes_insert m k v :
  (Z.to_nat (ICP_FLAG_ADDRESS - MEM_OFFSET) <= k)%nat ->
  window_bytes (<[k := v]> m) = window_bytes m.
Proof.
  intros Hk. unfold window_bytes. apply list_fmap_ext. intros j i Hi.
  apply lookup_seqZ in Hi as [-> Hj]. unfold mem_get.
  rewrite list_lookup_insert_ne; [reflexivity |].
  unfold ICP_FLAG_ADDRESS, ICP_CHECKSUM_START, ICP_CHECKSUM_STOP, MEM_OFFSET in *. lia.
Qed.

Lemma mem_put_inside m i v :
  (i <? MEM_SIZE) = true -> mem_put m i v = OK (<[Z.to_nat i := v]> m).
Proof. intros H. unfold mem_put. by rewrite H. Qed.

(** Where the computed flag is a 16-bit value, the repair in [main] makes
    the stored flag equal to it, and computing both again gives equal
    values. *)
Lemma repair_makes_flags_match hrm :
  length (mem hrm) = Z.to_nat MEM_SIZE ->
  S19.flag_calculated (mem hrm) < 65536 ->
  exists hrm',
    fix_icp_flag (S19.icp_flags hrm) = OK hrm' /\
    icp_flag (S19.icp_flags hrm') = icp_flag_calculated (S19.icp_flags hrm').
Proof.
  intros Hlen Hc. unfold fix_icp_flag.
  cbn [S19.icp_flags icp_flag icp_flag_calculated set_icp_flag set_icp_flag_calculated mem].
  destruct (S19.flag_from_file (mem hrm) =? S19.flag_calculated (mem hrm)) eqn:He; cbn [negb].
  - eexists. split; [reflexivity |]. cbn. by apply Z.eqb_eq.
  - rewrite (mem_put_inside _ (ICP_FLAG_ADDRESS - MEM_OFFSET)) by reflexivity.
    rewrite bind_OK.
    rewrite (mem_put_inside _ (ICP_FLAG_ADDRESS - MEM_OFFSET + 1)) by reflexivity.
    rewrite bind_OK. eexists. split; [reflexivity |].
    cbn [S19.icp_flags icp_flag icp_flag_calculated set_icp_flag set_icp_flag_calculated
           set_mem mem].
    set (c := S19.flag_calculated (mem hrm)) in *.
    pose proof (flag_calculated_range (mem hrm)) as Hr. fold c in Hr.
    match goal with |- S19.flag_from_file ?m' = _ => set (m1 := m') end.
    assert (S19.flag_calculated m1 = c) as ->.
    { subst c. rewrite !flag_calculated_eq, !checksum_sum_window. subst m1.
      rewrite !window_bytes_insert; [reflexivity | |];
        unfold ICP_FLAG_ADDRESS, MEM_OFFSET; lia. }
    unfold S19.flag_from_file, mem_get. subst m1.
    assert (Z.to_nat (ICP_FLAG_ADDRESS - MEM_OFFSET) < length (mem hrm))%nat as Hin1
      by (rewrite Hlen; unfold ICP_FLAG_ADDRESS, MEM_OFFSET, MEM_SIZE; lia).
    assert (Z.to_nat (ICP_FLAG_ADDRESS - MEM_OFFSET + 1) < length (mem hrm))%nat as Hin2
      by (rewrite Hlen; unfold ICP_FLAG_ADDRESS, MEM_OFFSET, MEM_SIZE; lia).
    assert (Z.to_nat (ICP_FLAG_ADDRESS - MEM_OFFSET + 1) <>
            Z.to_nat (ICP_FLAG_ADDRESS - MEM_OFFSET)) as Hne
      by (unfold ICP_FLAG_ADDRESS, MEM_OFFSET; lia).
    rewrite list_lookup_insert_eq by (by rewrite length_insert).
    rewrite list_lookup_insert_ne by exact Hne.
    rewrite list_lookup_insert_eq by exact Hin1. cbn [default].
    rewrite Z.shiftr_div_pow2, Z.shiftl_mul_pow2 by lia.
    change 0xff with (Z.ones 8). rewrite Z.land_ones by lia.
    unfold to_uchar, to_uint. change (2 ^ 8) with 256.
    assert (0 <= c / 256 < 256) as Hq
      by (split; [apply Z.div_pos; lia | apply Z.div_lt_upper_bound; lia]).
    rewrite (Z.mod_small (c / 256)) by lia.
    pose proof (Z.div_mod c 256 ltac:(lia)).
    pose proof (Z.mod_pos_bound c 256 ltac:(lia)).
    unfold id. rewrite Z.mod_mod by lia. rewrite Z.mod_small; lia.
Qed.

End Flags.

(** ** The claims about the reader *)

(** Well-formedness of a record, or of a line, that is written out. *)
Ltac solve_wf_rec :=
  constructor;
  [ reflexivity | unfold MAX_LINE_LEN; cbn; lia | cbn; lia
  | repeat constructor; unfold is_byte; lia | unfold is_byte; cbn; lia ].

Ltac solve_wf_other :=
  split;
  [ let H := fresh in
    intros H; repeat (apply elem_of_cons in H as [H | H]; [discriminate H |]);
    by apply elem_of_nil in H
  | split; [unfold MAX_LINE_LEN; cbn; lia | reflexivity] ].

(** C2, as stated, fails: of two valid records for the same address in
    the window the later one wins, so the payload of the first is not in
    the image. *)
Lemma C2_counterexample :
  Forall wf_rec Sample.overlapping /\ Forall in_window Sample.overlapping /\
  exists hrm',
    HRM_ICP_ReadS19 (Some (render_file Sample.overlapping)) Sample.line0 Sample.hrm0 =
      OK (HRM_OK, hrm') /\
    ~ (forall r i b, r ∈ Sample.overlapping -> r_data r !! i = Some b ->
         mem hrm' !! (Z.to_nat (r_addr r - MEM_OFFSET) + i)%nat = Some b).
Proof.
  split; [| split].
  - repeat (apply Forall_cons_2; [solve_wf_rec |]). apply Forall_nil_2.
  - repeat constructor; cbn; discriminate.
  - eexists. split; [vm_compute; reflexivity |].
    intros H. specialize (H (mkRec 4 0xDC00 [0x11] 0) 0%nat 0x11 ltac:(by left) eq_refl).
    vm_compute in H. discriminate H.
Qed.

(** C2 (as amended). For a file of valid data records, each fitting in one
    line of the reader and with its whole payload inside the window, the
    reader returns [HRM_OK] with an image of [MEM_SIZE] bytes in which an
    index that no payload is meant for holds 0xFF, and the index
    [address - MEM_OFFSET + i] of byte [i] of a record holds that byte
    unless a later record in the file writes the same index. *)
Theorem C2_image_of_valid_records rs line0 hrm :
  Forall wf_rec rs -> Forall in_window rs ->
  exists hrm',
    HRM_ICP_ReadS19 (Some (render_file rs)) line0 hrm = OK (HRM_OK, hrm') /\
    length (mem hrm') = Z.to_nat MEM_SIZE /\
    (forall k, (k < Z.to_nat MEM_SIZE)%nat ->
       (forall r, r ∈ rs -> ~ covers r k) -> mem hrm' !! k = Some 0xff) /\
    (forall pre r post i b,
       rs = pre ++ r :: post -> r_data r !! i = Some b ->
       (forall r', r' ∈ post -> ~ covers r' (Z.to_nat (r_addr r - MEM_OFFSET) + i)) ->
       mem hrm' !! (Z.to_nat (r_addr r - MEM_OFFSET) + i)%nat = Some b).
Proof.
  intros Hwf Hwin.
  rewrite render_file_lines, ReadS19_lines
    by (apply Forall_fmap; eapply Forall_impl; [exact Hwf | done]).
  rewrite apply_lines_records by assumption. rewrite bind_OK.
  eexists. split; [reflexivity |].
  cbn [S19.icp_flags mem set_mem set_icp_flag set_icp_flag_calculated].
  assert (length Sample.blank = Z.to_nat MEM_SIZE) as Hlen by apply length_replicate.
  split; [by rewrite length_image |]. split.
  - intros k Hk Hnc. rewrite image_not_covered by assumption.
    by apply lookup_replicate_2.
  - intros pre r post i b -> Hi Hpost. by apply image_last_writer.
Qed.

Lemma C2_witness :
  exists hrm',
    HRM_ICP_ReadS19 (Some (render_file Sample.two_records)) Sample.line0 Sample.hrm0 =
      OK (HRM_OK, hrm') /\
    length (mem hrm') = Z.to_nat MEM_SIZE /\
    (forall k, (k < Z.to_nat MEM_SIZE)%nat ->
       (forall r, r ∈ Sample.two_records -> ~ covers r k) -> mem hrm' !! k = Some 0xff) /\
    (forall pre r post i b,
       Sample.two_records = pre ++ r :: post -> r_data r !! i = Some b ->
       (forall r', r' ∈ post -> ~ covers r' (Z.to_nat (r_addr r - MEM_OFFSET) + i)) ->
       mem hrm' !! (Z.to_nat (r_addr r - MEM_OFFSET) + i)%nat = Some b).
Proof.
  apply (C2_image_of_valid_records Sample.two_records Sample.line0 Sample.hrm0).
  - repeat (apply Forall_cons_2; [solve_wf_rec |]). apply Forall_nil_2.
  - repeat constructor; cbn; discriminate.
Defined.

(** C3. The computed flag is not always a 16-bit value: for a file that
    sets the bytes 0xF600..0xF7FF to zero the reader stores
    [icp_flag_calculated = 0x10000] (and [icp_flag = 0]). *)
Theorem C3_flag_calculated_is_0x10000_on_a_zero_sum :
  HRM_ICP_ReadS19 (Some (render_file Sample.zero_window_records)) Sample.line0 Sample.hrm0 =
    OK (HRM_OK, mkHRM 0x10000 0 None Sample.zero_window 0 0) /\
  S19.checksum_sum Sample.zero_window = 0 /\
  ~ S19.flag_calculated Sample.zero_window < 65536.
Proof.
  split; [vm_compute; reflexivity |]. split; [vm_compute; reflexivity |].
  vm_compute. discriminate.
Qed.

(** C4. On the same image the repair does not settle: it stores 0x00 0x00
    at the flag offset, and computing the two flags again gives 0x10000
    and 0, so a second pass of the test in [main] rewrites the flag. *)
Theorem C4_repair_is_not_idempotent_on_a_zero_sum :
  fix_icp_flag (mkHRM 0x10000 0 None Sample.zero_window 0 0) =
    OK (mkHRM 0x10000 0 None Sample.zero_window 0 0) /\
  icp_flag_calculated (S19.icp_flags (mkHRM 0x10000 0 None Sample.zero_window 0 0)) = 0x10000 /\
  icp_flag (S19.icp_flags (mkHRM 0x10000 0 None Sample.zero_window 0 0)) = 0 /\
  negb (icp_flag (S19.icp_flags (mkHRM 0x10000 0 None Sample.zero_window 0 0)) =?
        icp_flag_calculated (S19.icp_flags (mkHRM 0x10000 0 None Sample.zero_window 0 0))) = true.
Proof.
  split; [vm_compute; reflexivity |]. split; [vm_compute; reflexivity |].
  split; vm_compute; reflexivity.
Qed.

(** C7. A line that starts with [S1] and whose address field is four
    hexadecimal digits (of either case) of an address outside
    [0xDC00, 0xDC00+0x1C00) is skipped: the turn of the loop ends without
    a fault, with the image as it was, and the loop goes on.  This holds
    whatever the byte-count field and the rest of the line are. *)
Theorem C7_record_outside_window_is_skipped x y d1 d2 d3 d4 v1 v2 v3 v4 tl m :
  xdigit d1 = Some v1 -> xdigit d2 = Some v2 ->
  xdigit d3 = Some v3 -> xdigit d4 = Some v4 ->
  4096 * v1 + 256 * v2 + 16 * v3 + v4 < MEM_OFFSET \/
  MEM_OFFSET + MEM_SIZE <= 4096 * v1 + 256 * v2 + 16 * v3 + v4 ->
  S19.line_step ("S" :: "1" :: x :: y :: d1 :: d2 :: d3 :: d4 :: tl)%char m = OK (m, false).
Proof.
  intros H1 H2 H3 H4 Hout.
  destruct (xdigit_char _ _ H1) as (R1 & _ & _ & _ & _ & _ & N1 & _).
  destruct (xdigit_char _ _ H2) as (R2 & _ & _ & _ & _ & _ & N2 & _).
  destruct (xdigit_char _ _ H3) as (R3 & _ & _ & _ & _ & _ & N3 & _).
  destruct (xdigit_char _ _ H4) as (R4 & _ & _ & _ & _ & _ & N4 & _).
  unfold S19.line_step. cbn [S19.starts_with]. rewrite !Ascii.eqb_refl. cbn [andb].
  unfold S19.s1_record.
  assert (exists s, strncpy_from ("S" :: "1" :: x :: y :: d1 :: d2 :: d3 :: d4 :: tl)%char 2 2
                    = OK s) as [s ->].
  { cbn [strncpy_from lookup list_lookup]. destruct (Ascii.eqb x NUL); [by eexists |].
    destruct (Ascii.eqb y NUL); by eexists. }
  rewrite bind_OK.
  assert (strncpy_from ("S" :: "1" :: x :: y :: d1 :: d2 :: d3 :: d4 :: tl)%char 4 4
          = OK [d1; d2; d3; d4]) as ->.
  { cbn [strncpy_from lookup list_lookup]. rewrite N1, N2, N3, N4. reflexivity. }
  rewrite bind_OK. rewrite (strtoul16_4 _ _ _ _ _ _ _ _ H1 H2 H3 H4).
  rewrite to_int_small by lia.
  replace ((_ <? MEM_OFFSET) || (_ >=? MEM_OFFSET + MEM_SIZE)) with true; [reflexivity |].
  symmetry. apply orb_true_iff. rewrite Z.geb_leb, Z.ltb_lt, Z.leb_le. exact Hout.
Qed.

Lemma C7_witness :
  S19.line_step (["S"; "1"; "1"; "3"; "0"; "1"; "a"; "F"; "4"; "2"]%char ++ [LF; NUL]) Sample.blank
  = OK (Sample.blank, false).
Proof.
  apply (C7_record_outside_window_is_skipped "1" "3" "0" "1" "a" "F" 0 1 10 15);
    [reflexivity | reflexivity | reflexivity | reflexivity | left; reflexivity].
Defined.

(** C9. A record that the address check accepts can write past the image:
    [S105F7FF0102F9] starts at 0xF7FF, inside the window, and its second
    payload byte is stored at index 0x1C00, one past the last element of
    [mem]. *)
Theorem C9_accepted_record_writes_past_the_image :
  wf_rec Sample.past_the_end /\
  MEM_OFFSET <= r_addr Sample.past_the_end < MEM_OFFSET + MEM_SIZE /\
  HRM_ICP_ReadS19 (Some (render Sample.past_the_end)) Sample.line0 Sample.hrm0 =
    Fault (WriteOOB 0x1C00) /\
  ~ (0x1C00 < MEM_SIZE).
Proof.
  split; [| split; [| split]].
  - solve_wf_rec.
  - vm_compute. split; congruence.
  - vm_compute. reflexivity.
  - vm_compute. discriminate.
Qed.

(** Why a record has to fit in the line buffer: the longest record of the
    format, with byte count 0xFF, takes 515 characters; [fgets] stops
    after 511 of them, the last payload byte is cut in two, and the
    checksum is looked for at [line[512]], past the end of the array. *)
Example longest_record_is_read_past_the_buffer :
  length (render (mkRec 0xFF 0xDC00 (replicate 252 0x12) 0)) = 515%nat /\
  HRM_ICP_ReadS19 (Some (render (mkRec 0xFF 0xDC00 (replicate 252 0x12) 0)))
    Sample.line0 Sample.hrm0 = Fault (ReadOOB 512).
Proof. split; vm_compute; reflexivity. Qed.

(** C10, as stated, fails: the digits of a record's checksum stay in the
    line buffer, and a following data line that is shorter than its byte
    count announces takes its payload from them.  The two files below
    differ in the checksum of their first record only (AB against CD), and
    the images differ at index 2. *)
Lemma C10_counterexample :
  exists h1 h2,
    HRM_ICP_ReadS19
      (Some (render (mkRec 5 0xDC00 [1; 2] 0xAB) ++ Sample.truncated_line))
      Sample.line0 Sample.hrm0 = OK (HRM_OK, h1) /\
    HRM_ICP_ReadS19
      (Some (render (mkRec 5 0xDC00 [1; 2] 0xCD) ++ Sample.truncated_line))
      Sample.line0 Sample.hrm0 = OK (HRM_OK, h2) /\
    mem h1 !! 2%nat = Some 0xAB /\ mem h2 !! 2%nat = Some 0xCD /\ mem h1 <> mem h2.
Proof.
  eexists _, _. split; [vm_compute; reflexivity |]. split; [vm_compute; reflexivity |].
  split; [reflexivity |]. split; [reflexivity |].
  intros H. apply (f_equal (fun l => l !! 2%nat)) in H. vm_compute in H. discriminate H.
Qed.

(** C10 (as amended). For files made of well-formed lines -- data records
    that hold the payload their byte count announces and fit in one line
    of the reader, and lines that do not start with [S1] -- the result of
    the reader does not depend on the checksum fields: two such files that
    differ in checksum fields only give the same return value, image,
    [icp_flag] and [icp_flag_calculated] (or the same fault), whatever the
    buffer held before.  No record is rejected for its checksum. *)
Theorem C10_result_independent_of_record_checksums xs ys line0 line0' hrm :
  Forall wf_line xs -> Forall wf_line ys ->
  Forall2 S19Spec.same_but_crc xs ys ->
  HRM_ICP_ReadS19 (Some (render_lines xs)) line0 hrm =
  HRM_ICP_ReadS19 (Some (render_lines ys)) line0' hrm.
Proof.
  intros Hx Hy Hxy. rewrite !ReadS19_lines by assumption.
  by rewrite (apply_lines_same_but_crc xs ys).
Qed.

Lemma C10_witness :
  HRM_ICP_ReadS19
    (Some (render_lines [OtherLine ["S"; "0"; "0"; "3"]%char;
                         DataRec (mkRec 5 0xDC00 [1; 2] 0xAB);
                         OtherLine ["S"; "9"]%char]))
    Sample.line0 Sample.hrm0 =
  HRM_ICP_ReadS19
    (Some (render_lines [OtherLine ["S"; "0"; "0"; "3"]%char;
                         DataRec (mkRec 5 0xDC00 [1; 2] 0x1B);
                         OtherLine ["S"; "9"]%char]))
    (replicate MAX_LINE_LEN "0"%char) Sample.hrm0.
Proof.
  apply C10_result_independent_of_record_checksums.
  - apply Forall_cons_2; [solve_wf_other |]. apply Forall_cons_2; [solve_wf_rec |].
    apply Forall_cons_2; [solve_wf_other |]. apply Forall_nil_2.
  - apply Forall_cons_2; [solve_wf_other |]. apply Forall_cons_2; [solve_wf_rec |].
    apply Forall_cons_2; [solve_wf_other |]. apply Forall_nil_2.
  - repeat constructor.
Defined.

(** ** The reading loop ends *)

Section Fuel.

Lemma fgets_take_length n : forall inp l r,
  fgets_take n inp = (l, r) -> length inp = (length l + length r)%nat.
Proof.
  induction n as [|n IH]; intros inp l r H.
  - destruct inp; injection H as <- <-; reflexivity.
  - destruct inp as [|c inp]; [injection H as <- <-; reflexivity |].
    cbn [fgets_take] in H. destruct (Ascii.eqb c LF).
    + injection H as <- <-. reflexivity.
    + destruct (fgets_take n inp) as [l' r'] eqn:Hr. injection H as <- <-.
      cbn [length]. by rewrite (IH _ _ _ Hr).
Qed.

Lemma fgets_take_progress n c inp l r :
  fgets_take (S n) (c :: inp) = (l, r) -> (1 <= length l)%nat.
Proof.
  cbn [fgets_take]. destruct (Ascii.eqb c LF).
  - intros H. injection H as <- <-. cbn. lia.
  - destruct (fgets_take n inp) as [l' r']. intros H. injection H as <- <-. cbn. lia.
Qed.

Lemma fgets_consumes line inp line' inp' :
  fgets line MAX_LINE_LEN inp = Some (line', inp') -> (length inp' < length inp)%nat.
Proof.
  unfold fgets. destruct inp as [|c inp]; [discriminate |].
  destruct (fgets_take (MAX_LINE_LEN - 1) (c :: inp)) as [l r] eqn:Hr.
  intros H. injection H as <- <-.
  pose proof (fgets_take_length _ _ _ _ Hr) as Hl.
  change (MAX_LINE_LEN - 1)%nat with (S 510) in Hr.
  pose proof (fgets_take_progress _ _ _ _ _ Hr). lia.
Qed.

(** The fuel [HRM_ICP_ReadS19] gives to the loop, the length of the file,
    is enough: any larger amount gives the same result. *)
Lemma read_loop_fuel n : forall inp fuel1 fuel2 line m,
  (length inp <= n)%nat -> (length inp <= fuel1)%nat -> (length inp <= fuel2)%nat ->
  S19.read_loop fuel1 inp line m = S19.read_loop fuel2 inp line m.
Proof.
  induction n as [|n IH]; intros inp fuel1 fuel2 line m Hn H1 H2.
  - destruct inp; [| cbn in Hn; lia]. destruct fuel1, fuel2; reflexivity.
  - destruct inp as [|c inp]; [destruct fuel1, fuel2; reflexivity |].
    destruct fuel1 as [|fuel1]; [cbn in H1; lia |].
    destruct fuel2 as [|fuel2]; [cbn in H2; lia |].
    cbn [S19.read_loop].
    destruct (fgets line MAX_LINE_LEN (c :: inp)) as [[line' inp'] |] eqn:Hg; [| reflexivity].
    apply fgets_consumes in Hg.
    destruct (S19.line_step line' m) as [[m' brk] | f]; [| reflexivity].
    rewrite !bind_OK. destruct brk; [reflexivity |].
    apply IH; lia.
Qed.

End Fuel.

(** ** How [main] reaches the erase phase *)

Section Main.

Variable E : env.

Lemma InitUSB_outcome hrm w :
  exists r hrm' w',
    HRM_ICP_InitUSB E hrm w = Ret (r, hrm') w' /\
    (r = HRM_OK /\ last_errorcode hrm' = 0 /\ is_Some (usb_dev hrm')
     \/ r = HRM_ERROR /\
        (last_errorcode hrm' = HRM_USB_OPEN_ERROR \/ last_errorcode hrm' = HRM_USB_CONFIG_ERROR)).
Proof.
  unfold HRM_ICP_InitUSB. step_prog.
  destruct (e_open E (w_opens w) ICP_VID ICP_PID) as [d|]; step_prog.
  - destruct (e_set_configuration E (w_configs w) <? 0); step_prog;
      eexists _, _, _; (split; [reflexivity |]); [right | left]; cbn; eauto.
  - eexists _, _, _. split; [reflexivity |]. right. cbn. eauto.
Qed.

Lemma init_loop_outcome n : forall hrm w,
  (0 < n)%nat ->
  exists hrm' w',
    init_loop E n hrm w = Ret hrm' w' /\
    (last_errorcode hrm' = 0 /\ is_Some (usb_dev hrm')
     \/ last_errorcode hrm' = HRM_USB_OPEN_ERROR \/ last_errorcode hrm' = HRM_USB_CONFIG_ERROR).
Proof.
  induction n as [|n IH]; intros hrm w Hn; [lia |].
  cbn [init_loop]. unfold mbind at 1, prog_bind at 1.
  destruct (InitUSB_outcome hrm w) as (r & hrm' & w' & -> & [(-> & He & Hd) | (-> & He)]).
  - eexists _, _. split; [reflexivity |]. by left.
  - cbn [Z.eqb HRM_ERROR HRM_OK]. step_prog. destruct n as [|n].
    + eexists _, _. split; [reflexivity |]. by right.
    + apply IH. lia.
Qed.

Lemma ClearICPFlag_outcome vid pid key1 key2 w :
  exists r w', HRM_ClearICPFlag E vid pid key1 key2 w = Ret r w' /\ (r = HRM_ERROR \/ r = 0).
Proof.
  unfold HRM_ClearICPFlag. step_prog. destruct (e_open E (w_opens w) vid pid); step_prog.
  - destruct (e_set_configuration E (w_configs w) <? 0); step_prog; eauto.
  - eauto.
Qed.

Lemma ReadS19_outcome file line0 hrm r hrm' :
  HRM_ICP_ReadS19 file line0 hrm = OK (r, hrm') ->
  usb_dev hrm' = usb_dev hrm /\
  (last_errorcode hrm' = 0 \/ last_errorcode hrm' = HRM_FILE_OPEN_ERROR).
Proof.
  unfold HRM_ICP_ReadS19. destruct file as [inp|].
  - destruct (S19.read_loop _ _ _ _); [| discriminate]. rewrite bind_OK.
    intros H. injection H as <- <-. cbn. auto.
  - intros H. injection H as <- <-. cbn. auto.
Qed.

Lemma fix_icp_flag_outcome hrm hrm' :
  fix_icp_flag hrm = OK hrm' ->
  usb_dev hrm' = usb_dev hrm /\ last_errorcode hrm' = last_errorcode hrm.
Proof.
  unfold fix_icp_flag. destruct (negb _); [| intros H; by injection H as <-].
  destruct (mem_put _ _ _); [| discriminate]. rewrite bind_OK.
  destruct (mem_put _ _ _); [| discriminate]. rewrite bind_OK.
  intros H. injection H as <-. auto.
Qed.

(** After the optional flag clearing, [main] either leaves with one of the
    codes 1, 2, 3, or has a fault of the reader, or enters the erase phase
    with an open handle. *)
Lemma main_session_outcome hrm0 w :
  (exists c w', main_session E hrm0 w = Exit c w' /\
     (c = HRM_USB_OPEN_ERROR \/ c = HRM_USB_CONFIG_ERROR \/ c = HRM_FILE_OPEN_ERROR))
  \/ (exists f w', main_session E hrm0 w = Undef f w')
  \/ (exists hrm d w', usb_dev hrm = Some d /\ main_session E hrm0 w = main_flash E hrm w').
Proof.
  remember (main_session E hrm0 w) as R eqn:HR.
  unfold main_session in HR. unfold mbind at 1, prog_bind at 1 in HR.
  destruct (init_loop_outcome 30 hrm0 w ltac:(lia)) as (h1 & w1 & Hrun & Hinit).
  rewrite Hrun in HR. unfold mbind at 1, prog_bind at 1, HRM_CheckError at 1 in HR.
  destruct Hinit as [[He [d Hd]] | He].
  - rewrite He in HR. cbn [Z.ltb Z.compare mret prog_ret] in HR.
    unfold mbind at 1, prog_bind at 1, lift_result at 1 in HR.
    destruct (HRM_ICP_ReadS19 (e_file E) (e_line0 E) (set_verbose_mode 1 h1))
      as [[r h2] | f] eqn:Hread; [| right; left; eauto].
    apply ReadS19_outcome in Hread as [Hd2 He2]. cbn [set_verbose_mode usb_dev] in Hd2.
    unfold mbind at 1, prog_bind at 1, HRM_CheckError at 1 in HR.
    destruct He2 as [He2 | He2]; rewrite He2 in HR;
      [| left; eexists _, _; split; [exact HR | auto]].
    cbn [Z.ltb Z.compare mret prog_ret] in HR.
    unfold mbind at 1, prog_bind at 1, lift_result at 1 in HR.
    destruct (fix_icp_flag h2) as [h3 | f] eqn:Hfix; [| right; left; eauto].
    apply fix_icp_flag_outcome in Hfix as [Hd3 _].
    right; right. exists h3, d, w1. split; [congruence | exact HR].
  - left. exists (last_errorcode h1), w1. split; [| destruct He as [-> | ->]; auto].
    rewrite HR. destruct He as [He | He]; rewrite He; reflexivity.
Qed.

(** Every run of [main] that does not hit a fault of the reader ends in
    [exit], with one of the codes of the error table or [HRM_ERROR]. *)
Lemma main_exit_codes keys hrm0 w :
  (exists f w', main E keys hrm0 w = Undef f w') \/
  exists c w', main E keys hrm0 w = Exit c w' /\
    (c = HRM_ERROR \/ c = 0 \/ c = HRM_USB_OPEN_ERROR \/ c = HRM_USB_CONFIG_ERROR \/
     c = HRM_FILE_OPEN_ERROR \/ c = HRM_FLASH_ERASE_ERROR \/ c = HRM_FLASH_PROGRAM_ERROR).
Proof.
  assert (forall w1, (exists f w', main_session E hrm0 w1 = Undef f w') \/
            exists c w', main_session E hrm0 w1 = Exit c w' /\
              (c = HRM_ERROR \/ c = 0 \/ c = HRM_USB_OPEN_ERROR \/ c = HRM_USB_CONFIG_ERROR \/
               c = HRM_FILE_OPEN_ERROR \/ c = HRM_FLASH_ERASE_ERROR \/
               c = HRM_FLASH_PROGRAM_ERROR)) as Hs.
  { intros w1.
    destruct (main_session_outcome hrm0 w1)
      as [(c & w' & -> & Hc) | [(f & w' & ->) | (hrm & d & w' & Hd & ->)]].
    - right. eexists _, _. split; [reflexivity | intuition].
    - left. eauto.
    - destruct (main_flash_outcome E hrm w' d Hd) as (c & w2 & ev & -> & _ & Hc).
      right. eexists _, _. split; [reflexivity | intuition]. }
  remember (main E keys hrm0 w) as R eqn:HR. unfold main in HR.
  destruct keys as [[a2 a3] |].
  - unfold mbind at 1, prog_bind at 1 in HR. unfold mbind at 1, prog_bind at 1 in HR.
    destruct (ClearICPFlag_outcome HID_VID HID_PID (to_uint (strtoul16 a2))
                (to_uint (strtoul16 a3)) w) as (r & w1 & Hrun & [-> | ->]);
      rewrite Hrun in HR.
    + right. exists HRM_ERROR, w1. split; [exact HR | auto].
    + rewrite HR. apply Hs.
  - rewrite HR. apply Hs.
Qed.

End Main.

(** ** A complete run *)

(** One data record with four payload bytes at 0xDC00, and a device on
    which nothing fails: the run ends with [exit(0)] after 14 erase
    transfers, the handle is closed once, and two blocks are programmed, the
    one at 0xDC00 with the payload and the one at 0xF7C0, which holds the
    ICP flag that [main] has written into the image. *)
Example complete_run_one_record :
  exists w,
    main (Sample.env_with Sample.all_good
            (Some (render (mkRec 7 0xDC00 [0x11; 0x22; 0x33; 0x44] 0))))
         None Sample.hrm0 world0 = Exit 0 w /\
    length (List.filter is_erase_transfer (w_trace w)) = 14%nat /\
    Sample.programmed_blocks (w_trace w) = [0xDC00; 0xF7C0] /\
    List.filter is_close (w_trace w) = [EvClose (Some 1%nat)].
Proof.
  eexists. split; [vm_compute; reflexivity |].
  split; [vm_compute; reflexivity |]. split; vm_compute; reflexivity.
Qed.

(** * Further properties *)

(** ** The reader on any file *)

Section ReaderInvariants.

Lemma to_uchar_byte v : is_byte (to_uchar v).
Proof. unfold is_byte, to_uchar. apply Z.mod_pos_bound. lia. Qed.

Lemma mem_put_keeps m i v m' :
  mem_put m i v = OK m' -> is_byte v -> Forall is_byte m ->
  Forall is_byte m' /\ length m' = length m.
Proof.
  unfold mem_put. destruct (i <? MEM_SIZE); [| discriminate].
  intros H Hv Hm. injection H as <-. split; [by apply Forall_insert | apply length_insert].
Qed.

Lemma data_loop_keeps n : forall line address st st',
  S19.data_loop n line address st = OK st' ->
  Forall is_byte (S19.l_mem st) ->
  Forall is_byte (S19.l_mem st') /\ length (S19.l_mem st') = length (S19.l_mem st).
Proof.
  induction n as [|n IH]; intros line address st st' H Hm.
  - injection H as <-. auto.
  - cbn [S19.data_loop] in H.
    destruct (strncpy_from line _ 2) as [s|]; [| discriminate]. rewrite bind_OK in H.
    destruct (mem_put _ _ _) as [m1|] eqn:Hput; [| discriminate]. rewrite bind_OK in H.
    apply mem_put_keeps in Hput as [Hb Hl]; [| apply to_uchar_byte | assumption].
    apply IH in H as [Hb' Hl']; [| exact Hb]. cbn [S19.l_mem] in *. split; [exact Hb' | congruence].
Qed.

Lemma line_step_keeps line m m' brk :
  S19.line_step line m = OK (m', brk) ->
  Forall is_byte m -> Forall is_byte m' /\ length m' = length m.
Proof.
  unfold S19.line_step. intros H Hm.
  destruct (S19.starts_with line "S" "1").
  - unfold S19.s1_record in H.
    destruct (strncpy_from line 2 2) as [s1|]; [| discriminate]. rewrite bind_OK in H.
    destruct (strncpy_from line 4 4) as [s2|]; [| discriminate]. rewrite bind_OK in H.
    destruct (_ || _).
    + rewrite bind_OK in H. injection H as <- <-. auto.
    + destruct (S19.data_loop _ _ _ _) as [st|] eqn:Hloop; [| discriminate].
      rewrite bind_OK in H.
      destruct (strncpy_from line _ 2) as [s3|]; [| discriminate]. rewrite !bind_OK in H.
      injection H as <- <-. cbn [S19.o_mem].
      apply data_loop_keeps in Hloop; [exact Hloop | exact Hm].
  - destruct (S19.starts_with line "S" "9"); injection H as <- <-; auto.
Qed.

Lemma read_loop_keeps fuel : forall inp line m m',
  S19.read_loop fuel inp line m = OK m' ->
  Forall is_byte m -> Forall is_byte m' /\ length m' = length m.
Proof.
  induction fuel as [|fuel IH]; intros inp line m m' H Hm.
  - cbn in H. destruct inp; [| discriminate]. injection H as <-. auto.
  - cbn [S19.read_loop] in H.
    destruct (fgets line MAX_LINE_LEN inp) as [[line' inp'] |]; [| injection H as <-; auto].
    destruct (S19.line_step line' m) as [[m1 brk] |] eqn:Hstep; [| discriminate].
    rewrite bind_OK in H. apply line_step_keeps in Hstep as [Hb Hl]; [| exact Hm].
    destruct brk; [injection H as <-; auto |].
    apply IH in H as [Hb' Hl']; [| exact Hb]. split; [exact Hb' | congruence].
Qed.

Lemma blank_bytes : Forall is_byte Sample.blank.
Proof. apply Forall_replicate. unfold is_byte. lia. Qed.

(** What [HRM_ICP_ReadS19] leaves in [hrm] when it returns, for any file
    and any buffer. *)
Lemma ReadS19_keeps file line0 hrm r hrm' :
  HRM_ICP_ReadS19 file line0 hrm = OK (r, hrm') ->
  length (mem hrm') = Z.to_nat MEM_SIZE /\ Forall is_byte (mem hrm') /\
  icp_flag_calculated hrm' =
    match file with
    | Some _ => S19.flag_calculated (mem hrm')
    | None => icp_flag_calculated hrm
    end /\
  icp_flag hrm' =
    match file with
    | Some _ => S19.flag_from_file (mem hrm')
    | None => icp_flag hrm
    end.
Proof.
  unfold HRM_ICP_ReadS19. fold Sample.blank.
  pose proof blank_bytes as Hbb.
  assert (length Sample.blank = Z.to_nat MEM_SIZE) as Hbl by apply length_replicate.
  revert Hbb Hbl. generalize Sample.blank as b. intros b Hbb Hbl.
  destruct file as [inp|].
  - cbn [set_mem mem].
    destruct (S19.read_loop _ _ _ _) as [m|] eqn:Hloop; [| discriminate]. rewrite bind_OK.
    intros H. injection H as <- <-.
    apply read_loop_keeps in Hloop as [Hb Hl]; [| exact Hbb].
    cbn [S19.icp_flags mem set_mem set_icp_flag set_icp_flag_calculated icp_flag
           icp_flag_calculated].
    split; [congruence | auto].
  - intros H. injection H as <- <-.
    cbn [mem set_mem set_last_errorcode icp_flag icp_flag_calculated]. auto.
Qed.

(** X2. After a file has been read, whatever it holds, the two flags are
    these: [icp_flag_calculated] is 65536 minus the sum, modulo 65536, of
    the 510 image bytes for 0xF600..0xF7FD, so that sum and flag add up to
    a multiple of 65536 and the flag lies in 1..65536; [icp_flag] is the
    big-endian value of the two image bytes for 0xF7FE and 0xF7FF, below
    65536. *)
Theorem X2_flags_after_reading inp line0 hrm r hrm' :
  HRM_ICP_ReadS19 (Some inp) line0 hrm = OK (r, hrm') ->
  icp_flag_calculated hrm' = 65536 - sum_list (window_bytes (mem hrm')) mod 65536 /\
  (sum_list (window_bytes (mem hrm')) + icp_flag_calculated hrm') mod 65536 = 0 /\
  1 <= icp_flag_calculated hrm' <= 65536 /\
  icp_flag hrm' =
    256 * mem_get (mem hrm') (ICP_FLAG_ADDRESS - MEM_OFFSET)
    + mem_get (mem hrm') (ICP_FLAG_ADDRESS - MEM_OFFSET + 1) /\
  0 <= icp_flag hrm' < 65536.
Proof.
  intros H. apply ReadS19_keeps in H as (Hl & Hb & Hc & Hf).
  rewrite Hc, Hf, flag_calculated_eq, checksum_sum_bytes, flag_from_file_big_endian
    by assumption.
  set (s := sum_list (window_bytes (mem hrm'))).
  pose proof (Z.mod_pos_bound s 65536 ltac:(lia)) as Hs.
  pose proof (mem_get_byte _ (ICP_FLAG_ADDRESS - MEM_OFFSET) Hb) as H1.
  pose proof (mem_get_byte _ (ICP_FLAG_ADDRESS - MEM_OFFSET + 1) Hb) as H2.
  unfold is_byte in H1, H2.
  split; [reflexivity |]. split; [| lia].
  replace (s + (65536 - s mod 65536)) with (s - s mod 65536 + 1 * 65536) by lia.
  rewrite Z.mod_add by lia. rewrite Zminus_mod_idemp_r. by rewrite Z.sub_diag.
Qed.

Lemma X2_witness :
  exists r hrm',
    HRM_ICP_ReadS19 (Some (render_file Sample.two_records)) Sample.line0 Sample.hrm0 =
      OK (r, hrm') /\
    icp_flag_calculated hrm' = 65536 - sum_list (window_bytes (mem hrm')) mod 65536 /\
    0 <= icp_flag hrm' < 65536.
Proof.
  destruct (HRM_ICP_ReadS19 (Some (render_file Sample.two_records)) Sample.line0 Sample.hrm0)
    as [[r hrm'] | f] eqn:H.
  - exists r, hrm'. split; [reflexivity |].
    destruct (X2_flags_after_reading _ _ _ _ _ H) as (Hc & _ & _ & _ & Hf).
    split; [exact Hc | exact Hf].
  - vm_compute in H. discriminate H.
Defined.

End ReaderInvariants.

(** ** The reader on files with a well-formed beginning *)

Section ReaderLines.

Import S19Spec.

Lemma read_loop_line x rest fuel line m :
  wf_line x ->
  S19.read_loop (S fuel) (render_line x ++ rest) line m =
    match x with
    | DataRec r =>
        m' ← apply_rec m r; S19.read_loop fuel rest (line_after (render r) line) m'
    | OtherLine l =>
        if S19.starts_with (l ++ [LF]) "S" "9" then OK m
        else S19.read_loop fuel rest (line_after (l ++ [LF]) line) m
    end.
Proof.
  intros Hx. destruct x as [r | l]; cbn [render_line wf_line S19.read_loop] in *.
  - rewrite render_split, <- app_assoc. cbn [app].
    rewrite fgets_line;
      [| by apply render_body_no_LF
       | pose proof (wf_fits _ Hx) as Hf; rewrite render_split, length_app in Hf;
         cbn [length] in Hf; lia].
    rewrite <- render_split. rewrite line_step_render by assumption.
    destruct (apply_rec m r) as [m' | f]; [| reflexivity].
    rewrite !bind_OK. reflexivity.
  - destruct Hx as (Hlf & Hlen & Hs1). rewrite <- app_assoc. cbn [app].
    rewrite fgets_line; [| | lia].
    + rewrite line_step_other by assumption. rewrite bind_OK.
      by destruct (S19.starts_with (l ++ [LF]) "S" "9").
    + apply Forall_forall. intros c Hin. apply Ascii.eqb_neq. intros ->. by apply Hlf.
Qed.

Lemma render_line_nonempty x : (1 <= length (render_line x))%nat.
Proof.
  destruct x as [r | l]; cbn [render_line].
  - rewrite length_render. lia.
  - rewrite length_app. cbn. lia.
Qed.

(** The reading loop on a file that begins with well-formed lines: the
    reference decides, and what follows is read only if no S9 line and no
    fault came before. *)
Lemma read_loop_prefix xs : forall rest fuel line m,
  Forall wf_line xs -> (length (render_lines xs ++ rest) <= fuel)%nat ->
  S19.read_loop fuel (render_lines xs ++ rest) line m =
    ('(m', stopped) ← run_lines m xs;
     if (stopped : bool) then OK m'
     else S19.read_loop (length rest) rest (buffer_after xs line) m').
Proof.
  induction xs as [|x xs IH]; intros rest fuel line m Hwf Hfuel.
  - cbn [render_lines mbind list_bind app run_lines buffer_after foldl] in *.
    rewrite bind_OK. apply (read_loop_fuel (length rest)); lia.
  - apply Forall_cons in Hwf as [Hx Hwf].
    change (render_lines (x :: xs)) with (render_line x ++ render_lines xs) in *.
    rewrite <- app_assoc in *. rewrite length_app in Hfuel.
    pose proof (render_line_nonempty x) as Hne.
    destruct fuel as [|fuel]; [lia |].
    rewrite read_loop_line by assumption.
    destruct x as [r | l]; cbn [run_lines buffer_after foldl render_line].
    + destruct (apply_rec m r) as [m' | f]; [| reflexivity]. rewrite !bind_OK.
      apply IH; [assumption | lia].
    + destruct (S19.starts_with (l ++ [LF]) "S" "9"); [reflexivity |].
      apply IH; [assumption | lia].
Qed.

Lemma ReadS19_prefix xs rest line0 hrm :
  Forall wf_line xs ->
  HRM_ICP_ReadS19 (Some (render_lines xs ++ rest)) line0 hrm =
    (m ← ('(m', stopped) ← run_lines Sample.blank xs;
          if (stopped : bool) then OK m'
          else S19.read_loop (length rest) rest (buffer_after xs line0) m');
     OK (HRM_OK, S19.icp_flags (set_mem m (set_last_errorcode 0 hrm)))).
Proof.
  intros Hwf. unfold HRM_ICP_ReadS19. cbn [set_mem mem]. fold Sample.blank.
  rewrite read_loop_prefix by (assumption || lia). reflexivity.
Qed.

Lemma run_lines_app xs : forall ys m,
  run_lines m (xs ++ ys) =
    ('(m', stopped) ← run_lines m xs;
     if (stopped : bool) then OK (m', true) else run_lines m' ys).
Proof.
  induction xs as [|x xs IH]; intros ys m; [reflexivity |].
  cbn [app run_lines]. destruct x as [r | l].
  - destruct (apply_rec m r); [rewrite !bind_OK; apply IH | reflexivity].
  - destruct (S19.starts_with _ _ _); [reflexivity | apply IH].
Qed.

Lemma run_lines_harmless xs : forall m,
  Forall harmless xs -> Forall not_S9 xs ->
  exists m', run_lines m xs = OK (m', false).
Proof.
  induction xs as [|x xs IH]; intros m Hh Hn; [by eexists |].
  apply Forall_cons in Hh as [Hx Hh]. apply Forall_cons in Hn as [Hnx Hn].
  cbn [run_lines]. destruct x as [r | l]; cbn [harmless not_S9] in *.
  - assert (exists m', apply_rec m r = OK m') as [m' ->].
    { unfold apply_rec. destruct (_ || _) eqn:Hw; [by eexists |].
      apply orb_false_elim in Hw as [Hw1 Hw2].
      apply Z.ltb_ge in Hw1. rewrite Z.geb_leb in Hw2. apply Z.leb_gt in Hw2.
      rewrite (proj2 (Z.leb_le _ _)) by lia. by eexists. }
    rewrite bind_OK. by apply IH.
  - rewrite Hnx. by apply IH.
Qed.

Lemma apply_lines_harmless xs : forall m,
  Forall harmless xs -> exists m', apply_lines m xs = OK m'.
Proof.
  induction xs as [|x xs IH]; intros m Hh; [by eexists |].
  apply Forall_cons in Hh as [Hx Hh].
  cbn [apply_lines]. destruct x as [r | l]; cbn [harmless] in *.
  - assert (exists m', apply_rec m r = OK m') as [m' ->].
    { unfold apply_rec. destruct (_ || _) eqn:Hw; [by eexists |].
      apply orb_false_elim in Hw as [Hw1 Hw2].
      apply Z.ltb_ge in Hw1. rewrite Z.geb_leb in Hw2. apply Z.leb_gt in Hw2.
      rewrite (proj2 (Z.leb_le _ _)) by lia. by eexists. }
    rewrite bind_OK. by apply IH.
  - destruct (S19.starts_with _ _ _); [by eexists | by apply IH].
Qed.

(** X3. In a file of well-formed lines, a data record for an address
    outside the window and a line that starts with neither [S1] nor [S9]
    count for nothing: with the line taken out of the file the reader
    returns the same value, image and flags (or the same fault). *)
Theorem X3_passed_over_lines_do_not_count pre x post line0 hrm :
  Forall wf_line (pre ++ x :: post) -> passed_over x ->
  HRM_ICP_ReadS19 (Some (render_lines (pre ++ x :: post))) line0 hrm =
  HRM_ICP_ReadS19 (Some (render_lines (pre ++ post))) line0 hrm.
Proof.
  intros Hwf Hx.
  assert (Forall wf_line (pre ++ post)) as Hwf'.
  { apply Forall_app in Hwf as [Hpre Hpost]. apply Forall_cons in Hpost as [_ Hpost].
    by apply Forall_app. }
  rewrite !ReadS19_lines by assumption. f_equal.
  generalize Sample.blank. clear Hwf Hwf'.
  induction pre as [|y pre IH]; intros m.
  - cbn [app apply_lines]. destruct x as [r | l]; cbn [passed_over] in Hx.
    + by rewrite apply_rec_outside, bind_OK.
    + by rewrite Hx.
  - cbn [app apply_lines]. destruct y as [r' | l'].
    + destruct (apply_rec m r'); [rewrite !bind_OK; apply IH | reflexivity].
    + destruct (S19.starts_with _ _ _); [reflexivity | apply IH].
Qed.

Lemma X3_witness :
  HRM_ICP_ReadS19
    (Some (render_lines ([DataRec (mkRec 5 0xDC00 [1; 2] 0xAB)] ++
                         OtherLine ["S"; "5"; "x"]%char ::
                         [DataRec (mkRec 4 0xDC10 [7] 0)])))
    Sample.line0 Sample.hrm0 =
  HRM_ICP_ReadS19
    (Some (render_lines ([DataRec (mkRec 5 0xDC00 [1; 2] 0xAB)] ++
                         [DataRec (mkRec 4 0xDC10 [7] 0)])))
    Sample.line0 Sample.hrm0.
Proof.
  apply X3_passed_over_lines_do_not_count; [| reflexivity].
  apply Forall_cons_2; [solve_wf_rec |]. apply Forall_cons_2; [solve_wf_other |].
  apply Forall_cons_2; [solve_wf_rec |]. apply Forall_nil_2.
Defined.

(** X4. Reading ends at an S9 line: when the lines up to and including
    the first S9 line are well formed, nothing that follows it in the file
    -- data records, garbage, lines of any length -- has any effect on what
    the reader returns. *)
Theorem X4_nothing_is_read_after_S9 pre l rest line0 hrm :
  Forall wf_line pre -> wf_line (OtherLine l) ->
  S19.starts_with (l ++ [LF]) "S" "9" = true ->
  HRM_ICP_ReadS19 (Some (render_lines (pre ++ [OtherLine l]) ++ rest)) line0 hrm =
  HRM_ICP_ReadS19 (Some (render_lines (pre ++ [OtherLine l]))) line0 hrm.
Proof.
  intros Hpre Hl H9.
  assert (Forall wf_line (pre ++ [OtherLine l])) as Hwf
    by (apply Forall_app; split; [assumption | by apply Forall_singleton]).
  rewrite <- (app_nil_r (render_lines (pre ++ [OtherLine l]))) at 2.
  rewrite !ReadS19_prefix by assumption. f_equal.
  rewrite run_lines_app. cbn [run_lines]. rewrite H9.
  destruct (run_lines Sample.blank pre) as [[m' stopped] | f]; [| reflexivity].
  rewrite !bind_OK. destruct stopped; reflexivity.
Qed.

Lemma X4_witness :
  HRM_ICP_ReadS19
    (Some (render_lines ([DataRec (mkRec 5 0xDC00 [1; 2] 0xAB)] ++ [OtherLine ["S"; "9"]%char])
           ++ render Sample.past_the_end))
    Sample.line0 Sample.hrm0 =
  HRM_ICP_ReadS19
    (Some (render_lines ([DataRec (mkRec 5 0xDC00 [1; 2] 0xAB)] ++ [OtherLine ["S"; "9"]%char])))
    Sample.line0 Sample.hrm0.
Proof.
  apply X4_nothing_is_read_after_S9; [| solve_wf_other | reflexivity].
  apply Forall_cons_2; [solve_wf_rec |]. apply Forall_nil_2.
Defined.

(** X5. The reader stays inside the image on every file of well-formed
    lines in which each data record that starts in the window also ends in
    it: it returns [HRM_OK], without fault.  Records outside the window,
    other lines and an S9 line may occur anywhere. *)
Theorem X5_no_fault_when_records_end_in_the_window xs line0 hrm :
  Forall wf_line xs -> Forall harmless xs ->
  exists hrm', HRM_ICP_ReadS19 (Some (render_lines xs)) line0 hrm = OK (HRM_OK, hrm').
Proof.
  intros Hwf Hh. rewrite ReadS19_lines by assumption.
  destruct (apply_lines_harmless xs Sample.blank Hh) as [m' ->].
  rewrite bind_OK. by eexists.
Qed.

Lemma X5_witness :
  exists hrm',
    HRM_ICP_ReadS19
      (Some (render_lines [OtherLine ["S"; "0"; "0"; "3"]%char;
                           DataRec (mkRec 5 0x1000 [1; 2] 0);
                           DataRec (mkRec 5 0xF7FE [3; 4] 0);
                           OtherLine ["S"; "9"]%char]))
      Sample.line0 Sample.hrm0 = OK (HRM_OK, hrm').
Proof.
  apply X5_no_fault_when_records_end_in_the_window.
  - apply Forall_cons_2; [solve_wf_other |]. apply Forall_cons_2; [solve_wf_rec |].
    apply Forall_cons_2; [solve_wf_rec |]. apply Forall_cons_2; [solve_wf_other |].
    apply Forall_nil_2.
  - apply Forall_cons_2; [exact I |].
    apply Forall_cons_2; [vm_compute; intros [H _]; by destruct H |].
    apply Forall_cons_2; [vm_compute; intros _ H; discriminate H |].
    apply Forall_cons_2; [exact I | apply Forall_nil_2].
Defined.

(** X6. The first data record that starts in the window and does not end
    in it makes the reader write at index [MEM_SIZE], one past the image:
    when the lines before it are well formed, stay inside the image and
    hold no S9 line, the run of the reader is a fault at that index,
    whatever follows the record in the file. *)
Theorem X6_first_overlong_record_writes_at_MEM_SIZE pre r rest line0 hrm :
  Forall wf_line pre -> Forall harmless pre -> Forall not_S9 pre ->
  wf_rec r ->
  MEM_OFFSET <= r_addr r < MEM_OFFSET + MEM_SIZE ->
  MEM_OFFSET + MEM_SIZE < r_addr r + Z.of_nat (length (r_data r)) ->
  HRM_ICP_ReadS19 (Some (render_lines (pre ++ [DataRec r]) ++ rest)) line0 hrm =
    Fault (WriteOOB MEM_SIZE).
Proof.
  intros Hpre Hh Hn Hr Hstart Hend.
  assert (Forall wf_line (pre ++ [DataRec r])) as Hwf
    by (apply Forall_app; split; [assumption | by apply Forall_singleton]).
  rewrite ReadS19_prefix by assumption. rewrite run_lines_app.
  destruct (run_lines_harmless pre Sample.blank Hh Hn) as [m' ->].
  rewrite bind_OK. cbn [run_lines]. unfold apply_rec.
  replace ((r_addr r <? MEM_OFFSET) || (r_addr r >=? MEM_OFFSET + MEM_SIZE)) with false.
  - rewrite (proj2 (Z.leb_gt _ _)) by lia. reflexivity.
  - symmetry. apply orb_false_intro; [apply Z.ltb_ge; lia |].
    rewrite Z.geb_leb. apply Z.leb_gt. lia.
Qed.

Lemma X6_witness :
  HRM_ICP_ReadS19
    (Some (render_lines ([DataRec (mkRec 5 0xDC00 [1; 2] 0xAB)] ++ [DataRec Sample.past_the_end])
           ++ Sample.truncated_line))
    Sample.line0 Sample.hrm0 = Fault (WriteOOB MEM_SIZE).
Proof.
  apply X6_first_overlong_record_writes_at_MEM_SIZE.
  - apply Forall_cons_2; [solve_wf_rec |]. apply Forall_nil_2.
  - apply Forall_cons_2; [| apply Forall_nil_2]. vm_compute. intros _ H. discriminate H.
  - apply Forall_cons_2; [exact I | apply Forall_nil_2].
  - solve_wf_rec.
  - vm_compute. split; [intros H; discriminate H | reflexivity].
  - vm_compute. reflexivity.
Defined.

End ReaderLines.

(** ** A byte count below the minimum *)

(** X7. A data line whose byte-count field is 3 or less holds no payload:
    the loop over the payload is not entered (the count minus 3 is not
    positive), no byte of the image is written, and the reading goes on,
    wherever the address points. *)
Theorem X7_byte_count_up_to_3_writes_nothing
    c1 c2 d1 d2 d3 d4 e1 e2 tl n1 n2 v1 v2 v3 v4 m :
  xdigit c1 = Some n1 -> xdigit c2 = Some n2 -> 16 * n1 + n2 <= 3 ->
  xdigit d1 = Some v1 -> xdigit d2 = Some v2 ->
  xdigit d3 = Some v3 -> xdigit d4 = Some v4 ->
  S19.line_step ("S" :: "1" :: c1 :: c2 :: d1 :: d2 :: d3 :: d4 :: e1 :: e2 :: tl)%char m
  = OK (m, false).
Proof.
  intros C1 C2 Hc H1 H2 H3 H4.
  destruct (xdigit_char _ _ C1) as (Q1 & _ & _ & _ & _ & _ & K1 & _).
  destruct (xdigit_char _ _ C2) as (Q2 & _ & _ & _ & _ & _ & K2 & _).
  destruct (xdigit_char _ _ H1) as (R1 & _ & _ & _ & _ & _ & N1 & _).
  destruct (xdigit_char _ _ H2) as (R2 & _ & _ & _ & _ & _ & N2 & _).
  destruct (xdigit_char _ _ H3) as (R3 & _ & _ & _ & _ & _ & N3 & _).
  destruct (xdigit_char _ _ H4) as (R4 & _ & _ & _ & _ & _ & N4 & _).
  unfold S19.line_step. cbn [S19.starts_with]. rewrite !Ascii.eqb_refl. cbn [andb].
  unfold S19.s1_record.
  cbn [strncpy_from lookup list_lookup]. rewrite K1, K2, N1, N2, N3, N4.
  rewrite !bind_OK.
  rewrite (strtoul16_2 _ _ _ _ C1 C2), (strtoul16_4 _ _ _ _ _ _ _ _ H1 H2 H3 H4).
  rewrite !to_int_small by lia.
  destruct (_ || _); [reflexivity |].
  replace (Z.to_nat (16 * n1 + n2 - 3)) with 0%nat by lia.
  cbn [S19.data_loop]. rewrite bind_OK. cbn [S19.l_i S19.l_mem].
  change (Z.to_nat (8 + 2 * 0)) with 8%nat. cbn [strncpy_from lookup list_lookup].
  destruct (Ascii.eqb e1 NUL); [reflexivity |].
  destruct (Ascii.eqb e2 NUL); reflexivity.
Qed.

Lemma X7_witness :
  S19.line_step (["S"; "1"; "0"; "2"; "D"; "C"; "0"; "0"; "A"; "B"]%char ++ [LF; NUL])
    Sample.blank
  = OK (Sample.blank, false).
Proof.
  apply (X7_byte_count_up_to_3_writes_nothing "0" "2" "D" "C" "0" "0" "A" "B" [LF; NUL]
           0 2 13 12 0 0); try reflexivity. lia.
Defined.

(** ** The flag and its repair *)

Section Repair.

Lemma window_bytes_frame m k v :
  (k < Z.to_nat (ICP_CHECKSUM_START - MEM_OFFSET) \/
   Z.to_nat (ICP_FLAG_ADDRESS - MEM_OFFSET) <= k)%nat ->
  window_bytes (<[k := v]> m) = window_bytes m.
Proof.
  intros Hk. unfold window_bytes. apply list_fmap_ext. intros j i Hi.
  apply lookup_seqZ in Hi as [-> Hj]. unfold mem_get.
  rewrite list_lookup_insert_ne; [reflexivity |].
  unfold ICP_FLAG_ADDRESS, ICP_CHECKSUM_START, ICP_CHECKSUM_STOP, MEM_OFFSET in *. lia.
Qed.

(** X8. The computed flag depends on the image bytes for 0xF600..0xF7FD
    only: a write anywhere else in the image -- below the checksum window,
    or on the two flag bytes at 0xF7FE and 0xF7FF -- leaves it as it
    was. *)
Theorem X8_flag_calculated_reads_the_window_only m k v :
  (k < Z.to_nat (ICP_CHECKSUM_START - MEM_OFFSET) \/
   Z.to_nat (ICP_FLAG_ADDRESS - MEM_OFFSET) <= k)%nat ->
  S19.flag_calculated (<[k := v]> m) = S19.flag_calculated m.
Proof.
  intros Hk. rewrite !flag_calculated_eq, !checksum_sum_window.
  by rewrite window_bytes_frame.
Qed.

Lemma X8_witness :
  S19.flag_calculated (<[Z.to_nat (ICP_FLAG_ADDRESS - MEM_OFFSET) := 0x12]> Sample.blank) =
  S19.flag_calculated Sample.blank.
Proof.
  apply X8_flag_calculated_reads_the_window_only. right. lia.
Defined.

Lemma flag_calculated_after_repair m a b :
  S19.flag_calculated
    (<[Z.to_nat (ICP_FLAG_ADDRESS - MEM_OFFSET + 1) := b]>
       (<[Z.to_nat (ICP_FLAG_ADDRESS - MEM_OFFSET) := a]> m)) =
  S19.flag_calculated m.
Proof.
  rewrite !flag_calculated_eq, !checksum_sum_window.
  rewrite !window_bytes_frame; [reflexivity | |];
    right; unfold ICP_FLAG_ADDRESS, MEM_OFFSET; lia.
Qed.

Lemma flag_indices (m : list Z) :
  length m = Z.to_nat MEM_SIZE ->
  (Z.to_nat (ICP_FLAG_ADDRESS - MEM_OFFSET) < length m)%nat /\
  (Z.to_nat (ICP_FLAG_ADDRESS - MEM_OFFSET + 1) < length m)%nat /\
  Z.to_nat (ICP_FLAG_ADDRESS - MEM_OFFSET + 1) <> Z.to_nat (ICP_FLAG_ADDRESS - MEM_OFFSET).
Proof.
  intros ->. unfold ICP_FLAG_ADDRESS, MEM_OFFSET, MEM_SIZE. lia.
Qed.

(** X9. The repair in [main] never faults.  When the two flags are equal
    it writes nothing; when they differ it stores the high and the low
    byte of [icp_flag_calculated] (each cut to eight bits) at the image
    indices for 0xF7FE and 0xF7FF and changes no other byte, nor the
    handle, nor the error code, nor the value the flag computation gives
    for the image. *)
Theorem X9_repair_writes_the_two_flag_bytes_only hrm :
  length (mem hrm) = Z.to_nat MEM_SIZE ->
  exists hrm',
    fix_icp_flag hrm = OK hrm' /\
    (icp_flag hrm = icp_flag_calculated hrm -> hrm' = hrm) /\
    (icp_flag hrm <> icp_flag_calculated hrm ->
       mem hrm' !! Z.to_nat (ICP_FLAG_ADDRESS - MEM_OFFSET) =
         Some (to_uchar (Z.shiftr (icp_flag_calculated hrm) 8)) /\
       mem hrm' !! Z.to_nat (ICP_FLAG_ADDRESS - MEM_OFFSET + 1) =
         Some (to_uchar (Z.land (icp_flag_calculated hrm) 0xff))) /\
    (forall k, k <> Z.to_nat (ICP_FLAG_ADDRESS - MEM_OFFSET) ->
               k <> Z.to_nat (ICP_FLAG_ADDRESS - MEM_OFFSET + 1) ->
               mem hrm' !! k = mem hrm !! k) /\
    length (mem hrm') = length (mem hrm) /\
    S19.flag_calculated (mem hrm') = S19.flag_calculated (mem hrm) /\
    usb_dev hrm' = usb_dev hrm /\ last_errorcode hrm' = last_errorcode hrm.
Proof.
  intros Hlen. destruct (flag_indices _ Hlen) as (Hi1 & Hi2 & Hne).
  unfold fix_icp_flag.
  destruct (icp_flag hrm =? icp_flag_calculated hrm) eqn:He; cbn [negb].
  - apply Z.eqb_eq in He. exists hrm. repeat split; try done.
  - apply Z.eqb_neq in He.
    rewrite (mem_put_inside _ (ICP_FLAG_ADDRESS - MEM_OFFSET)) by reflexivity.
    rewrite bind_OK.
    rewrite (mem_put_inside _ (ICP_FLAG_ADDRESS - MEM_OFFSET + 1)) by reflexivity.
    rewrite bind_OK. eexists. split; [reflexivity |]. cbn [mem set_mem usb_dev last_errorcode].
    split; [done |]. split; [intros _; split |]; [| | split; [| split; [| split]]].
    + rewrite list_lookup_insert_ne by exact Hne. by apply list_lookup_insert_eq.
    + apply list_lookup_insert_eq. by rewrite length_insert.
    + intros k Hk1 Hk2. by rewrite !list_lookup_insert_ne by done.
    + by rewrite !length_insert.
    + apply flag_calculated_after_repair.
    + done.
Qed.

Lemma X9_witness :
  icp_flag (S19.icp_flags (Sample.session Sample.blank)) <>
    icp_flag_calculated (S19.icp_flags (Sample.session Sample.blank)) /\
  exists hrm',
    fix_icp_flag (S19.icp_flags (Sample.session Sample.blank)) = OK hrm' /\
    (mem hrm' !! Z.to_nat (ICP_FLAG_ADDRESS - MEM_OFFSET) =
       Some (to_uchar
               (Z.shiftr (icp_flag_calculated (S19.icp_flags (Sample.session Sample.blank))) 8)) /\
     mem hrm' !! Z.to_nat (ICP_FLAG_ADDRESS - MEM_OFFSET + 1) =
       Some (to_uchar
               (Z.land (icp_flag_calculated (S19.icp_flags (Sample.session Sample.blank)))
                  0xff))) /\
    (forall k, k <> Z.to_nat (ICP_FLAG_ADDRESS - MEM_OFFSET) ->
               k <> Z.to_nat (ICP_FLAG_ADDRESS - MEM_OFFSET + 1) ->
               mem hrm' !! k = mem (S19.icp_flags (Sample.session Sample.blank)) !! k).
Proof.
  assert (icp_flag (S19.icp_flags (Sample.session Sample.blank)) <>
            icp_flag_calculated (S19.icp_flags (Sample.session Sample.blank))) as Hne
    by (vm_compute; intros H; discriminate H).
  split; [exact Hne |].
  destruct (X9_repair_writes_the_two_flag_bytes_only
              (S19.icp_flags (Sample.session Sample.blank)))
    as (hrm' & Hfix & _ & Hw & Hk & _); [apply length_replicate |].
  exists hrm'. split; [exact Hfix |]. split; [exact (Hw Hne) | exact Hk].
Defined.

Lemma fix_icp_flag_unfold hrm :
  fix_icp_flag hrm =
    if negb (icp_flag hrm =? icp_flag_calculated hrm) then
      OK (set_mem
            (<[Z.to_nat (ICP_FLAG_ADDRESS - MEM_OFFSET + 1) :=
                 to_uchar (Z.land (icp_flag_calculated hrm) 0xff)]>
               (<[Z.to_nat (ICP_FLAG_ADDRESS - MEM_OFFSET) :=
                    to_uchar (Z.shiftr (icp_flag_calculated hrm) 8)]> (mem hrm)))
            hrm)
    else OK hrm.
Proof.
  unfold fix_icp_flag. destruct (negb _); [| reflexivity].
  rewrite (mem_put_inside _ (ICP_FLAG_ADDRESS - MEM_OFFSET)) by reflexivity.
  rewrite bind_OK.
  rewrite (mem_put_inside _ (ICP_FLAG_ADDRESS - MEM_OFFSET + 1)) by reflexivity.
  by rewrite bind_OK.
Qed.

Lemma mem_icp_flags hrm : mem (S19.icp_flags hrm) = mem hrm.
Proof. destruct hrm. reflexivity. Qed.

Lemma icp_flag_icp_flags hrm : icp_flag (S19.icp_flags hrm) = S19.flag_from_file (mem hrm).
Proof. destruct hrm. reflexivity. Qed.

Lemma icp_flag_calculated_icp_flags hrm :
  icp_flag_calculated (S19.icp_flags hrm) = S19.flag_calculated (mem hrm).
Proof. destruct hrm. reflexivity. Qed.

Lemma mem_set_mem m hrm : mem (set_mem m hrm) = m.
Proof. reflexivity. Qed.

(** X10. Repairing twice is repairing once, on every image: after the
    check and repair of [main], computing the flags again and running the
    check and repair again leaves the image as the first pass left it. *)
Theorem X10_second_repair_leaves_the_image hrm h1 :
  length (mem hrm) = Z.to_nat MEM_SIZE ->
  fix_icp_flag (S19.icp_flags hrm) = OK h1 ->
  exists h2, fix_icp_flag (S19.icp_flags h1) = OK h2 /\ mem h2 = mem h1.
Proof.
  intros Hlen H1. destruct (flag_indices _ Hlen) as (Hi1 & Hi2 & Hne).
  rewrite fix_icp_flag_unfold in H1. rewrite fix_icp_flag_unfold.
  rewrite icp_flag_icp_flags, icp_flag_calculated_icp_flags, mem_icp_flags in *.
  destruct (negb (S19.flag_from_file (mem hrm) =? S19.flag_calculated (mem hrm))) eqn:Hb.
  - injection H1 as <-. rewrite !mem_set_mem, flag_calculated_after_repair.
    match goal with |- context [negb ?c] => destruct (negb c) end;
      (eexists; split; [reflexivity |]); rewrite ?mem_icp_flags, ?mem_set_mem;
      [| reflexivity].
    rewrite (list_insert_id (<[_ := _]> (<[_ := _]> (mem hrm)))
               (Z.to_nat (ICP_FLAG_ADDRESS - MEM_OFFSET))).
    + apply list_insert_id. apply list_lookup_insert_eq. by rewrite length_insert.
    + rewrite list_lookup_insert_ne by exact Hne. by apply list_lookup_insert_eq.
  - injection H1 as <-. rewrite mem_icp_flags, Hb.
    eexists. split; [reflexivity |]. by rewrite !mem_icp_flags.
Qed.

Lemma X10_witness :
  exists h1 h2,
    fix_icp_flag (S19.icp_flags (Sample.session Sample.blank)) = OK h1 /\
    fix_icp_flag (S19.icp_flags h1) = OK h2 /\ mem h2 = mem h1.
Proof.
  destruct (fix_icp_flag (S19.icp_flags (Sample.session Sample.blank))) as [h1 | f] eqn:H.
  - destruct (X10_second_repair_leaves_the_image (Sample.session Sample.blank) h1)
      as (h2 & H2 & Hm); [apply length_replicate | exact H |].
    exists h1, h2. split; [reflexivity |]. split; [exact H2 | exact Hm].
  - vm_compute in H. discriminate H.
Defined.

End Repair.

(** ** Single operations on the device *)

Section DeviceOperations.

Variable E : env.

Lemma EraseFlash_unfold hrm :
  HRM_ICP_EraseFlash E hrm =
    ('(r, hrm') ← HRM_ICP_EraseFlashBlock E (set_last_errorcode 0 hrm) MEM_OFFSET;
     if r =? HRM_ERROR then
       mret (HRM_ERROR, set_last_errorcode HRM_FLASH_ERASE_ERROR hrm')
     else erase_loop E (Z.to_nat (MEM_SIZE - 1)) (MEM_OFFSET + MEM_BLOCK_SIZE) hrm').
Proof.
  unfold HRM_ICP_EraseFlash.
  replace (Z.to_nat MEM_SIZE) with (S (Z.to_nat (MEM_SIZE - 1))) by (unfold MEM_SIZE; lia).
  by rewrite erase_loop_unfold by reflexivity.
Qed.

(** X11. Without a handle nothing is asked of the device: the erase phase
    returns [HRM_ERROR] with the flash-erase error code at its first block,
    with no transfer and no delay, and the rest of [main] leaves with
    exit code 4. *)
Theorem X11_erase_phase_without_handle hrm w :
  usb_dev hrm = None ->
  HRM_ICP_EraseFlash E hrm w =
    Ret (HRM_ERROR, set_last_errorcode HRM_FLASH_ERASE_ERROR hrm) w /\
  main_flash E hrm w = Exit HRM_FLASH_ERASE_ERROR w.
Proof.
  intros Hd.
  assert (HRM_ICP_EraseFlash E hrm w =
            Ret (HRM_ERROR, set_last_errorcode HRM_FLASH_ERASE_ERROR hrm) w) as Hrun.
  { rewrite EraseFlash_unfold. unfold mbind, prog_bind, HRM_ICP_EraseFlashBlock.
    cbn [usb_dev set_last_errorcode]. rewrite Hd. reflexivity. }
  split; [exact Hrun |].
  unfold main_flash, mbind, prog_bind. rewrite Hrun. reflexivity.
Qed.

(** X12. An erase-block operation on an open handle always takes the same
    four steps -- the erase transfer for [a .. a+511], 5 ms, the status
    poll, 5 ms -- and its outcome is decided by the reply to the poll
    alone: it returns [HRM_OK] with error code 0 exactly when the poll
    returned one byte (a return value that is 1 modulo 256) and that byte
    is 1; otherwise [HRM_ERROR] with the flash-erase error code.  The
    image and the handle are left as they were. *)
Theorem X12_erase_block_operation hrm a w d :
  usb_dev hrm = Some d ->
  exists r e,
    HRM_ICP_EraseFlashBlock E hrm a w =
      Ret (r, set_last_errorcode e hrm) (advance w 2 (erase_block_events (Some d) a)) /\
    (r = HRM_OK /\ e = 0 \/ r = HRM_ERROR /\ e = HRM_FLASH_ERASE_ERROR) /\
    (r = HRM_OK <->
       c_status (e_control E (S (w_controls w))) = 1 /\
       to_uchar (c_ret (e_control E (S (w_controls w)))) = 1).
Proof.
  intros Hd. rewrite (EraseFlashBlock_run E hrm a w d Hd), Hd. unfold erase_poll_ok.
  destruct (c_status _ =? 1) eqn:Hs, (to_uchar _ =? 1) eqn:Hr; cbn [andb];
    eexists _, _; (split; [reflexivity |]);
    rewrite ?Z.eqb_eq, ?Z.eqb_neq in *;
    (split; [auto |]); split; try done; intros [? ?]; done.
Qed.

(** X13. A program-block operation on a block that holds only 0xFF does
    nothing at all.  On any other block it sends the block, and then:
    if the return value is not 64 (modulo 256) it stops with
    [HRM_ERROR] and the flash-program error code, without delay or poll;
    else it waits 70 ms and polls, and if the poll did not return 1
    (modulo 256) it stops in the same way; else it waits 5 ms and the
    loop goes on. *)
Theorem X13_program_block_operation hrm a w :
  (block_valid (mem hrm) a = false -> program_block E hrm a w = Ret (None, hrm) w) /\
  (block_valid (mem hrm) a = true ->
     exists r e k,
       program_block E hrm a w =
         Ret (r, set_last_errorcode e hrm)
             (advance w (Nat.min k 2)
                (take k (program_block_events (usb_dev hrm) (mem hrm) a))) /\
       (r = None /\ e = last_errorcode hrm /\ k = 4%nat
        \/ r = Some HRM_ERROR /\ e = HRM_FLASH_PROGRAM_ERROR /\ (k = 1%nat \/ k = 3%nat)) /\
       (k = 1%nat <->
          to_uchar (c_ret (e_control E (w_controls w))) <> MEM_PROG_BLOCK_SIZE) /\
       (k = 4%nat <->
          to_uchar (c_ret (e_control E (w_controls w))) = MEM_PROG_BLOCK_SIZE /\
          to_uchar (c_ret (e_control E (S (w_controls w)))) = 1)).
Proof.
  rewrite program_block_run. split; intros Hv; rewrite Hv; [reflexivity |].
  unfold program_issue_ok, program_poll_ok.
  destruct (to_uchar (c_ret (e_control E (w_controls w))) =? _) eqn:H1.
  - destruct (to_uchar (c_ret (e_control E (S (w_controls w)))) =? 1) eqn:H2;
      rewrite ?Z.eqb_eq, ?Z.eqb_neq in *.
    + exists None, (last_errorcode hrm), 4%nat.
      rewrite set_last_errorcode_same by reflexivity.
      split; [reflexivity |]. split; [auto |]. split; [split; [lia | done] | done].
    + exists (Some HRM_ERROR), HRM_FLASH_PROGRAM_ERROR, 3%nat.
      split; [reflexivity |]. split; [auto |].
      split; [split; [lia | done] | split; [lia | intros [? ?]; done]].
  - rewrite Z.eqb_neq in H1.
    exists (Some HRM_ERROR), HRM_FLASH_PROGRAM_ERROR, 1%nat.
    split; [reflexivity |]. split; [auto |].
    split; [done | split; [lia | intros [? ?]; done]].
Qed.

End DeviceOperations.

Lemma X11_witness :
  HRM_ICP_EraseFlash (Sample.env_with Sample.all_good None) Sample.hrm0 world0 =
    Ret (HRM_ERROR, set_last_errorcode HRM_FLASH_ERASE_ERROR Sample.hrm0) world0 /\
  main_flash (Sample.env_with Sample.all_good None) Sample.hrm0 world0 = Exit HRM_FLASH_ERASE_ERROR world0.
Proof. apply (X11_erase_phase_without_handle (Sample.env_with Sample.all_good None)). reflexivity. Defined.

Lemma X12_witness :
  exists r e,
    HRM_ICP_EraseFlashBlock (Sample.env_with Sample.all_good None) (Sample.session Sample.blank) MEM_OFFSET world0 =
      Ret (r, set_last_errorcode e (Sample.session Sample.blank))
          (advance world0 2 (erase_block_events (Some 1%nat) MEM_OFFSET)) /\
    (r = HRM_OK /\ e = 0 \/ r = HRM_ERROR /\ e = HRM_FLASH_ERASE_ERROR) /\
    (r = HRM_OK <->
       c_status (e_control (Sample.env_with Sample.all_good None) (S (w_controls world0))) = 1 /\
       to_uchar (c_ret (e_control (Sample.env_with Sample.all_good None) (S (w_controls world0)))) = 1).
Proof. apply (X12_erase_block_operation (Sample.env_with Sample.all_good None)). reflexivity. Defined.

Lemma X13_witness :
  exists r e k,
    program_block (Sample.env_with Sample.all_good None) (Sample.session Sample.one_byte) MEM_OFFSET world0 =
      Ret (r, set_last_errorcode e (Sample.session Sample.one_byte))
          (advance world0 (Nat.min k 2)
             (take k (program_block_events (Some 1%nat) Sample.one_byte MEM_OFFSET))) /\
    (r = None /\ e = 0 /\ k = 4%nat
     \/ r = Some HRM_ERROR /\ e = HRM_FLASH_PROGRAM_ERROR /\ (k = 1%nat \/ k = 3%nat)).
Proof.
  destruct (proj2 (X13_program_block_operation (Sample.env_with Sample.all_good None) (Sample.session Sample.one_byte)
                     MEM_OFFSET world0))
    as (r & e & k & Hrun & Hcase & _); [vm_compute; reflexivity |].
  exists r, e, k. split; [exact Hrun | exact Hcase].
Defined.

(** X14. The program phase never looks at a status byte: on two devices
    whose transfers return the same values it does the same thing and
    returns the same result, whatever status bytes they report. *)
Theorem X14_program_phase_ignores_status_bytes E E' hrm w :
  (forall k, c_ret (e_control E k) = c_ret (e_control E' k)) ->
  HRM_ICP_ProgramFlash E hrm w = HRM_ICP_ProgramFlash E' hrm w.
Proof.
  intros Hret. unfold HRM_ICP_ProgramFlash.
  generalize (set_last_errorcode 0 hrm) as h. generalize MEM_OFFSET as i. revert w.
  induction (Z.to_nat MEM_SIZE) as [|fuel IH]; intros w i h.
  - cbn [program_loop]. reflexivity.
  - cbn [program_loop]. destruct (i <? MEM_OFFSET + MEM_SIZE); [| reflexivity].
    unfold mbind, prog_bind. rewrite !program_block_run.
    unfold program_issue_ok, program_poll_ok. rewrite !Hret.
    destruct (block_valid (mem h) i); [| apply IH].
    destruct (_ =? MEM_PROG_BLOCK_SIZE); [| reflexivity].
    destruct (_ =? 1); [apply IH | reflexivity].
Qed.

Lemma X14_witness :
  (c_status (Sample.program_status_bad 1) = 0 /\
   c_status (Sample.with_status 1 Sample.program_status_bad 1) = 1) /\
  HRM_ICP_ProgramFlash (Sample.env_with Sample.program_status_bad None)
      (Sample.session Sample.two_blocks) world0 =
    Ret (HRM_OK, Sample.session Sample.two_blocks)
        (advance world0 4
           (program_block_events (Some 1%nat) Sample.two_blocks 0xDC00 ++
            program_block_events (Some 1%nat) Sample.two_blocks 0xDC40)) /\
  HRM_ICP_ProgramFlash (Sample.env_with Sample.program_status_bad None)
    (Sample.session Sample.two_blocks) world0 =
  HRM_ICP_ProgramFlash
    (Sample.env_with (Sample.with_status 1 Sample.program_status_bad) None)
    (Sample.session Sample.two_blocks) world0.
Proof.
  split; [split; reflexivity |]. split; [vm_compute; reflexivity |].
  apply X14_program_phase_ignores_status_bytes. intros k. reflexivity.
Defined.

(** ** The shape of the program phase *)

Section ProgramShape.

Variable E : env.

Lemma program_loop_shape n : forall fuel i hrm w,
  i + MEM_PROG_BLOCK_SIZE * Z.of_nat n = MEM_OFFSET + MEM_SIZE -> (n <= fuel)%nat ->
  exists r e w' done tail,
    program_loop E fuel i hrm w = Ret (r, set_last_errorcode e hrm) w' /\
    w_trace w' = w_trace w ++ (done ≫= program_block_events (usb_dev hrm) (mem hrm)) ++ tail /\
    (r = HRM_OK /\ e = last_errorcode hrm /\ tail = [] /\
       done = List.filter (block_valid (mem hrm)) (block_addrs MEM_PROG_BLOCK_SIZE i n)
     \/ r = HRM_ERROR /\ e = HRM_FLASH_PROGRAM_ERROR /\
        exists a k,
          (k = 1%nat \/ k = 3%nat) /\
          tail = take k (program_block_events (usb_dev hrm) (mem hrm) a) /\
          exists rest,
            List.filter (block_valid (mem hrm)) (block_addrs MEM_PROG_BLOCK_SIZE i n) =
              done ++ a :: rest).
Proof.
  induction n as [|n IH]; intros fuel i hrm w Hi Hf.
  - assert ((i <? MEM_OFFSET + MEM_SIZE) = false) as Hc by (apply Z.ltb_ge; lia).
    exists HRM_OK, (last_errorcode hrm), w, [], [].
    rewrite set_last_errorcode_same by reflexivity.
    split; [destruct fuel; cbn [program_loop]; rewrite Hc; reflexivity |].
    split; [by rewrite app_nil_r |]. left. auto.
  - destruct fuel as [|fuel]; [lia |].
    assert (i + MEM_PROG_BLOCK_SIZE + MEM_PROG_BLOCK_SIZE * Z.of_nat n = MEM_OFFSET + MEM_SIZE)
      as Hi' by (unfold MEM_PROG_BLOCK_SIZE in *; lia).
    rewrite program_loop_unfold by (apply Z.ltb_lt; unfold MEM_PROG_BLOCK_SIZE in *; lia).
    unfold mbind at 1, prog_bind at 1. rewrite program_block_run.
    rewrite block_addrs_S. cbn [List.filter].
    destruct (block_valid (mem hrm) i) eqn:Hv.
    + destruct (program_issue_ok (e_control E (w_controls w))) eqn:H1.
      * destruct (program_poll_ok (e_control E (S (w_controls w)))) eqn:H2.
        -- fold (program_block_events (usb_dev hrm) (mem hrm) i).
           destruct (IH fuel (i + MEM_PROG_BLOCK_SIZE) hrm
                       (advance w 2 (program_block_events (usb_dev hrm) (mem hrm) i))
                       Hi' ltac:(lia))
             as (r & e & w' & done & tail & Hrun & Htr & Hcase).
           exists r, e, w', (i :: done), tail. split; [exact Hrun |].
           split; [rewrite Htr; cbn [advance w_trace mbind list_bind];
                   by rewrite <- !app_assoc |].
           destruct Hcase as [(-> & -> & -> & ->) | (-> & -> & a & k & Hk & -> & rest & Hrest)].
           ++ left. auto.
           ++ right. split; [reflexivity |]. split; [reflexivity |].
              exists a, k. split; [exact Hk |]. split; [reflexivity |].
              exists rest. by rewrite Hrest.
        -- eexists HRM_ERROR, HRM_FLASH_PROGRAM_ERROR, _, [],
             (take 3 (program_block_events (usb_dev hrm) (mem hrm) i)).
           split; [reflexivity |]. split; [reflexivity |]. right.
           split; [reflexivity |]. split; [reflexivity |].
           exists i, 3%nat. split; [by right |]. split; [reflexivity |]. by eexists.
      * eexists HRM_ERROR, HRM_FLASH_PROGRAM_ERROR, _, [],
          (take 1 (program_block_events (usb_dev hrm) (mem hrm) i)).
        split; [reflexivity |]. split; [reflexivity |]. right.
        split; [reflexivity |]. split; [reflexivity |].
        exists i, 1%nat. split; [by left |]. split; [reflexivity |]. by eexists.
    + apply IH; [exact Hi' | lia].
Qed.

Lemma ProgramFlash_shape hrm w :
  exists r e w' done tail,
    HRM_ICP_ProgramFlash E hrm w = Ret (r, set_last_errorcode e hrm) w' /\
    w_trace w' = w_trace w ++ (done ≫= program_block_events (usb_dev hrm) (mem hrm)) ++ tail /\
    (r = HRM_OK /\ e = 0 /\ tail = [] /\
       done = List.filter (block_valid (mem hrm)) prog_block_addrs
     \/ r = HRM_ERROR /\ e = HRM_FLASH_PROGRAM_ERROR /\
        exists a k,
          (k = 1%nat \/ k = 3%nat) /\
          tail = take k (program_block_events (usb_dev hrm) (mem hrm) a) /\
          exists rest,
            List.filter (block_valid (mem hrm)) prog_block_addrs = done ++ a :: rest).
Proof.
  assert (MEM_OFFSET + MEM_PROG_BLOCK_SIZE * Z.of_nat 112 = MEM_OFFSET + MEM_SIZE) as Hi
    by reflexivity.
  destruct (program_loop_shape 112 (Z.to_nat MEM_SIZE) MEM_OFFSET
              (set_last_errorcode 0 hrm) w Hi fuel_program)
    as (r & e & w' & done & tail & Hrun & Htr & Hcase).
  exists r, e, w', done, tail. split; [exact Hrun |]. split; [exact Htr |].
  exact Hcase.
Qed.

(** X17. The program phase keeps the order and the delays of the
    protocol.  What it asks of the device is, block after block in address
    order, for each block that holds a byte other than 0xFF: the program
    transfer of the 64 bytes, 70 ms, the status poll, 5 ms.  A phase that
    returns [HRM_OK] has done this for every such block; one that returns
    [HRM_ERROR] has done it for the first of them and ends in the refused
    transfer of the next one, or in that transfer, 70 ms and the poll that
    failed.  So a poll always follows its program transfer after 70 ms,
    and nothing is sent after a failure. *)
Theorem X17_program_phase_order_and_delays hrm w :
  exists r e w' done tail,
    HRM_ICP_ProgramFlash E hrm w = Ret (r, set_last_errorcode e hrm) w' /\
    w_trace w' = w_trace w ++ (done ≫= program_block_events (usb_dev hrm) (mem hrm)) ++ tail /\
    (r = HRM_OK /\ e = 0 /\ tail = [] /\
       done = List.filter (block_valid (mem hrm)) prog_block_addrs
     \/ r = HRM_ERROR /\ e = HRM_FLASH_PROGRAM_ERROR /\
        exists a rest,
          List.filter (block_valid (mem hrm)) prog_block_addrs = done ++ a :: rest /\
          (tail = [program_transfer (usb_dev hrm) (mem hrm) a]
           \/ tail = [program_transfer (usb_dev hrm) (mem hrm) a; EvSleep WAIT_PROGRAMMING;
                      status_poll (usb_dev hrm)])).
Proof.
  destruct (ProgramFlash_shape hrm w) as (r & e & w' & done & tail & Hrun & Htr & Hcase).
  exists r, e, w', done, tail. split; [exact Hrun |]. split; [exact Htr |].
  destruct Hcase as [Hok | (Hr & He & a & k & Hk & Ht & rest & Hrest)]; [by left |].
  right. split; [exact Hr |]. split; [exact He |]. exists a, rest. split; [exact Hrest |].
  destruct Hk as [-> | ->]; [left | right]; exact Ht.
Qed.

End ProgramShape.

(** ** What a complete program phase delivers *)

Section Delivered.

Variable E : env.

Lemma block_bytes_chunk m t :
  block_bytes m (MEM_OFFSET + MEM_PROG_BLOCK_SIZE * Z.of_nat t) = take 64 (drop (64 * t) m).
Proof.
  unfold block_bytes. change (Z.to_nat MEM_PROG_BLOCK_SIZE) with 64%nat.
  do 2 f_equal. unfold MEM_PROG_BLOCK_SIZE. lia.
Qed.

Lemma block_addrs_snoc size i n :
  block_addrs size i (S n) = block_addrs size i n ++ [i + size * Z.of_nat n].
Proof. unfold block_addrs. by rewrite seq_S, fmap_app. Qed.

(** A block that the program loop passes over holds 64 times 0xFF. *)
Lemma skipped_block_is_blank m t :
  length m = Z.to_nat MEM_SIZE -> (t < 112)%nat ->
  block_valid m (MEM_OFFSET + MEM_PROG_BLOCK_SIZE * Z.of_nat t) = false ->
  take 64 (drop (64 * t) m) = replicate 64 0xff.
Proof.
  intros Hlen Ht Hv. apply list_eq. intros j.
  destruct (decide (j < 64)%nat) as [Hj | Hj].
  - rewrite lookup_take_lt, lookup_drop, lookup_replicate_2 by lia.
    destruct (lookup_lt_is_Some_2 m (64 * t + j)) as [x Hx];
      [rewrite Hlen; unfold MEM_SIZE; lia |].
    rewrite Hx. f_equal.
    destruct (decide (x = 0xff)) as [-> | Hne]; [reflexivity |].
    assert (block_valid m (MEM_OFFSET + MEM_PROG_BLOCK_SIZE * Z.of_nat t) = true) as Hv'.
    { apply block_valid_spec. exists (Z.of_nat j).
      split; [unfold MEM_PROG_BLOCK_SIZE; lia |]. unfold mem_get.
      replace (Z.to_nat (MEM_OFFSET + MEM_PROG_BLOCK_SIZE * Z.of_nat t - MEM_OFFSET +
                         Z.of_nat j)) with (64 * t + j)%nat
        by (unfold MEM_PROG_BLOCK_SIZE; lia).
      rewrite Hx. exact Hne. }
    rewrite Hv in Hv'. discriminate Hv'.
  - rewrite lookup_take_ge by lia. symmetry. apply lookup_replicate_None. lia.
Qed.

Lemma flash_after_block f h m a :
  flash_after f (program_block_events h m a) =
    take (Z.to_nat (a - MEM_OFFSET)) f ++ block_bytes m a ++
    drop (Z.to_nat (a - MEM_OFFSET) + length (block_bytes m a)) f.
Proof. reflexivity. Qed.

(** The flash after the operations of the first [n] blocks: the image up
    to there, erased from there on. *)
Lemma flash_after_blocks h m n :
  length m = Z.to_nat MEM_SIZE -> (n <= 112)%nat ->
  flash_after (replicate (Z.to_nat MEM_SIZE) 0xff)
    (List.filter (block_valid m) (block_addrs MEM_PROG_BLOCK_SIZE MEM_OFFSET n)
       ≫= program_block_events h m) =
  take (64 * n) m ++ replicate (Z.to_nat MEM_SIZE - 64 * n) 0xff.
Proof.
  intros Hlen. induction n as [|n IH]; intros Hn.
  - rewrite Nat.mul_0_r, Nat.sub_0_r, take_0. reflexivity.
  - rewrite block_addrs_snoc, List.filter_app, bind_app.
    unfold flash_after in *. rewrite foldl_app, IH by lia. clear IH.
    fold (flash_after (take (64 * n) m ++ replicate (Z.to_nat MEM_SIZE - 64 * n) 0xff)).
    assert (length (take (64 * n) m) = (64 * n)%nat) as Hlt
      by (rewrite length_take, Hlen; unfold MEM_SIZE; lia).
    assert (take (64 * S n) m = take (64 * n) m ++ take 64 (drop (64 * n) m)) as Hsplit
      by (rewrite take_take_drop; f_equal; lia).
    cbn [List.filter].
    destruct (block_valid m (MEM_OFFSET + MEM_PROG_BLOCK_SIZE * Z.of_nat n)) eqn:Hv.
    + rewrite bind_singleton, flash_after_block, block_bytes_chunk.
      replace (Z.to_nat (MEM_OFFSET + MEM_PROG_BLOCK_SIZE * Z.of_nat n - MEM_OFFSET))
        with (64 * n)%nat by (unfold MEM_PROG_BLOCK_SIZE; lia).
      assert (length (take 64 (drop (64 * n) m)) = 64%nat) as Hl64
        by (rewrite length_take, length_drop, Hlen; unfold MEM_SIZE; lia).
      rewrite Hl64, (take_app_length' _ _ _ (eq_sym Hlt)).
      rewrite (drop_app_add' _ _ _ _ (eq_sym Hlt)), drop_replicate.
      rewrite Hsplit, <- app_assoc. do 3 f_equal. lia.
    + change ([] ≫= program_block_events h m) with (@nil event). cbn [foldl].
      rewrite Hsplit, (skipped_block_is_blank m n Hlen ltac:(lia) Hv), <- app_assoc.
      rewrite <- replicate_add. do 2 f_equal. unfold MEM_SIZE. lia.
Qed.

(** X15. A program phase that returns [HRM_OK] has delivered the image:
    its program transfers, carried out in the order sent on a flash that
    holds 0xFF everywhere (as after the erase phase), leave the flash
    equal to the image, byte for byte.  The blocks it passes over are
    exactly blocks that an erased flash holds already. *)
Theorem X15_successful_program_phase_delivers_the_image hrm w hrm' w' :
  length (mem hrm) = Z.to_nat MEM_SIZE ->
  HRM_ICP_ProgramFlash E hrm w = Ret (HRM_OK, hrm') w' ->
  exists ev,
    w_trace w' = w_trace w ++ ev /\
    flash_after (replicate (Z.to_nat MEM_SIZE) 0xff) ev = mem hrm.
Proof.
  intros Hlen Hrun.
  destruct (ProgramFlash_shape E hrm w) as (r & e & w2 & done & tail & Hrun2 & Htr & Hcase).
  rewrite Hrun in Hrun2. injection Hrun2 as <- _ <-.
  destruct Hcase as [(_ & _ & -> & ->) | (Hr & _)]; [| discriminate Hr].
  eexists. split; [exact Htr |]. rewrite app_nil_r.
  change prog_block_addrs with (block_addrs MEM_PROG_BLOCK_SIZE MEM_OFFSET 112).
  rewrite (flash_after_blocks _ _ 112 Hlen ltac:(lia)).
  change (Z.to_nat MEM_SIZE - 64 * 112)%nat with 0%nat.
  rewrite app_nil_r. apply take_ge. rewrite Hlen. unfold MEM_SIZE. lia.
Qed.

End Delivered.

Lemma X15_witness :
  HRM_ICP_ProgramFlash (Sample.env_with Sample.program_status_bad None)
      (Sample.session Sample.two_blocks) world0 =
    Ret (HRM_OK, Sample.session Sample.two_blocks)
        (advance world0 4
           (program_block_events (Some 1%nat) Sample.two_blocks 0xDC00 ++
            program_block_events (Some 1%nat) Sample.two_blocks 0xDC40)) /\
  exists ev,
    w_trace (advance world0 4
               (program_block_events (Some 1%nat) Sample.two_blocks 0xDC00 ++
                program_block_events (Some 1%nat) Sample.two_blocks 0xDC40)) =
      w_trace world0 ++ ev /\
    flash_after (replicate (Z.to_nat MEM_SIZE) 0xff) ev = mem (Sample.session Sample.two_blocks).
Proof.
  assert (HRM_ICP_ProgramFlash (Sample.env_with Sample.program_status_bad None)
              (Sample.session Sample.two_blocks) world0 =
            Ret (HRM_OK, Sample.session Sample.two_blocks)
                (advance world0 4
                   (program_block_events (Some 1%nat) Sample.two_blocks 0xDC00 ++
                    program_block_events (Some 1%nat) Sample.two_blocks 0xDC40))) as Hrun
    by (vm_compute; reflexivity).
  split; [exact Hrun |].
  apply (X15_successful_program_phase_delivers_the_image
           (Sample.env_with Sample.program_status_bad None)
           (Sample.session Sample.two_blocks) world0 (Sample.session Sample.two_blocks));
    [vm_compute; reflexivity | exact Hrun].
Defined.

(** ** Whole runs *)

Section Runs.

Variable E : env.

Lemma count_app f a b : count f (a ++ b) = (count f a + count f b)%nat.
Proof. unfold count. by rewrite List.filter_app, length_app. Qed.

Lemma count_0_filter f ev : count f ev = 0%nat -> List.filter f ev = [].
Proof. unfold count. apply nil_length_inv. Qed.

Lemma count_bind_0 {A} f (g : A -> list event) l :
  (forall a, count f (g a) = 0%nat) -> count f (l ≫= g) = 0%nat.
Proof.
  intros Hg. induction l as [|a l IH]; [reflexivity |].
  rewrite bind_cons, count_app, Hg, IH. reflexivity.
Qed.

Lemma erase_events_transfers h n :
  List.filter is_erase_transfer (erase_events h n) =
    erase_transfer h <$> block_addrs MEM_BLOCK_SIZE MEM_OFFSET n.
Proof.
  unfold erase_events. induction (block_addrs MEM_BLOCK_SIZE MEM_OFFSET n) as [|a l IH];
    [reflexivity |].
  rewrite bind_cons, List.filter_app, IH. reflexivity.
Qed.

Lemma erase_events_count f h n :
  (forall a, count f (erase_block_events h a) = 0%nat) -> count f (erase_events h n) = 0%nat.
Proof. intros Hf. unfold erase_events. by apply count_bind_0. Qed.

Lemma split_after f (l1 l2 pre : list event) e post :
  l1 ++ l2 = pre ++ e :: post -> f e = true -> count f l1 = 0%nat ->
  exists pre2, pre = l1 ++ pre2 /\ l2 = pre2 ++ e :: post.
Proof.
  revert pre. induction l1 as [|x l1 IH]; intros pre Heq He Hc.
  - exists pre. auto.
  - destruct pre as [|y pre].
    + injection Heq as -> _. unfold count in Hc. cbn in Hc. rewrite He in Hc. discriminate Hc.
    + injection Heq as -> Heq.
      assert (count f l1 = 0%nat) as Hc'.
      { unfold count in *. cbn in Hc. destruct (f y); [discriminate Hc | exact Hc]. }
      destruct (IH pre Heq He Hc') as (pre2 & -> & ->). by exists pre2.
Qed.

Lemma erased_before_programmed_none ev :
  count is_program_transfer ev = 0%nat -> erased_before_programmed ev.
Proof.
  intros Hc pre e post -> He. rewrite count_app in Hc. unfold count in Hc.
  cbn in Hc. rewrite He in Hc. cbn in Hc. lia.
Qed.

Lemma erased_before_programmed_after ev0 ev :
  count is_erase_transfer ev0 = 0%nat -> count is_program_transfer ev0 = 0%nat ->
  erased_before_programmed ev -> erased_before_programmed (ev0 ++ ev).
Proof.
  intros He0 Hp0 Hev pre e post Heq He.
  destruct (split_after is_program_transfer ev0 ev pre e post Heq He Hp0) as (pre2 & -> & Hev2).
  destruct (Hev pre2 e post Hev2 He) as [d Hd]. exists d.
  by rewrite List.filter_app, (count_0_filter _ _ He0).
Qed.

(** What an attempt to open the device leaves in the trace. *)
Lemma InitUSB_trace hrm w :
  exists r hrm' w' ev,
    HRM_ICP_InitUSB E hrm w = Ret (r, hrm') w' /\ w_trace w' = w_trace w ++ ev /\
    count is_attempt ev = 1%nat /\ count is_wait ev = 0%nat /\
    count is_erase_transfer ev = 0%nat /\ count is_program_transfer ev = 0%nat /\
    (r = HRM_OK /\ last_errorcode hrm' = 0 /\ is_Some (usb_dev hrm') /\
       count is_opened ev = 1%nat /\ count is_close ev = 0%nat
     \/ r = HRM_ERROR /\
        (last_errorcode hrm' = HRM_USB_OPEN_ERROR \/ last_errorcode hrm' = HRM_USB_CONFIG_ERROR) /\
        count is_opened ev = count is_close ev).
Proof.
  unfold HRM_ICP_InitUSB. step_prog.
  destruct (e_open E (w_opens w) ICP_VID ICP_PID) as [d|]; step_prog.
  - destruct (e_set_configuration E (w_configs w) <? 0); step_prog.
    + eexists _, _, _, [EvOpen ICP_VID ICP_PID (Some d); EvSetConfiguration d 1;
                        EvClose (Some d)].
      split; [reflexivity |]. split; [cbn; by rewrite <- !app_assoc |].
      do 4 (split; [reflexivity |]). right. cbn. auto.
    + eexists _, _, _, [EvOpen ICP_VID ICP_PID (Some d); EvSetConfiguration d 1].
      split; [reflexivity |]. split; [cbn; by rewrite <- !app_assoc |].
      do 4 (split; [reflexivity |]). left. cbn. eauto 10.
  - eexists _, _, _, [EvOpen ICP_VID ICP_PID None].
    split; [reflexivity |]. split; [reflexivity |].
    do 4 (split; [reflexivity |]). right. cbn. auto.
Qed.

Lemma init_loop_trace n : forall hrm w,
  (0 < n)%nat ->
  exists hrm' w' ev,
    init_loop E n hrm w = Ret hrm' w' /\ w_trace w' = w_trace w ++ ev /\
    count is_erase_transfer ev = 0%nat /\ count is_program_transfer ev = 0%nat /\
    (1 <= count is_attempt ev <= n)%nat /\
    (last_errorcode hrm' = 0 /\ is_Some (usb_dev hrm') /\
       (count is_wait ev + 1)%nat = count is_attempt ev /\
       count is_opened ev = (count is_close ev + 1)%nat
     \/ (last_errorcode hrm' = HRM_USB_OPEN_ERROR \/ last_errorcode hrm' = HRM_USB_CONFIG_ERROR) /\
        count is_attempt ev = n /\ count is_wait ev = n /\
        count is_opened ev = count is_close ev).
Proof.
  induction n as [|n IH]; intros hrm w Hn; [lia |].
  cbn [init_loop]. unfold mbind at 1, prog_bind at 1.
  destruct (InitUSB_trace hrm w)
    as (r & hrm' & w' & ev & -> & Htr & Ha & Hw & He & Hp &
        [(-> & Herr & Hd & Ho & Hc) | (-> & Herr & Hb)]).
  - exists hrm', w', ev. split; [reflexivity |]. split; [exact Htr |].
    split; [exact He |]. split; [exact Hp |]. split; [lia |]. left.
    split; [exact Herr |]. split; [exact Hd |]. lia.
  - cbn [Z.eqb HRM_ERROR HRM_OK]. step_prog. destruct n as [|n].
    + exists hrm', (advance w' 0 [EvSleep 1000]), (ev ++ [EvSleep 1000]).
      split; [reflexivity |]. split; [cbn; by rewrite Htr, <- app_assoc |].
      rewrite !count_app, He, Hp, Ha, Hw, Hb. split; [reflexivity |].
      split; [reflexivity |]. split; [cbn; lia |]. right.
      split; [exact Herr |]. split; [reflexivity |]. split; [reflexivity |].
      cbn. lia.
    + destruct (IH hrm' (advance w' 0 [EvSleep 1000]) ltac:(lia))
        as (h2 & w2 & ev2 & Hrun & Htr2 & He2 & Hp2 & Ha2 & Hcase).
      exists h2, w2, (ev ++ [EvSleep 1000] ++ ev2). split; [exact Hrun |].
      split; [rewrite Htr2; cbn; rewrite Htr; by rewrite <- !app_assoc |].
      rewrite !count_app, He, Hp, Ha, Hw, Hb, He2, Hp2.
      change (count is_erase_transfer [EvSleep 1000]) with 0%nat.
      change (count is_program_transfer [EvSleep 1000]) with 0%nat.
      change (count is_attempt [EvSleep 1000]) with 0%nat.
      change (count is_wait [EvSleep 1000]) with 1%nat.
      change (count is_opened [EvSleep 1000]) with 0%nat.
      change (count is_close [EvSleep 1000]) with 0%nat.
      split; [reflexivity |]. split; [reflexivity |]. split; [lia |].
      destruct Hcase as [(Herr2 & Hd2 & Hw2 & Hb2) | (Herr2 & Hn2 & Hw2 & Hb2)].
      * left. split; [exact Herr2 |]. split; [exact Hd2 |]. lia.
      * right. split; [exact Herr2 |]. lia.
Qed.

(** X16. The loop that waits for the device opens it at most [n] times and
    sleeps one second after each attempt that failed, the last one
    included.  It stops at the first attempt that succeeds, with error code
    0 and the handle of that attempt as the only one left open.  After [n]
    failures it has slept [n] seconds, no handle is left open (a handle
    whose configuration failed has been closed) and the error code is the
    one of the last attempt, 1 or 2. *)
Theorem X16_wait_loop n hrm w :
  (0 < n)%nat ->
  exists hrm' w' ev,
    init_loop E n hrm w = Ret hrm' w' /\ w_trace w' = w_trace w ++ ev /\
    (1 <= count is_attempt ev <= n)%nat /\
    (last_errorcode hrm' = 0 /\ is_Some (usb_dev hrm') /\
       (count is_wait ev + 1)%nat = count is_attempt ev /\
       count is_opened ev = (count is_close ev + 1)%nat
     \/ (last_errorcode hrm' = HRM_USB_OPEN_ERROR \/ last_errorcode hrm' = HRM_USB_CONFIG_ERROR) /\
        count is_attempt ev = n /\ count is_wait ev = n /\
        count is_opened ev = count is_close ev).
Proof.
  intros Hn.
  destruct (init_loop_trace n hrm w Hn) as (hrm' & w' & ev & Hrun & Htr & _ & _ & Ha & Hcase).
  exists hrm', w', ev. auto.
Qed.

Lemma ClearICPFlag_trace vid pid key1 key2 w :
  exists r w' ev,
    HRM_ClearICPFlag E vid pid key1 key2 w = Ret r w' /\ w_trace w' = w_trace w ++ ev /\
    (r = HRM_ERROR \/ r = 0) /\
    count is_opened ev = count is_close ev /\
    count is_erase_transfer ev = 0%nat /\ count is_program_transfer ev = 0%nat.
Proof.
  unfold HRM_ClearICPFlag. step_prog. destruct (e_open E (w_opens w) vid pid) as [d|]; step_prog.
  - destruct (e_set_configuration E (w_configs w) <? 0); step_prog.
    + eexists _, _, [EvOpen vid pid (Some d); EvSetConfiguration d 1; EvClose (Some d)].
      split; [reflexivity |]. split; [cbn; by rewrite <- !app_assoc |]. auto.
    + eexists _, _, [EvOpen vid pid (Some d); EvSetConfiguration d 1; EvClearHalt d;
                     EvResetEp d;
                     EvControl (Some d) 0x21 0x09 (to_int key1) (to_int key2) (e_tmp E) 8;
                     EvClose (Some d)].
      split; [reflexivity |]. split; [cbn; by rewrite <- !app_assoc |]. auto.
  - eexists _, _, [EvOpen vid pid None].
    split; [reflexivity |]. split; [reflexivity |]. auto.
Qed.

Lemma program_events_count f h m done tail :
  (forall a, count f (program_block_events h m a) = 0%nat) ->
  (tail = [] \/ exists a k, tail = take k (program_block_events h m a)) ->
  (forall a, f (program_transfer h m a) = false) ->
  f (EvSleep WAIT_PROGRAMMING) = false -> f (status_poll h) = false ->
  count f ((done ≫= program_block_events h m) ++ tail) = 0%nat.
Proof.
  intros Hf Ht H1 H2 H3. rewrite count_app, (count_bind_0 _ _ _ Hf).
  destruct Ht as [-> | (a & k & ->)]; [reflexivity |].
  unfold count, program_block_events.
  destruct k as [|[|[|[|k]]]]; cbn; rewrite ?H1, ?H2, ?H3; try reflexivity.
  specialize (Hf a). unfold count, program_block_events in Hf. cbn in Hf.
  rewrite H1, H2, H3 in Hf. rewrite take_nil. exact Hf.
Qed.

(** The end of [main], from the erase phase on, with what it asks of the
    device. *)
Lemma main_flash_trace hrm w d :
  usb_dev hrm = Some d ->
  exists c w' ev,
    main_flash E hrm w = Exit c w' /\ w_trace w' = w_trace w ++ ev /\
    count is_opened ev = 0%nat /\
    (c = 0 /\ count is_close ev = 1%nat
     \/ (c = HRM_FLASH_ERASE_ERROR \/ c = HRM_FLASH_PROGRAM_ERROR) /\
        count is_close ev = 0%nat) /\
    erased_before_programmed ev.
Proof.
  intros Hd. unfold main_flash, mbind, prog_bind.
  destruct (first_erase_failure E w 14) as [Hok | (k & Hk & Hok & Hbad)].
  - rewrite (EraseFlash_ok E hrm w d Hd Hok). cbn [HRM_CheckError set_last_errorcode
      last_errorcode Z.ltb Z.compare mret prog_ret].
    destruct (ProgramFlash_shape E (set_last_errorcode 0 hrm)
                (advance w 28 (erase_events (Some d) 14)))
      as (r & e & w' & done & tail & Hrun & Htr & Hcase).
    rewrite Hrun. cbn [usb_dev mem set_last_errorcode] in Htr, Hcase. rewrite Hd in Htr, Hcase.
    set (pev := (done ≫= program_block_events (Some d) (mem hrm)) ++ tail) in *.
    assert (tail = [] \/ exists a k, tail = take k (program_block_events (Some d) (mem hrm) a))
      as Htail.
    { destruct Hcase as [(_ & _ & -> & _) | (_ & _ & a & k & _ & -> & _)]; eauto. }
    assert (count is_opened pev = 0%nat) as Hpo
      by (apply program_events_count; auto).
    assert (count is_close pev = 0%nat) as Hpc
      by (apply program_events_count; auto).
    assert (count is_erase_transfer pev = 0%nat) as Hpe
      by (apply program_events_count; auto).
    assert (forall rest, count is_erase_transfer rest = 0%nat ->
              erased_before_programmed (erase_events (Some d) 14 ++ rest)) as Hord.
    { intros rest Hrest pre x post Heq Hx.
      destruct (split_after is_program_transfer _ _ pre x post Heq Hx
                  ltac:(by apply erase_events_count)) as (pre2 & -> & Hrest2).
      exists d. rewrite List.filter_app, erase_events_transfers.
      rewrite Hrest2, count_app in Hrest.
      rewrite (count_0_filter is_erase_transfer pre2) by lia. by rewrite app_nil_r. }
    destruct Hcase as [(-> & -> & _) | (-> & -> & _)].
    + exists 0, (advance w' 0 [EvClose (Some d)]),
        (erase_events (Some d) 14 ++ pev ++ [EvClose (Some d)]).
      split; [step_prog; rewrite Hd; reflexivity |].
      split; [cbn [advance w_trace]; rewrite Htr; cbn [advance w_trace];
              by rewrite <- !app_assoc |].
      rewrite !count_app, Hpo, Hpc, !erase_events_count by auto.
      split; [reflexivity |]. split; [left; auto |].
      apply Hord. by rewrite count_app, Hpe.
    + exists HRM_FLASH_PROGRAM_ERROR, w', (erase_events (Some d) 14 ++ pev).
      split; [reflexivity |].
      split; [rewrite Htr; cbn [advance w_trace]; by rewrite <- !app_assoc |].
      rewrite !count_app, Hpo, Hpc, !erase_events_count by auto.
      split; [reflexivity |]. split; [right; auto |]. by apply Hord.
  - rewrite (EraseFlash_fail E hrm w d k Hd Hk Hok Hbad).
    exists HRM_FLASH_ERASE_ERROR, (advance w (2 * S k) (erase_events (Some d) (S k))),
      (erase_events (Some d) (S k)).
    split; [reflexivity |]. split; [reflexivity |].
    rewrite !erase_events_count by auto.
    split; [reflexivity |]. split; [right; auto |].
    apply erased_before_programmed_none. by apply erase_events_count.
Qed.

Lemma main_session_trace hrm0 w :
  exists ev,
    w_trace (run_world (main_session E hrm0 w)) = w_trace w ++ ev /\
    run_account (main_session E hrm0 w) ev /\ erased_before_programmed ev.
Proof.
  remember (main_session E hrm0 w) as R eqn:HR.
  unfold main_session in HR. unfold mbind at 1, prog_bind at 1 in HR.
  destruct (init_loop_trace 30 hrm0 w ltac:(lia))
    as (h1 & w1 & ev1 & Hrun & Htr & He1 & Hp1 & _ & Hinit).
  rewrite Hrun in HR. unfold mbind at 1, prog_bind at 1, HRM_CheckError at 1 in HR.
  destruct Hinit as [(He & [d Hd] & _ & Hbal) | (He & _ & _ & Hbal)].
  - rewrite He in HR. cbn [Z.ltb Z.compare mret prog_ret] in HR.
    unfold mbind at 1, prog_bind at 1, lift_result at 1 in HR.
    destruct (HRM_ICP_ReadS19 (e_file E) (e_line0 E) (set_verbose_mode 1 h1))
      as [[r h2] | f] eqn:Hread.
    2: { subst R. exists ev1. split; [exact Htr |].
         split; [exact Hbal | by apply erased_before_programmed_none]. }
    apply ReadS19_outcome in Hread as [Hd2 He2]. cbn [set_verbose_mode usb_dev] in Hd2.
    unfold mbind at 1, prog_bind at 1, HRM_CheckError at 1 in HR.
    destruct He2 as [He2 | He2]; rewrite He2 in HR.
    2: { subst R. exists ev1. split; [exact Htr |].
         split; [right; split; [by left | exact Hbal]
                | by apply erased_before_programmed_none]. }
    cbn [Z.ltb Z.compare mret prog_ret] in HR.
    unfold mbind at 1, prog_bind at 1, lift_result at 1 in HR.
    destruct (fix_icp_flag h2) as [h3 | f] eqn:Hfix.
    2: { subst R. exists ev1. split; [exact Htr |].
         split; [exact Hbal | by apply erased_before_programmed_none]. }
    apply fix_icp_flag_outcome in Hfix as [Hd3 _].
    destruct (main_flash_trace h3 w1 d ltac:(congruence))
      as (c & w2 & ev2 & Hrun2 & Htr2 & Hop & Hcl & Hord).
    rewrite Hrun2 in HR. subst R. exists (ev1 ++ ev2).
    split; [cbn [run_world]; by rewrite Htr2, Htr, app_assoc |].
    split; [| by apply erased_before_programmed_after].
    cbn [run_account]. rewrite !count_app, Hop.
    destruct Hcl as [(-> & Hc) | (Hc & Hcl)]; [left | right]; (split; [auto | lia]).
  - assert (R = Exit (last_errorcode h1) w1) as ->
      by (rewrite HR; destruct He as [He | He]; rewrite He; reflexivity).
    exists ev1. split; [exact Htr |].
    split; [| by apply erased_before_programmed_none].
    left. split; [destruct He as [-> | ->]; auto | exact Hbal].
Qed.

Lemma main_trace keys hrm0 w :
  exists ev,
    w_trace (run_world (main E keys hrm0 w)) = w_trace w ++ ev /\
    run_account (main E keys hrm0 w) ev /\ erased_before_programmed ev.
Proof.
  remember (main E keys hrm0 w) as R eqn:HR. unfold main in HR.
  destruct keys as [[a2 a3] |].
  - unfold mbind at 1, prog_bind at 1 in HR. unfold mbind at 1, prog_bind at 1 in HR.
    destruct (ClearICPFlag_trace HID_VID HID_PID (to_uint (strtoul16 a2))
                (to_uint (strtoul16 a3)) w)
      as (r & w1 & ev0 & Hrun & Htr & Hr & Hbal & He0 & Hp0).
    rewrite Hrun in HR. destruct Hr as [-> | ->].
    + assert (R = Exit HRM_ERROR w1) as -> by exact HR.
      exists ev0. split; [exact Htr |].
      split; [left; auto | by apply erased_before_programmed_none].
    + assert (R = main_session E hrm0 w1) as -> by exact HR.
      destruct (main_session_trace hrm0 w1) as (ev & Htr1 & Hacc & Hord).
      exists (ev0 ++ ev). split; [by rewrite Htr1, Htr, app_assoc |].
      split; [| by apply erased_before_programmed_after].
      destruct (main_session E hrm0 w1) as [? ? | c ? | ? ?]; cbn [run_account] in *;
        rewrite ?count_app; [exact Hacc | | lia].
      destruct Hacc as [(Hc & Hb) | (Hc & Hb)]; [left | right]; (split; [exact Hc | lia]).
  - assert (R = main_session E hrm0 w) as -> by exact HR.
    apply main_session_trace.
Qed.

(** X18. [main] never programs flash that it has not asked the device to
    erase: whatever the arguments, the file and the device, a program
    transfer is sent only after the erase transfers of all 14 blocks,
    0xDC00 to 0xF600, have been sent in this order on one handle (and no
    other erase transfer). *)
Theorem X18_program_transfers_follow_the_erase_phase keys hrm0 pre e post :
  w_trace (run_world (main E keys hrm0 world0)) = pre ++ e :: post ->
  is_program_transfer e = true ->
  exists d,
    List.filter is_erase_transfer pre =
      erase_transfer (Some d) <$> block_addrs MEM_BLOCK_SIZE MEM_OFFSET 14.
Proof.
  intros Htr He. destruct (main_trace keys hrm0 world0) as (ev & Hev & _ & Hord).
  apply (Hord pre e post); [| exact He]. rewrite <- Htr, Hev. reflexivity.
Qed.

(** X19. [main] never returns: a run ends in [exit] with one of the codes
    -1, 0, 1, 2, 3, 4, 5, or in undefined behaviour (an access outside the
    image or the line buffer).  With 0, -1 (the ICP flag could not be
    cleared), 1 and 2 (the device could not be opened or configured) every
    handle that was opened has been closed.  With 3 (no file), 4 and 5
    (erasing or programming failed) one handle, that of the session, is
    left open, and so it is when the behaviour becomes undefined. *)
Theorem X19_exit_codes_and_handles keys hrm0 :
  let ev := w_trace (run_world (main E keys hrm0 world0)) in
  match main E keys hrm0 world0 with
  | Ret _ _ => False
  | Exit c _ =>
      (c = HRM_ERROR \/ c = 0 \/ c = HRM_USB_OPEN_ERROR \/ c = HRM_USB_CONFIG_ERROR) /\
      count is_opened ev = count is_close ev
      \/ (c = HRM_FILE_OPEN_ERROR \/ c = HRM_FLASH_ERASE_ERROR \/
          c = HRM_FLASH_PROGRAM_ERROR) /\
         count is_opened ev = (count is_close ev + 1)%nat
  | Undef _ _ => count is_opened ev = (count is_close ev + 1)%nat
  end.
Proof.
  intros ev. destruct (main_trace keys hrm0 world0) as (ev' & Hev & Hacc & _).
  subst ev. rewrite Hev. exact Hacc.
Qed.

End Runs.

Lemma X16_witness :
  exists hrm' w' ev,
    init_loop Sample.late_device 30 Sample.hrm0 world0 = Ret hrm' w' /\
    w_trace w' = w_trace world0 ++ ev /\
    (1 <= count is_attempt ev <= 30)%nat /\
    (last_errorcode hrm' = 0 /\ is_Some (usb_dev hrm') /\
       (count is_wait ev + 1)%nat = count is_attempt ev /\
       count is_opened ev = (count is_close ev + 1)%nat
     \/ (last_errorcode hrm' = HRM_USB_OPEN_ERROR \/ last_errorcode hrm' = HRM_USB_CONFIG_ERROR) /\
        count is_attempt ev = 30%nat /\ count is_wait ev = 30%nat /\
        count is_opened ev = count is_close ev).
Proof. apply (X16_wait_loop Sample.late_device 30 Sample.hrm0 world0). lia. Defined.

Lemma X18_witness :
  is_program_transfer (default (EvSleep 0) (Sample.good_trace !! 58%nat)) = true /\
  exists d,
    List.filter is_erase_transfer (take 58 Sample.good_trace) =
      erase_transfer (Some d) <$> block_addrs MEM_BLOCK_SIZE MEM_OFFSET 14.
Proof.
  split; [vm_compute; reflexivity |].
  apply (X18_program_transfers_follow_the_erase_phase Sample.good_run None Sample.hrm0
           (take 58 Sample.good_trace) (default (EvSleep 0) (Sample.good_trace !! 58%nat))
           (drop 59 Sample.good_trace)); vm_compute; reflexivity.
Defined.
